(** * iNaturalist downloader: paginated fetch and resilient download

    A shallow embedding of the observation paginator, the image fetchers,
    the per-photo bookkeeping of [main], the metadata normalizer and the
    run summary of [inaturalist_downloader.py] and
    [inaturalist_downloader_auth.py], followed by the properties they have.

    Conventions.
    - Durations and instants are integers counting milliseconds, so that
      [time.sleep(0.5)] is [500] and the ten-second freshness window of
      [main] is [10000].
    - A computation that may not come back (the [while True] of the
      paginator, the self-call of [download_image]) takes a budget and
      answers [None] when the budget is used up. *)

From Stdlib Require Import ZArith List Ascii Lia Floats.
From stdpp Require Import base option list gmap strings pretty.

Local Open Scope string_scope.
Local Open Scope list_scope.
Local Open Scope Z_scope.

(* ===================================================================== *)
(** * Part I. The programs                                                *)
(* ===================================================================== *)

(** ** The observations endpoint, as [get_observations] sees it *)

(** What [session.get], [raise_for_status] and [response.json()] deliver
    for one page request. *)
Inductive page_response (Obs : Type) : Type :=
| Results (results : list Obs)   (* a body whose ['results'] is a list *)
| NoResults                      (* a body whose ['results'] is missing or null *)
| RequestException.              (* requests.exceptions.RequestException *)

Arguments Results {Obs} results.
Arguments NoResults {Obs}.
Arguments RequestException {Obs}.

(** What the paginator does to the outside, in order. *)
Inductive page_event : Type :=
| PageRequest (page : nat)       (* GET /observations with [page] and [per_page] *)
| PageSleep (ms : Z).            (* time.sleep *)

(** The observations a response contributes to the accumulated list. *)
Definition page_results {Obs} (r : page_response Obs) : list Obs :=
  match r with
  | Results rs => rs
  | NoResults | RequestException => []
  end.

(** The page numbers requested, in order. *)
Definition requested_pages (log : list page_event) : list nat :=
  omap (fun ev => match ev with PageRequest p => Some p | PageSleep _ => None end) log.

Section get_observations.
Context {Obs : Type}.
(** The endpoint answers a page number; [per_page] is the Python [int]
    passed by the caller (200 by default). *)
Variable endpoint : nat -> page_response Obs.
Variable per_page : Z.

(** The [while True] loop of [get_observations]; [budget] bounds the
    number of iterations. *)
Fixpoint get_observations_loop (budget page : nat)
    (observations : list Obs) (log : list page_event)
    : option (list Obs * list page_event) :=
  match budget with
  | O => None
  | S budget' =>
      let log := log ++ [PageRequest page] in
      match endpoint page with
      | RequestException => Some (observations, log)          (* except: break *)
      | NoResults => Some (observations, log)                 (* not data.get('results') *)
      | Results [] => Some (observations, log)                (* not data.get('results') *)
      | Results results =>
          let observations := observations ++ results in      (* extend *)
          if Z.of_nat (length results) <? per_page
          then Some (observations, log)                       (* short page: break *)
          else get_observations_loop budget' (S page) observations
                 (log ++ [PageSleep 500])                     (* page += 1; sleep(0.5) *)
      end
  end.

Definition get_observations (budget : nat) : option (list Obs * list page_event) :=
  get_observations_loop budget 1%nat [] [].
End get_observations.

(** The default of the [per_page] parameter, which [main] never overrides. *)
Definition default_per_page : Z := 200.


(** ** The image host, the local disk and the clock *)

(** The exceptions [download_image] tells apart, by the first [except]
    clause that catches them. *)
Inductive failure : Type :=
| HTTPError (status_code : Z)    (* requests.exceptions.HTTPError, from raise_for_status *)
| Timeout                        (* requests.exceptions.Timeout *)
| ConnectionError                (* requests.exceptions.ConnectionError *)
| OtherException.                (* any other Exception *)

(** What one [session.get(image_url, stream=True)] followed by
    [raise_for_status] and the copy of [iter_content] to the file comes to. *)
Inductive answer : Type :=
| Body (content : string)                 (* 2xx, the body arrives whole *)
| Broken (written : string) (e : failure) (* 2xx, the file is opened and [written]
                                             is copied, then the stream raises [e] *)
| Raised (e : failure).                   (* [get] or [raise_for_status] raises [e] *)

(** The host answers the [i]-th request of the run (counted from 0) for a URL. *)
Definition host : Type := nat -> string -> answer.

Record file : Type := File { content : string; st_mtime : Z }.

Inductive event : Type :=
| Request (url : string)         (* session.get *)
| Sleep (ms : Z).                (* time.sleep *)

Record world : Type := World {
  disk : gmap string file;       (* path -> file *)
  clock : Z;                     (* time.time(), in milliseconds *)
  trace : list event             (* what was done so far, oldest first *)
}.

Definition requested_urls (t : list event) : list string :=
  omap (fun ev => match ev with Request u => Some u | Sleep _ => None end) t.

Definition slept (t : list event) : list Z :=
  omap (fun ev => match ev with Sleep ms => Some ms | Request _ => None end) t.

(** Computations over the world; [None] is a run that does not come back
    normally (an uncaught exception, such as [RecursionError] once the
    budget of nested calls is used up). *)
Definition io (A : Type) : Type := world -> option (A * world).

#[global] Instance io_ret : MRet io := fun A a w => Some (a, w).
#[global] Instance io_bind : MBind io := fun A B f m w =>
  match m w with
  | Some (a, w') => f a w'
  | None => None
  end.

Definition uncaught {A} : io A := fun _ => None.

Definition path_exists (path : string) : io bool := fun w =>
  Some (bool_decide (is_Some (disk w !! path)), w).

Definition session_get (h : host) (url : string) : io answer := fun w =>
  Some (h (length (requested_urls (trace w))) url,
        World (disk w) (clock w) (trace w ++ [Request url])).

(** [open(path, 'wb')] and the writes: the file is created or replaced. *)
Definition write_file (path data : string) : io unit := fun w =>
  Some (tt, World (<[path := File data (clock w)]> (disk w)) (clock w) (trace w)).

Definition sleep (ms : Z) : io unit := fun w =>
  Some (tt, World (disk w) (clock w + ms) (trace w ++ [Sleep ms])).

(** [os.stat(path)]; raises when the path does not exist. *)
Definition os_stat (path : string) : io file := fun w =>
  match disk w !! path with
  | Some f => Some (f, w)
  | None => None
  end.

Definition time_time : io Z := fun w => Some (clock w, w).

(** [os.path.join(a, b)] for two components. *)
Definition ends_with_slash (a : string) : bool :=
  match String.get (String.length a - 1) a with
  | Some c => bool_decide (c = "/"%char)
  | None => false
  end.

Definition path_join (a b : string) : string :=
  if String.prefix "/" b then b
  else if bool_decide (a = "") || ends_with_slash a then a ++ b
  else a ++ "/" ++ b.

(** Truth value of an [Optional[str]]: [None] and the empty string are false. *)
Definition truthy (o : option string) : bool :=
  match o with
  | Some s => negb (bool_decide (s = ""))
  | None => false
  end.

(** [a or b] on such values. *)
Definition py_or (a b : option string) : option string :=
  if truthy a then a else b.

(** ** The metadata normalizer *)

(** What [response.json()] can hold. A dict is its list of items; [get]
    reads the first item with the key. *)
#[local] Unset Elimination Schemes.
Inductive json : Type :=
| JNull
| JBool (b : bool)
| JInt (n : Z)
| JFloat (x : float)
| JString (s : string)
| JList (items : list json)
| JDict (items : list (string * json)).

#[local] Set Elimination Schemes.

Inductive error : Type := AttributeError | TypeError | KeyError.

Inductive result (A : Type) : Type :=
| Ok (a : A)
| Raise (e : error).

Arguments Ok {A} a.
Arguments Raise {A} e.

#[global] Instance result_ret : MRet result := fun A a => Ok a.
#[global] Instance result_bind : MBind result := fun A B f m =>
  match m with
  | Ok a => f a
  | Raise e => Raise e
  end.

Fixpoint assoc (key : string) (items : list (string * json)) : option json :=
  match items with
  | [] => None
  | (k, v) :: rest => if bool_decide (k = key) then Some v else assoc key rest
  end.

(** [receiver.get(key, fallback)]; only a dict has a [get]. *)
Definition get_or (receiver : json) (key : string) (fallback : json) : result json :=
  match receiver with
  | JDict items => Ok (default fallback (assoc key items))
  | _ => Raise AttributeError
  end.

(** [receiver.get(key)] *)
Definition get (receiver : json) (key : string) : result json :=
  get_or receiver key JNull.

(** [receiver[key]] with a string key. *)
Definition item (receiver : json) (key : string) : result json :=
  match receiver with
  | JDict items =>
      match assoc key items with
      | Some v => Ok v
      | None => Raise KeyError
      end
  | _ => Raise TypeError
  end.

(** The truth value of an object. *)
Definition truth (v : json) : bool :=
  match v with
  | JNull => false
  | JBool b => b
  | JInt n => negb (n =? 0)
  | JFloat x => negb (PrimFloat.eqb x 0)
  | JString s => negb (bool_decide (s = ""))
  | JList items => negb (bool_decide (items = []))
  | JDict items => negb (bool_decide (items = []))
  end.

Fixpoint characters (s : string) : list json :=
  match s with
  | EmptyString => []
  | String c rest => JString (String c EmptyString) :: characters rest
  end.

(** The elements a [for] loop (or [enumerate]) draws from an object. *)
Definition iterate (v : json) : result (list json) :=
  match v with
  | JList items => Ok items
  | JDict items => Ok ((fun kv => JString (fst kv)) <$> items)
  | JString s => Ok (characters s)
  | JNull | JBool _ | JInt _ | JFloat _ => Raise TypeError
  end.

(** The items [key: receiver.get(key)] for the keys given, in order. *)
Fixpoint project (receiver : json) (keys : list string)
    : result (list (string * json)) :=
  match keys with
  | [] => Ok []
  | key :: rest =>
      v ← get receiver key;
      more ← project receiver rest;
      Ok ((key, v) :: more)
  end.

(** The items [key: receiver.get('user', {}).get(key)]. *)
Fixpoint project_user (receiver : json) (keys : list string)
    : result (list (string * json)) :=
  match keys with
  | [] => Ok []
  | key :: rest =>
      user ← get_or receiver "user" (JDict []);
      v ← get user key;
      more ← project_user receiver rest;
      Ok ((key, v) :: more)
  end.

(** [result.append(f(x))] for each [x], in order. *)
Fixpoint for_each (f : json -> result json) (xs : list json) : result (list json) :=
  match xs with
  | [] => Ok []
  | x :: rest =>
      y ← f x;
      ys ← for_each f rest;
      Ok (y :: ys)
  end.

Definition photo_info (photo : json) : result json :=
  fields ← project photo
    ["id"; "license_code"; "url"; "original_url"; "large_url"; "medium_url";
     "small_url"; "square_url"; "original_dimensions"; "attribution";
     "native_page_url"; "native_photo_id"; "type"];
  flags ← get_or photo "flags" (JList []);
  moderator_actions ← get_or photo "moderator_actions" (JList []);
  hidden ← get_or photo "hidden" (JBool false);
  Ok (JDict (fields ++ [("flags", flags);
                        ("moderator_actions", moderator_actions);
                        ("hidden", hidden)])).

Definition ident_info (ident : json) : result json :=
  id ← get ident "id";
  user ← project_user ident ["id"; "login"; "name"];
  fields ← project ident
    ["taxon_id"; "body"; "category"; "current"; "vision"; "created_at"];
  Ok (JDict ([("id", id); ("user", JDict user)] ++ fields)).

Definition species_info (taxon : json) : result json :=
  fields ← project taxon
    ["id"; "name"; "preferred_common_name"; "english_common_name"; "rank";
     "rank_level"; "ancestry"; "is_active"; "conservation_status";
     "conservation_status_name"; "iconic_taxon_id"; "iconic_taxon_name";
     "wikipedia_url"; "extinct"; "introduced"; "native"; "endemic";
     "threatened"; "observations_count"; "default_photo"];
  Ok (JDict fields).

(** [extract_species_metadata], the same in both downloaders. *)
Definition extract_species_metadata (observation : json) : result json :=
  observation_id ← get observation "id";
  fields ← project observation
    ["observed_on"; "time_observed_at"; "created_at"; "updated_at";
     "latitude"; "longitude"; "positional_accuracy";
     "public_positional_accuracy"; "quality_grade";
     "num_identification_agreements"; "num_identification_disagreements";
     "captive_cultivated"; "description"; "place_guess"; "geoprivacy";
     "obscured"; "mappable"; "license_code"; "uri"];
  user ← project_user observation
    ["id"; "login"; "name"; "observations_count"; "species_count"];
  comments_count ← get observation "comments_count";
  faves_count ← get observation "faves_count";
  tags ← get_or observation "tags" (JList []);
  has_taxon ← get observation "taxon";
  species ←
    (if truth has_taxon
     then taxon ← item observation "taxon"; species_info taxon
     else Ok JNull);
  has_photos ← get observation "photos";
  photos ←
    (if truth has_photos
     then photos ← item observation "photos";
          photos ← iterate photos;
          for_each photo_info photos
     else Ok []);
  has_identifications ← get observation "identifications";
  identifications ←
    (if truth has_identifications
     then idents ← item observation "identifications";
          idents ← iterate idents;
          for_each ident_info idents
     else Ok []);
  Ok (JDict ([("observation_id", observation_id)] ++ fields ++
             [("user", JDict user);
              ("photos", JList photos);
              ("species", species);
              ("identifications", JList identifications);
              ("comments_count", comments_count);
              ("faves_count", faves_count);
              ("tags", tags)])).

(** The shape under which the normalizer is total: every ['user'] that is
    present is a dict, ['taxon'] is false or a dict, ['photos'] is false or
    a list of dicts, ['identifications'] is false or a list of dicts whose
    ['user'], when present, is a dict. *)
Definition is_dict (v : json) : bool :=
  match v with JDict _ => true | _ => false end.

Definition user_ok (v : json) : bool :=
  match v with
  | JDict items =>
      match assoc "user" items with
      | Some u => is_dict u
      | None => true
      end
  | _ => false
  end.

Definition dicts_or_false (ok : json -> bool) (v : option json) : bool :=
  match v with
  | None => true
  | Some (JList items) => forallb ok items
  | Some v => negb (truth v)
  end.

Definition well_shaped (observation : json) : bool :=
  match observation with
  | JDict items =>
      user_ok observation
      && match assoc "taxon" items with
         | Some t => negb (truth t) || is_dict t
         | None => true
         end
      && dicts_or_false is_dict (assoc "photos" items)
      && dicts_or_false user_ok (assoc "identifications" items)
  | _ => false
  end.

(** ** Observations and photos, as far as [main] reads them *)

Record photo : Type := Photo {
  photo_id : Z;
  url : option string;
  original_url : option string;
  large_url : option string;
  medium_url : option string;
  small_url : option string
}.

(** An observation of the fetched list: [raw] is the dict as the API
    sent it, which [extract_species_metadata] is given; [observation_id]
    and [photos] are [observation['id']] and [observation['photos']], the
    two items that the loops of [main] read themselves. *)
Record observation : Type := Observation {
  observation_id : Z;
  photos : list photo;
  raw : json
}.

(** The values [args.image_quality] can take: the four [choices], and the
    default ['best']. *)
Inductive image_quality : Type := Original | Large | Medium | Small | Best.

Record arguments : Type := Arguments_ {
  images_dir : string;
  download_images : bool;
  quality : image_quality;
  max_observations : option Z;
  output : string
}.

(** [base_url] of the unauthenticated URL template. *)
Definition base_url (p : photo) : string :=
  "https://inaturalist-open-data.s3.amazonaws.com/photos/" ++ pretty (photo_id p).

(** The lists the five [for quality in [...]] loops run over. *)
Definition fallback_qualities (q : image_quality) : list string :=
  match q with
  | Original => ["original"; "large"; "square"]
  | Large => ["large"; "original"; "square"]
  | Medium => ["medium"; "large"; "original"; "square"]
  | Small => ["small"; "medium"; "large"; "original"; "square"]
  | Best => ["original"; "large"; "square"]
  end.

Definition fallback_url (base quality : string) : string :=
  base ++ "/" ++ quality ++ ".jpg".

(** [f"obs_{observation['id']}_photo_{j}.jpg"] *)
Definition photo_filename (id : Z) (j : nat) : string :=
  "obs_" ++ pretty id ++ "_photo_" ++ pretty j ++ ".jpg".

(** [observations[:n]] *)
Definition slice_to {A} (n : Z) (l : list A) : list A :=
  if 0 <=? n then take (Z.to_nat n) l
  else take (Z.to_nat (Z.of_nat (length l) + n)) l.

(** [if args.max_observations: observations = observations[:args.max_observations]] *)
Definition limited (args : arguments) (observations : list observation)
    : list observation :=
  match max_observations args with
  | Some n => if n =? 0 then observations else slice_to n observations
  | None => observations
  end.

(** ** [inaturalist_downloader.py] *)

Module Public.

(** The [except] clauses of [download_image]; [again] is the call
    [self.download_image(image_url, output_dir, filename)]. *)
Definition on_exception (again : io (option string)) (e : failure)
    : io (option string) :=
  match e with
  | HTTPError status_code =>
      if status_code =? 404 then mret None
      else if status_code =? 429 then _ ← sleep 60000; again
      else if 500 <=? status_code then _ ← sleep 10000; again
      else mret None
  | Timeout => _ ← sleep 5000; again
  | ConnectionError => _ ← sleep 10000; again
  | OtherException => mret None
  end.

(** [iNaturalistDownloader.download_image]. [depth] is the number of
    nested activations the interpreter still allows. *)
Fixpoint download_image (h : host) (depth : nat)
    (image_url output_dir filename : string) : io (option string) :=
  match depth with
  | O => uncaught
  | S depth' =>
      let filepath := path_join output_dir filename in
      let again := download_image h depth' image_url output_dir filename in
      present ← path_exists filepath;
      if present : bool then mret (Some filepath)
      else
        r ← session_get h image_url;
        match r with
        | Body data => _ ← write_file filepath data; mret (Some filepath)
        | Broken written e =>
            _ ← write_file filepath written; on_exception again e
        | Raised e => on_exception again e
        end
  end.

(** The counters of [main]. *)
Record stats : Type := Stats {
  downloaded_count : nat;
  skipped_count : nat;
  failed_count : nat;
  missing_photos_count : nat
}.

Definition no_stats : stats := Stats 0 0 0 0.

(** One of the [for quality in [...]] loops: [downloaded_path] is the
    loop's variable, the loop breaks at the first true value. *)
Fixpoint for_quality (h : host) (depth : nat) (base images_dir filename : string)
    (qualities : list string) (downloaded_path : option string)
    : io (option string) :=
  match qualities with
  | [] => mret downloaded_path
  | quality :: rest =>
      downloaded_path ←
        download_image h depth (fallback_url base quality) images_dir filename;
      if truthy downloaded_path then mret downloaded_path
      else for_quality h depth base images_dir filename rest downloaded_path
  end.

(** The body of [for j, photo in enumerate(observation['photos'])]:
    returns the counters and the photo's [local_path], if it was set.
    [image_url] is a non-empty string for every quality, so the branch
    [if image_url:] is always entered. *)
Definition process_photo (h : host) (depth : nat) (args : arguments)
    (id : Z) (j : nat) (p : photo) (st : stats) : io (stats * option string) :=
  let filename := photo_filename id j in
  downloaded_path ←
    for_quality h depth (base_url p) (images_dir args) filename
      (fallback_qualities (quality args)) None;
  if truthy downloaded_path then
    match downloaded_path with
    | Some path =>
        file_stat ← os_stat path;
        current_time ← time_time;
        if current_time - st_mtime file_stat <? 10000
        then mret (Stats (S (downloaded_count st)) (skipped_count st)
                     (failed_count st) (missing_photos_count st), downloaded_path)
        else mret (Stats (downloaded_count st) (S (skipped_count st))
                     (failed_count st) (missing_photos_count st), downloaded_path)
    | None => uncaught
    end
  else mret (Stats (downloaded_count st) (skipped_count st)
               (S (failed_count st)) (S (missing_photos_count st)), None).

Fixpoint for_photo (h : host) (depth : nat) (args : arguments) (id : Z)
    (j : nat) (ps : list photo) (st : stats) : io (stats * list (option string)) :=
  match ps with
  | [] => mret (st, [])
  | p :: rest =>
      '(st, local_path) ← process_photo h depth args id j p st;
      '(st, local_paths) ← for_photo h depth args id (S j) rest st;
      mret (st, local_path :: local_paths)
  end.

(** The body of [for i, observation in enumerate(observations, 1)]: the
    counters and the [local_path] of each photo. The call of
    [extract_species_metadata] comes first and is not guarded, so that an
    exception it raises ends the run. *)
Definition process_observation (h : host) (depth : nat) (args : arguments)
    (o : observation) (st : stats) : io (stats * list (option string)) :=
  match extract_species_metadata (raw o) with
  | Raise _ => uncaught
  | Ok observation_metadata =>
      if download_images args && negb (bool_decide (photos o = []))
      then for_photo h depth args (observation_id o) 0 (photos o) st
      else mret (st, (fun _ => None) <$> photos o)
  end.

Fixpoint for_observation (h : host) (depth : nat) (args : arguments)
    (os : list observation) (st : stats)
    : io (stats * list (list (option string))) :=
  match os with
  | [] => mret (st, [])
  | o :: rest =>
      '(st, paths) ← process_observation h depth args o st;
      '(st, more) ← for_observation h depth args rest st;
      mret (st, paths :: more)
  end.

(** [metadata_list] when the loop is through: the record of each
    observation, as its call of [extract_species_metadata] returned it. *)
Definition metadata_list (os : list observation) : list json :=
  omap (fun o => match extract_species_metadata (raw o) with
                 | Ok observation_metadata => Some observation_metadata
                 | Raise _ => None
                 end) os.

(** [main] from the fetched observations to the file [args.output];
    [None] inside is the early [return] on an empty list, before anything
    is written. [json_dump] stands for [json.dump] applied to
    [output_data]: it gives the text written, from the time put under
    ['generated_at'], the counters, the records of [metadata_list] and
    the local paths that were set in them. *)
Definition main (h : host) (depth : nat)
    (json_dump : Z -> stats -> list json -> list (list (option string)) -> string)
    (args : arguments) (observations : list observation)
    : io (option (stats * list (list (option string)))) :=
  match observations with
  | [] => mret None
  | _ =>
      '(st, paths) ← for_observation h depth args (limited args observations) no_stats;
      generated_at ← time_time;
      _ ← write_file (output args)
            (json_dump generated_at st
               (metadata_list (limited args observations)) paths);
      mret (Some (st, paths))
  end.

End Public.

(** *** The run summary *)

(** Python numbers that the summary can hold. *)
Inductive py_number : Type :=
| PyInt (n : Z)
| PyFloat (x : float).

(** The binary64 value nearest to [a / b] (ties to even), with sign [s]. *)
Definition nearest_ratio (s : bool) (a b : positive) : float :=
  SF2Prim (SFdiv prec emax (S754_finite s a 0) (S754_finite false b 0)).

(** [a / b] on two non-negative [int]s, correctly rounded; [None] is
    [ZeroDivisionError]. (Where it is used the quotient is at most 1, so
    the [OverflowError] of huge quotients cannot occur.) *)
Definition true_div (a b : nat) : option float :=
  match Z.of_nat b, Z.of_nat a with
  | Zpos b', Zpos a' => Some (nearest_ratio false a' b')
  | Zpos _, _ => Some 0%float
  | _, _ => None
  end.

(** The integer nearest to [n / d], ties to even ([0 < d]). *)
Definition round_half_even (n d : Z) : Z :=
  let q := n / d in
  let r := n mod d in
  if 2 * r <? d then q
  else if d <? 2 * r then q + 1
  else if Z.even q then q else q + 1.

(** [round(x, 1)] on a [float]: the exact value of [x] is rounded to a
    whole number of tenths, ties to even, and the binary64 value nearest
    to that decimal is returned. *)
Definition round1 (x : float) : float :=
  match Prim2SF x with
  | S754_finite s m e =>
      if 0 <=? e then x
      else
        match round_half_even (10 * Zpos m) (2 ^ (- e)) with
        | Zpos t => nearest_ratio s t 10
        | _ => if s then (-0)%float else 0%float
        end
  | _ => x
  end.

(** [round(v, 1)]: an [int] is returned as it is. *)
Definition py_round1 (v : py_number) : py_number :=
  match v with
  | PyInt n => PyInt n
  | PyFloat x => PyFloat (round1 x)
  end.

(** The value stored under ['success_rate_percent']:
    [round(((d + s) / (d + s + f) * 100) if (d + s + f) > 0 else 0, 1)]. *)
Definition success_rate_percent (st : Public.stats) : option py_number :=
  let d := Public.downloaded_count st in
  let s := Public.skipped_count st in
  let f := Public.failed_count st in
  if (0 <? d + s + f)%nat
  then q ← true_div (d + s) (d + s + f); Some (py_round1 (PyFloat (q * 100)%float))
  else Some (py_round1 (PyInt 0)).

(** ** [inaturalist_downloader_auth.py] *)

Module Auth.

(** [iNaturalistAuthenticatedDownloader.download_image] *)
Definition download_image (h : host)
    (image_url output_dir filename : string) : io (option string) :=
  r ← session_get h image_url;
  let filepath := path_join output_dir filename in
  match r with
  | Body data => _ ← write_file filepath data; mret (Some filepath)
  | Broken written _ => _ ← write_file filepath written; mret None
  | Raised _ => mret None
  end.

(** [access_token and photo.get('original_url')] *)
Definition direct (access_token : option string) (p : photo) : bool :=
  truthy access_token && truthy (original_url p).

(** [image_url] when the photo carries the URLs of the authenticated API. *)
Definition direct_image_url (q : image_quality) (p : photo) : option string :=
  match q with
  | Original => py_or (py_or (original_url p) (large_url p)) (url p)
  | Large => py_or (py_or (large_url p) (original_url p)) (url p)
  | Medium =>
      py_or (py_or (py_or (medium_url p) (large_url p)) (original_url p)) (url p)
  | Small =>
      py_or (py_or (py_or (py_or (small_url p) (medium_url p)) (large_url p))
               (original_url p)) (url p)
  | Best => py_or (py_or (original_url p) (large_url p)) (url p)
  end.

(** [image_url] built from the template. *)
Definition template_image_url (q : image_quality) (p : photo) : option string :=
  Some (fallback_url (base_url p)
          match q with
          | Original => "original"
          | Large => "large"
          | Medium => "medium"
          | Small => "small"
          | Best => "original"
          end).

Fixpoint for_quality (h : host) (base images_dir filename : string)
    (qualities : list string) (downloaded_path : option string)
    : io (option string) :=
  match qualities with
  | [] => mret downloaded_path
  | quality :: rest =>
      downloaded_path ←
        download_image h (fallback_url base quality) images_dir filename;
      if truthy downloaded_path then mret downloaded_path
      else for_quality h base images_dir filename rest downloaded_path
  end.

(** The body of [for j, photo in enumerate(observation['photos'])]:
    [downloaded_count] and the photo's [local_path], if it was set. *)
Definition process_photo (h : host) (access_token : option string)
    (args : arguments) (id : Z) (j : nat) (p : photo) (downloaded_count : nat)
    : io (nat * option string) :=
  let image_url :=
    if direct access_token p then direct_image_url (quality args) p
    else template_image_url (quality args) p in
  if truthy image_url then
    let filename := photo_filename id j in
    downloaded_path ←
      (if direct access_token p
       then download_image h (default "" image_url) (images_dir args) filename
       else for_quality h (base_url p) (images_dir args) filename
              (fallback_qualities (quality args)) None);
    if truthy downloaded_path
    then mret (S downloaded_count, downloaded_path)
    else mret (downloaded_count, None)
  else mret (downloaded_count, None).

End Auth.

(** *** The order of preference the image locator is specified with *)

(** Direct-URL mode, preference [small]: the tiers in the order small,
    medium, large, original, then the bare [url], absent ones skipped. *)
Definition small_direct_candidates (p : photo) : list string :=
  omap (fun o => if truthy o then o else None)
    [small_url p; medium_url p; large_url p; original_url p; url p].

(** Template mode, preference [small]: the five tiers of the storage
    bucket, for the id of the photo. *)
Definition small_template_candidates (p : photo) : list string :=
  (fun tier : string =>
     ("https://inaturalist-open-data.s3.amazonaws.com/photos/"
      ++ pretty (photo_id p) ++ "/" ++ tier ++ ".jpg")%string)
    <$> ["small"; "medium"; "large"; "original"; "square"].

(** ** Scenarios *)

(** A host that plays a script of answers, then repeats [otherwise]. *)
Definition scripted (answers : list answer) (otherwise : answer) : host :=
  fun i _ => default otherwise (answers !! i).

(** An empty images directory at time [now], nothing done yet. *)
Definition new_world (now : Z) : world := World ∅ now [].

(** A run over two observations with three photos: the first photo is
    already on disk, the second is fetched at the second candidate, the
    third is found under no candidate. *)
Definition demo_args : arguments :=
  Arguments_ "./images" true Best None "inaturalist_metadata.json".

Definition demo_observations : list observation :=
  [Observation 11 [Photo 501 None None None None None;
                   Photo 502 None None None None None]
     (JDict [("id", JInt 11);
             ("photos", JList [JDict [("id", JInt 501)]; JDict [("id", JInt 502)]])]);
   Observation 12 [Photo 503 None None None None None]
     (JDict [("id", JInt 12); ("photos", JList [JDict [("id", JInt 503)]])])].

(** A serializer for the scenarios: the text does not matter in them. *)
Definition demo_dump (generated_at : Z) (st : Public.stats)
    (metadata_list : list json) (paths : list (list (option string))) : string :=
  "{}".

Definition demo_host : host :=
  scripted [Raised (HTTPError 404); Body "jpeg";
            Raised (HTTPError 404); Raised (HTTPError 404); Raised (HTTPError 404)]
    (Raised (HTTPError 404)).

Definition demo_world : world :=
  World {[ "./images/obs_11_photo_0.jpg" := File "old" 1000 ]} 900000 [].

(** The same directory a few seconds after the file was written. *)
Definition fresh_world : world :=
  World {[ "./images/obs_11_photo_0.jpg" := File "old" 1000 ]} 9000 [].

(** Two rate limits, then the image. *)
Definition twice_limited : host :=
  scripted [Raised (HTTPError 429); Raised (HTTPError 429); Body "jpeg"]
    (Raised (HTTPError 404)).

(** One rate limit, then the image. *)
Definition once_limited : host :=
  scripted [Raised (HTTPError 429); Body "jpeg"] (Raised (HTTPError 404)).

Definition demo_url : string :=
  "https://inaturalist-open-data.s3.amazonaws.com/photos/501/original.jpg".

(** A host that has none of the images. *)
Definition not_found : host := fun _ _ => Raised (HTTPError 404).

(** A photo as the authenticated API describes it, all tiers present. *)
Definition full_photo : photo :=
  Photo 501 (Some "https://static/501/square.jpg")
    (Some "https://static/501/original.jpg") (Some "https://static/501/large.jpg")
    (Some "https://static/501/medium.jpg") (Some "https://static/501/small.jpg").

(** A photo of which only the bare [url] is known. *)
Definition bare_photo : photo :=
  Photo 502 (Some "https://static/502/square.jpg") None None None None.

Definition small_args : arguments :=
  Arguments_ "./images" true Small None "inaturalist_metadata.json".

(** Which exceptions make [download_image] call itself. *)
Definition retried (e : failure) : bool :=
  match e with
  | HTTPError status_code =>
      negb (status_code =? 404) && ((status_code =? 429) || (500 <=? status_code))
  | Timeout | ConnectionError => true
  | OtherException => false
  end.

(** The pause before the self-call. *)
Definition pause (e : failure) : Z :=
  match e with
  | HTTPError status_code => if status_code =? 429 then 60000 else 10000
  | Timeout => 5000
  | ConnectionError => 10000
  | OtherException => 0
  end.

Definition retries (a : answer) : bool :=
  match a with
  | Body _ => false
  | Broken _ e | Raised e => retried e
  end.

(** The world after a request, after a file is written, after a pause. *)
Definition requested (url : string) (w : world) : world :=
  World (disk w) (clock w) (trace w ++ [Request url]).

Definition stored (path data : string) (w : world) : world :=
  World (<[path := File data (clock w)]> (disk w)) (clock w) (trace w).

Definition paused (ms : Z) (w : world) : world :=
  World (disk w) (clock w + ms) (trace w ++ [Sleep ms]).

(** Where photo [j] of observation [id] is saved. *)
Definition destination (args : arguments) (id : Z) (j : nat) : string :=
  path_join (images_dir args) (photo_filename id j).

(** The URLs the fallback loop may ask for one photo. *)
Definition candidates (args : arguments) (p : photo) : list string :=
  fallback_url (base_url p) <$> fallback_qualities (quality args).

(** The number of photos counted so far. *)
Definition counted (st : Public.stats) : nat :=
  (Public.downloaded_count st + Public.skipped_count st + Public.failed_count st)%nat.

(** The counters after one more photo of each kind. *)
Definition one_more_downloaded (st : Public.stats) : Public.stats :=
  Public.Stats (S (Public.downloaded_count st)) (Public.skipped_count st)
    (Public.failed_count st) (Public.missing_photos_count st).

Definition one_more_skipped (st : Public.stats) : Public.stats :=
  Public.Stats (Public.downloaded_count st) (S (Public.skipped_count st))
    (Public.failed_count st) (Public.missing_photos_count st).

Definition one_more_failed (st : Public.stats) : Public.stats :=
  Public.Stats (Public.downloaded_count st) (Public.skipped_count st)
    (S (Public.failed_count st)) (S (Public.missing_photos_count st)).

(** The photos for which the [if image_url:] block of [main] is entered. *)
Definition attempts (args : arguments) (observations : list observation) : nat :=
  if download_images args
  then sum_list ((fun o => length (photos o)) <$> observations)
  else 0%nat.

(** What was done between two moments of a run. *)
Definition since (w w' : world) : list event :=
  drop (length (trace w)) (trace w').

(** [w'] is a later moment of a run that was at [w]: files were only
    added, time did not go back, the trace was extended. *)
Definition grows (w w' : world) : Prop :=
  disk w ⊆ disk w' /\ clock w <= clock w' /\ trace w' = trace w ++ since w w'.

(** From its [bound]-th request on, the host gives no answer that is retried. *)
Definition calms (h : host) (bound : nat) : Prop :=
  forall i u, (bound <= i)%nat -> retries (h i u) = false.

(** The normalizer returns on the dict of this observation. *)
Definition normalizes (o : observation) : Prop :=
  exists observation_metadata,
    extract_species_metadata (raw o) = Ok observation_metadata.

(** *** Vocabulary for the summary properties *)

(** The binary64 value nearest to [t / 10], for a count [t] of tenths. *)
Definition of_tenths (t : Z) : float :=
  match t with
  | Zpos p => nearest_ratio false p 10
  | _ => 0%float
  end.

(** [t] tenths is a one-decimal value nearest to [a / b * 100]: it lies
    within a twentieth of the exact ratio. *)
Definition nearest_tenths (a b : nat) (t : Z) : Prop :=
  2 * Z.abs (t * Z.of_nat b - 1000 * Z.of_nat a) <= Z.of_nat b.

(** What a shift record of the binary64 rounding stands for: a value
    [N / D] that lies in [[m, m + 1)], with the round bit telling whether
    it has reached [m + 1/2] and the sticky bit whether it lies strictly
    between the marks [m], [m + 1/2] and [m + 1]. *)
Definition located (mrs : shr_record) (N D : Z) : Prop :=
  0 < D /\ 0 <= shr_m mrs /\
  shr_m mrs * D <= N < (shr_m mrs + 1) * D /\
  shr_r mrs = (D <=? 2 * (N - shr_m mrs * D)) /\
  shr_s mrs = negb (N - shr_m mrs * D =? 0) && negb (2 * (N - shr_m mrs * D) =? D).

(** The exact ratio [a / b * 100] lies midway between two one-decimal
    values. *)
Definition midway (a b : nat) : Prop :=
  exists k, 2000 * Z.of_nat a = (2 * k + 1) * Z.of_nat b.

(** The integer nearest to [n / d], ties upwards ([0 < d]). *)
Definition round_half_up (n d : Z) : Z := (2 * n + d) / (2 * d).

(** The rate as the specification words it: the ratio
    [(downloaded + skipped) / (downloaded + skipped + failed) × 100] in
    exact arithmetic, rounded to one decimal, and [0] without attempts.
    [rounding] settles the one-decimal value of a ratio that lies midway. *)
Definition specified_rate (rounding : Z -> Z -> Z) (st : Public.stats) : py_number :=
  if (0 <? counted st)%nat
  then PyFloat (of_tenths
                  (rounding (1000 * Z.of_nat (Public.downloaded_count st
                                              + Public.skipped_count st))
                     (Z.of_nat (counted st))))
  else PyInt 0.

(** The binary64 value of a rate, sign, mantissa and exponent. *)
Definition as_spec_float (rate : option py_number) : option spec_float :=
  match rate with
  | Some (PyFloat x) => Some (Prim2SF x)
  | _ => None
  end.

(** A record with a null user, as a response may carry it. *)
Definition null_user_observation : json :=
  JDict [("id", JInt 1); ("user", JNull)].

Definition plain_observation : json :=
  JDict [("id", JInt 1);
         ("user", JDict [("login", JString "ana")]);
         ("taxon", JNull);
         ("photos", JList [JDict [("id", JInt 501)]])].

(** *** Vocabulary for the pagination properties *)

Section page_kinds.
Context {Obs : Type}.
Variable per_page : Z.

(** A page after which the loop goes on. *)
Definition full_page (r : page_response Obs) : Prop :=
  exists rs, r = Results rs /\ rs <> [] /\ per_page <= Z.of_nat (length rs).

(** A page that ends the collection: empty, or shorter than [per_page]. *)
Definition end_page (r : page_response Obs) : Prop :=
  r = NoResults \/
  exists rs, r = Results rs /\ (rs = [] \/ Z.of_nat (length rs) < per_page).

(** Any response at which the loop stops. *)
Definition stop_page (r : page_response Obs) : Prop :=
  end_page r \/ r = RequestException.
End page_kinds.

(** The events of [k] full pages starting at [page], then one more request. *)
Definition page_events (page k : nat) : list page_event :=
  flat_map (fun p => [PageRequest p; PageSleep 500]) (seq page k)
    ++ [PageRequest (page + k)].

(** The results of the pages [page, page + 1, ..., page + n - 1], appended. *)
Definition pages_results {Obs} (endpoint : nat -> page_response Obs)
    (page n : nat) : list Obs :=
  concat (map (fun p => page_results (endpoint p)) (seq page n)).

(** An endpoint that serves two full pages of two records and then fails. *)
Definition flaky_endpoint (page : nat) : page_response nat :=
  match page with
  | 1%nat => Results [10; 11]%nat
  | 2%nat => Results [20; 21]%nat
  | _ => RequestException
  end.

(** A mock endpoint serving three pages of 200, 200 and 150 records. *)
Definition mock_endpoint (page : nat) : page_response nat :=
  match page with
  | 1%nat => Results (seq 0 200)
  | 2%nat => Results (seq 200 200)
  | 3%nat => Results (seq 400 150)
  | _ => Results []
  end.

(** ** Further vocabulary: pacing, filters, records, files, tallies *)

(** ** Further vocabulary and scenarios *)

(** The pauses of the paginator, in order. *)
Definition page_sleeps (log : list page_event) : list Z :=
  omap (fun ev => match ev with PageSleep ms => Some ms | PageRequest _ => None end) log.

(** An endpoint on which every page is full at page size 2. *)
Definition endless_endpoint (page : nat) : page_response nat :=
  Results [page; page].

(** The stream breaks after two bytes, with an error that is not retried
    (for instance a [ChunkedEncodingError]). *)
Definition cut_off : host :=
  scripted [Broken "jp" OtherException] (Raised (HTTPError 404)).

(** The stream breaks after two bytes with a connection error. *)
Definition cut_off_retried : host :=
  scripted [Broken "jp" ConnectionError] (Raised (HTTPError 404)).

(** A 503, a timeout and a 429, then the image. *)
Definition rough_start : host :=
  scripted [Raised (HTTPError 503); Raised Timeout; Raised (HTTPError 429);
            Body "jpeg"] (Raised (HTTPError 404)).

(** How many photos of a run were left without a [local_path]. *)
Definition unresolved (paths : list (list (option string))) : nat :=
  length (filter (fun lp => lp = None) (concat paths)).

(** ** The request parameters of [get_observations] and the filters of [main] *)

(** The six filter switches of the command line. *)
Record switches : Type := Switches {
  captive_only : bool;
  wild_only : bool;
  introduced_only : bool;
  native_only : bool;
  threatened_only : bool;
  endemic_only : bool
}.

(** The five optional boolean arguments of [get_observations]. *)
Record filters : Type := Filters {
  captive : option bool;
  introduced : option bool;
  native : option bool;
  threatened : option bool;
  endemic : option bool
}.

(** "Handle captive/wild filters", "Handle introduced/native filters",
    "Handle threatened/endemic filters" in [main]. *)
Definition prepare_filters (s : switches) : filters :=
  Filters
    (if captive_only s then Some true else if wild_only s then Some false else None)
    (if introduced_only s then Some true else None)
    (if introduced_only s then None else if native_only s then Some true else None)
    (if threatened_only s then Some true else None)
    (if threatened_only s then None else if endemic_only s then Some true else None).

(** [iconic_taxon_map] *)
Definition iconic_taxon_map : list (string * Z) :=
  [("Animalia", 1); ("Plantae", 47126); ("Insecta", 47158); ("Aves", 3);
   ("Mammalia", 40151); ("Reptilia", 26036); ("Amphibia", 20978);
   ("Mollusca", 47115); ("Arachnida", 47119); ("Fungi", 47170)].

Fixpoint dict_get {V} (key : string) (items : list (string * V)) : option V :=
  match items with
  | [] => None
  | (k, v) :: rest => if bool_decide (k = key) then Some v else dict_get key rest
  end.

(** [iconic_taxon_id] as [main] prepares it from [args.iconic_taxon]. *)
Definition prepare_iconic_taxon (iconic_taxon : option string) : option Z :=
  if truthy iconic_taxon
  then dict_get (default "" iconic_taxon) iconic_taxon_map
  else None.

(** The values of the request parameters. *)
Inductive param : Type :=
| PBool (b : bool)
| PInt (n : Z)
| PNumber (x : float)
| PString (s : string).

(** [params[key] = value] for a key that is not in [params] yet when
    [present] holds, nothing otherwise. *)
Definition add_if (present : bool) (key : string) (value : param)
    (params : list (string * param)) : list (string * param) :=
  if present then params ++ [(key, value)] else params.

Definition is_not_none {A} (o : option A) : bool :=
  match o with Some _ => true | None => false end.

(** The dict [params] that one iteration of [get_observations] sends. *)
Definition request_params (lat lon radius_km : float) (per_page page : Z)
    (quality_grade : option string) (iconic_taxon_id : option Z)
    (observed_since observed_before : option string) (f : filters)
    : list (string * param) :=
  let params :=
    [("lat", PNumber lat); ("lng", PNumber lon); ("radius", PNumber radius_km);
     ("per_page", PInt per_page); ("page", PInt page);
     ("has_photos", PBool true); ("identified", PBool true);
     ("order", PString "created"); ("order_by", PString "desc")] in
  let params := add_if (truthy quality_grade) "quality_grade"
                  (PString (default "" quality_grade)) params in
  let params := add_if (match iconic_taxon_id with
                        | Some n => negb (n =? 0)
                        | None => false
                        end) "iconic_taxon_id"
                  (PInt (default 0 iconic_taxon_id)) params in
  let params := add_if (truthy observed_since) "observed_since"
                  (PString (default "" observed_since)) params in
  let params := add_if (truthy observed_before) "observed_before"
                  (PString (default "" observed_before)) params in
  let params := add_if (is_not_none (captive f)) "captive"
                  (PBool (default false (captive f))) params in
  let params := add_if (is_not_none (introduced f)) "introduced"
                  (PBool (default false (introduced f))) params in
  let params := add_if (is_not_none (threatened f)) "threatened"
                  (PBool (default false (threatened f))) params in
  let params := add_if (is_not_none (endemic f)) "endemic"
                  (PBool (default false (endemic f))) params in
  add_if (is_not_none (native f)) "native"
    (PBool (default false (native f))) params.

(** The names [--iconic-taxon] accepts. *)
Definition iconic_taxon_choices : list string :=
  ["Animalia"; "Plantae"; "Insecta"; "Aves"; "Mammalia"; "Reptilia"; "Amphibia";
   "Mollusca"; "Arachnida"; "Fungi"].

Definition wild_switches : switches := Switches false true false true false true.

(** ** The shape of the normalized record *)

(** The keys of the dict that [extract_species_metadata] builds, in order. *)
Definition metadata_keys : list string :=
  ["observation_id"; "observed_on"; "time_observed_at"; "created_at";
   "updated_at"; "latitude"; "longitude"; "positional_accuracy";
   "public_positional_accuracy"; "quality_grade";
   "num_identification_agreements"; "num_identification_disagreements";
   "captive_cultivated"; "description"; "place_guess"; "geoprivacy";
   "obscured"; "mappable"; "license_code"; "uri"; "user"; "photos"; "species";
   "identifications"; "comments_count"; "faves_count"; "tags"].

(** ** Characters of file names *)

(** [c] does not occur in [s]. *)
Fixpoint free_of (c : ascii) (s : string) : bool :=
  match s with
  | EmptyString => true
  | String c' rest => negb (bool_decide (c' = c)) && free_of c rest
  end.

(** ** The [.env] file: written by [inaturalist_auth.py], read by
    [load_env_vars]

    Text is held one character per code point below 256. *)

(** [c.isspace()] *)
Definition is_space (c : ascii) : bool :=
  let n := nat_of_ascii c in
  ((9 <=? n) && (n <=? 13) || (28 <=? n) && (n <=? 32)
   || (n =? 133) || (n =? 160))%nat.

(** What reading in text mode makes of the line ends: ["\r\n"] and a
    lone ["\r"] become ["\n"]. *)
Fixpoint universal_newlines (s : string) : string :=
  match s with
  | EmptyString => EmptyString
  | String c rest =>
      if bool_decide (c = "013"%char) then
        match rest with
        | String c' rest' =>
            if bool_decide (c' = "010"%char)
            then String "010" (universal_newlines rest')
            else String "010" (universal_newlines rest)
        | EmptyString => String "010" EmptyString
        end
      else String c (universal_newlines rest)
  end.

(** [for line in f]: the lines, each with its ["\n"] if it has one. *)
Fixpoint lines (s : string) : list string :=
  match s with
  | EmptyString => []
  | String c rest =>
      if bool_decide (c = "010"%char) then String c EmptyString :: lines rest
      else
        match lines rest with
        | [] => [String c EmptyString]
        | line :: more => String c line :: more
        end
  end.

Fixpoint lstrip (s : string) : string :=
  match s with
  | EmptyString => EmptyString
  | String c rest => if is_space c then lstrip rest else s
  end.

Fixpoint rstrip (s : string) : string :=
  match s with
  | EmptyString => EmptyString
  | String c rest =>
      match rstrip rest with
      | EmptyString => if is_space c then EmptyString else String c EmptyString
      | kept => String c kept
      end
  end.

(** [line.strip()] *)
Definition strip (s : string) : string := lstrip (rstrip s).

(** [line.split('=', 1)] on a line that holds an ['=']: what is before
    the first one, and what is after it. *)
Fixpoint split_once (s : string) : string * string :=
  match s with
  | EmptyString => (EmptyString, EmptyString)
  | String c rest =>
      if bool_decide (c = "="%char) then (EmptyString, rest)
      else let '(key, value) := split_once rest in (String c key, value)
  end.

(** The body of the loop of [load_env_vars]. *)
Definition load_line (env_vars : gmap string string) (line : string)
    : gmap string string :=
  let line := strip line in
  if negb (bool_decide (line = "")) && negb (String.prefix "#" line)
     && negb (free_of "=" line)
  then let '(key, value) := split_once line in <[key := value]> env_vars
  else env_vars.

(** [load_env_vars]; the argument is the content of [.env], if it exists. *)
Definition load_env_vars (dot_env : option string) : gmap string string :=
  match dot_env with
  | Some text => foldl load_line ∅ (lines (universal_newlines text))
  | None => ∅
  end.

(** [env_content] as [main] of [inaturalist_auth.py] writes it with
    [--save-token]. *)
Definition env_content
    (client_id client_secret access_token refresh_token expires_in : string)
    : string :=
  "# iNaturalist API Authentication" ++ String "010" (
  "INATURALIST_CLIENT_ID=" ++ client_id ++ String "010" (
  "INATURALIST_CLIENT_SECRET=" ++ client_secret ++ String "010" (
  "INATURALIST_ACCESS_TOKEN=" ++ access_token ++ String "010" (
  "INATURALIST_REFRESH_TOKEN=" ++ refresh_token ++ String "010" (
  "INATURALIST_TOKEN_EXPIRES_IN=" ++ expires_in ++ String "010" ""))))).

(** No line end in a value. *)
Definition one_line (s : string) : bool :=
  free_of "010" s && free_of "013" s.

(** A name that can stand before the ['=']: not empty, no ['='], no
    line end, no space or ['#'] at its start. *)
Definition key_like (key : string) : bool :=
  match key with
  | EmptyString => false
  | String c _ =>
      negb (is_space c) && negb (bool_decide (c = "#"%char))
      && free_of "=" key && one_line key
  end.

(** ** The table of species at the end of [main]

    An observation enters with [species_data.get('name')], or with
    nothing when it has no species or its species has no name. *)

(** [species_count[name] = species_count.get(name, 0) + 1] on a dict kept
    in insertion order. *)
Fixpoint count_one (name : string) (species_count : list (string * nat))
    : list (string * nat) :=
  match species_count with
  | [] => [(name, 1%nat)]
  | (k, n) :: rest =>
      if bool_decide (k = name) then (k, S n) :: rest
      else (k, n) :: count_one name rest
  end.

(** The loop over [metadata_list]; a name that is false, the empty
    string too, is not counted. *)
Definition count_species (names : list (option string)) : list (string * nat) :=
  foldl (fun species_count name =>
           if truthy name
           then count_one (default "" name) species_count
           else species_count) [] names.

(** [sorted(items, key=lambda x: x[1], reverse=True)]: by falling count,
    items with equal counts in the order they had. *)
Fixpoint insert_by_count (x : string * nat) (sorted : list (string * nat))
    : list (string * nat) :=
  match sorted with
  | [] => [x]
  | y :: rest =>
      if (snd y <? snd x)%nat then x :: y :: rest
      else y :: insert_by_count x rest
  end.

Definition sorted_by_count (items : list (string * nat)) : list (string * nat) :=
  foldl (fun sorted x => insert_by_count x sorted) [] items.

(** The rows of "Top species found". *)
Definition top_species (names : list (option string)) : list (string * nat) :=
  take 10 (sorted_by_count (count_species names)).

(** How often a species was observed. *)
Definition observed (name : string) (names : list (option string)) : nat :=
  length (filter (fun o => o = Some name) names).

(** Falling counts: every later row has a count that is not greater. *)
Fixpoint falling (l : list (string * nat)) : Prop :=
  match l with
  | [] => True
  | x :: rest => Forall (fun y => (snd y <= snd x)%nat) rest /\ falling rest
  end.

Definition demo_names : list (option string) :=
  [Some "Apis mellifera"; None; Some "Danaus plexippus"; Some "Apis mellifera";
   Some ""; Some "Bufo bufo"; Some "Danaus plexippus"; Some "Apis mellifera"].

(** ** The loops of [main] in [inaturalist_downloader_auth.py] *)

Module AuthMain.

(** The photos of one observation, in order. *)
Fixpoint for_photo (h : host) (access_token : option string) (args : arguments)
    (id : Z) (j : nat) (ps : list photo) (downloaded_count : nat)
    : io (nat * list (option string)) :=
  match ps with
  | [] => mret (downloaded_count, [])
  | p :: rest =>
      '(downloaded_count, local_path) ←
        Auth.process_photo h access_token args id j p downloaded_count;
      '(downloaded_count, local_paths) ←
        for_photo h access_token args id (S j) rest downloaded_count;
      mret (downloaded_count, local_path :: local_paths)
  end.

(** The body of [for i, observation in enumerate(observations, 1)].
    [details] is what [get_observation_details] returns for an id; it is
    asked only with a token, and its answer replaces the observation
    when there is one. The request behind [details] goes to the API, not
    to the image host, and is not part of the trace: the trace of this
    loop holds the image requests. *)
Definition process_observation (h : host) (access_token : option string)
    (args : arguments) (details : Z -> option observation)
    (o : observation) (downloaded_count : nat)
    : io (nat * list (option string)) :=
  let o :=
    if truthy access_token
    then match details (observation_id o) with
         | Some detailed_obs => detailed_obs
         | None => o
         end
    else o in
  if download_images args && negb (bool_decide (photos o = []))
  then for_photo h access_token args (observation_id o) 0 (photos o) downloaded_count
  else mret (downloaded_count, (fun _ => None) <$> photos o).

Fixpoint for_observation (h : host) (access_token : option string)
    (args : arguments) (details : Z -> option observation)
    (os : list observation) (downloaded_count : nat)
    : io (nat * list (list (option string))) :=
  match os with
  | [] => mret (downloaded_count, [])
  | o :: rest =>
      '(downloaded_count, paths) ←
        process_observation h access_token args details o downloaded_count;
      '(downloaded_count, more) ←
        for_observation h access_token args details rest downloaded_count;
      mret (downloaded_count, paths :: more)
  end.

(** [main] from the fetched observations to [downloaded_count]; [None]
    inside is the early [return] on an empty list. *)
Definition main (h : host) (access_token : option string) (args : arguments)
    (details : Z -> option observation) (observations : list observation)
    : io (option (nat * list (list (option string)))) :=
  match observations with
  | [] => mret None
  | _ =>
      r ← for_observation h access_token args details
            (limited args observations) 0%nat;
      mret (Some r)
  end.

End AuthMain.

(** The same moment of a run with another content of the disk. *)
Definition with_disk (d : gmap string file) (w : world) : world :=
  World d (clock w) (trace w).

(** A computation that never reads the disk: started with other files it
    gives the same result, the same requests and the same pauses. *)
Definition disk_blind {A} (m : io A) : Prop :=
  forall w r w', m w = Some (r, w') ->
    forall d, exists d', m (with_disk d w) = Some (r, with_disk d' w').

(** The photos of a run that have a [local_path]. *)
Definition resolved (paths : list (list (option string))) : nat :=
  length (filter (fun lp => lp <> None) (concat paths)).

(** No [get_observation_details] answer. *)
Definition no_details : Z -> option observation := fun _ => None.

(** The observation the authenticated loop works on: the detailed one
    when a token is there and [get_observation_details] returned it. *)
Definition detailed (access_token : option string)
    (details : Z -> option observation) (o : observation) : observation :=
  if truthy access_token
  then match details (observation_id o) with
       | Some detailed_obs => detailed_obs
       | None => o
       end
  else o.

(** The photos of a list of observations. *)
Definition photo_total (observations : list observation) : nat :=
  sum_list ((fun o => length (photos o)) <$> observations).

(* ===================================================================== *)
(** * Part II. Properties                                                 *)
(* ===================================================================== *)

(** ** Pagination *)

Section pagination_facts.
Context {Obs : Type}.
Variable endpoint : nat -> page_response Obs.
Variable per_page : Z.

Lemma requested_pages_app (l1 l2 : list page_event) :
  requested_pages (l1 ++ l2) = requested_pages l1 ++ requested_pages l2.
Proof. unfold requested_pages. apply omap_app. Qed.

Lemma requested_pages_events (page k : nat) :
  requested_pages (page_events page k) = seq page (S k).
Proof.
  unfold page_events. revert page.
  induction k as [|k IH]; intros page.
  - simpl. by rewrite Nat.add_0_r.
  - rewrite requested_pages_app in *. simpl seq at 1. simpl flat_map.
    change (requested_pages (PageRequest page :: PageSleep 500 :: ?l))
      with (page :: requested_pages l).
    specialize (IH (S page)). rewrite requested_pages_app in IH.
    replace (page + S k)%nat with (S page + k)%nat by lia.
    simpl. f_equal. exact IH.
Qed.

(** The loop, run from [page] with [k] full pages ahead and then a page
    at which it stops, requests exactly those [k + 1] pages and returns
    their results appended to what it had. *)
Lemma get_observations_loop_run (k : nat) :
  forall budget page observations log,
    (forall i, (page <= i < page + k)%nat -> full_page per_page (endpoint i)) ->
    stop_page per_page (endpoint (page + k)) ->
    (k < budget)%nat ->
    get_observations_loop endpoint per_page budget page observations log
    = Some (observations ++ pages_results endpoint page (S k),
            log ++ page_events page k).
Proof.
  unfold pages_results.
  induction k as [|k IH]; intros budget page observations log Hfull Hstop Hb.
  - destruct budget as [|budget]; [lia|].
    rewrite Nat.add_0_r in Hstop. simpl.
    unfold page_events. simpl. rewrite Nat.add_0_r, app_nil_r.
    destruct Hstop as [[->|(rs & -> & [-> | Hlt])] | ->]; simpl;
      rewrite ?app_nil_r; try reflexivity.
    destruct rs as [|r rs]; [by rewrite app_nil_r|].
    apply Z.ltb_lt in Hlt. by rewrite Hlt.
  - destruct budget as [|budget]; [lia|].
    destruct (Hfull page ltac:(lia)) as (rs & Hrs & Hne & Hlen).
    cbn [get_observations_loop]. rewrite Hrs.
    destruct rs as [|r rs]; [done|].
    apply Z.ltb_ge in Hlen. rewrite Hlen.
    rewrite (IH budget (S page)).
    + f_equal. f_equal.
      * change (seq page (S (S k))) with (page :: seq (S page) (S k)).
        simpl map. simpl concat. rewrite Hrs. simpl page_results.
        by rewrite <- app_assoc.
      * unfold page_events. simpl seq. simpl flat_map.
        replace (page + S k)%nat with (S page + k)%nat by lia.
        rewrite <- !app_assoc. reflexivity.
    + intros i Hi. apply Hfull. lia.
    + replace (S page + k)%nat with (page + S k)%nat by lia. exact Hstop.
    + lia.
Qed.

(** Conversely, whenever the loop returns, it has requested a run of
    full pages and then one page at which it stops. *)
Lemma get_observations_loop_inv (budget : nat) :
  forall page observations log observations' log',
    get_observations_loop endpoint per_page budget page observations log
      = Some (observations', log') ->
    exists k, (k < budget)%nat /\
      (forall i, (page <= i < page + k)%nat -> full_page per_page (endpoint i)) /\
      stop_page per_page (endpoint (page + k)) /\
      observations' = observations ++ pages_results endpoint page (S k) /\
      log' = log ++ page_events page k.
Proof.
  induction budget as [|budget IH]; intros page observations log obs' log' Hrun;
    [discriminate|].
  cbn [get_observations_loop] in Hrun.
  assert (Hstop0 : stop_page per_page (endpoint page) ->
                   obs' = observations ++ page_results (endpoint page) ->
                   log' = log ++ [PageRequest page] ->
                   exists k, (k < S budget)%nat /\
      (forall i, (page <= i < page + k)%nat -> full_page per_page (endpoint i)) /\
      stop_page per_page (endpoint (page + k)) /\
      obs' = observations ++ pages_results endpoint page (S k) /\
      log' = log ++ page_events page k).
  { intros Hs -> ->. exists O. rewrite Nat.add_0_r.
    split; [lia|]. split; [intros i Hi; lia|]. split; [exact Hs|].
    unfold pages_results, page_events. simpl.
    by rewrite Nat.add_0_r, app_nil_r. }
  destruct (endpoint page) as [rs| |] eqn:Hpage.
  - destruct rs as [|r rs].
    + inversion Hrun; subst. apply Hstop0; auto.
      * left. right. exists []. auto.
      * simpl. by rewrite app_nil_r.
    + destruct (Z.of_nat (length (r :: rs)) <? per_page) eqn:Hlt.
      * inversion Hrun; subst. apply Z.ltb_lt in Hlt. apply Hstop0; auto.
        left. right. exists (r :: rs). auto.
      * apply IH in Hrun as (k & Hk & Hfull & Hstop & -> & ->).
        apply Z.ltb_ge in Hlt.
        exists (S k). split; [lia|]. split; [|split; [|split]].
        -- intros i Hi. destruct (decide (i = page)) as [->|Hne].
           ++ rewrite Hpage. exists (r :: rs). auto.
           ++ apply Hfull. lia.
        -- replace (page + S k)%nat with (S page + k)%nat by lia. exact Hstop.
        -- unfold pages_results.
           change (seq page (S (S k))) with (page :: seq (S page) (S k)).
           simpl map. simpl concat. rewrite Hpage. simpl page_results.
           by rewrite <- app_assoc.
        -- unfold page_events. simpl seq. simpl flat_map.
           replace (page + S k)%nat with (S page + k)%nat by lia.
           rewrite <- !app_assoc. reflexivity.
  - inversion Hrun; subst. apply Hstop0; auto.
    + left. by left.
    + simpl. by rewrite app_nil_r.
  - inversion Hrun; subst. apply Hstop0; auto.
    + by right.
    + simpl. by rewrite app_nil_r.
Qed.
End pagination_facts.


Lemma pages_results_snoc {Obs} (endpoint : nat -> page_response Obs) (page n : nat) :
  pages_results endpoint page (S n)
  = pages_results endpoint page n ++ page_results (endpoint (page + n)%nat).
Proof.
  unfold pages_results. rewrite seq_S, map_app, concat_app. simpl.
  by rewrite app_nil_r.
Qed.

Lemma pages_results_length_const {Obs} (endpoint : nat -> page_response Obs)
    (page n c : nat) :
  (forall i, (page <= i < page + n)%nat -> length (page_results (endpoint i)) = c) ->
  length (pages_results endpoint page n) = (n * c)%nat.
Proof.
  revert page. induction n as [|n IH]; intros page Hc; [reflexivity|].
  unfold pages_results in *. simpl. rewrite length_app, (IH (S page)).
  - rewrite (Hc page); lia.
  - intros i Hi. apply Hc. lia.
Qed.

(** C2. Pagination starts at page 1 and requests consecutive pages,
    appending each page's results; it stops exactly at the first page that
    is empty or shorter than the page size (first part: such a page ends
    the walk there; second part: every walk that returns ended at the first
    page where the loop stops, each page requested once); an endpoint
    serving pages of 200, 200 and 150 records at page size 200 is asked for
    exactly the pages 1, 2, 3 and yields 550 records. *)
Theorem pagination_stops_at_first_short_page :
  (forall Obs (endpoint : nat -> page_response Obs) (per_page : Z) (n budget : nat),
      (forall i, (1 <= i < 1 + n)%nat -> full_page per_page (endpoint i)) ->
      end_page per_page (endpoint (1 + n)%nat) ->
      (n < budget)%nat ->
      exists log,
        get_observations endpoint per_page budget
          = Some (pages_results endpoint 1 (S n), log) /\
        requested_pages log = seq 1 (S n)) /\
  (forall Obs (endpoint : nat -> page_response Obs) (per_page : Z) (budget : nat)
          observations log,
      get_observations endpoint per_page budget = Some (observations, log) ->
      exists n,
        requested_pages log = seq 1 (S n) /\
        NoDup (requested_pages log) /\
        (forall i, (1 <= i < 1 + n)%nat -> full_page per_page (endpoint i)) /\
        stop_page per_page (endpoint (1 + n)%nat) /\
        observations = pages_results endpoint 1 (S n)) /\
  (forall Obs (endpoint : nat -> page_response Obs) (r1 r2 r3 : list Obs) (budget : nat),
      endpoint 1%nat = Results r1 -> length r1 = 200%nat ->
      endpoint 2%nat = Results r2 -> length r2 = 200%nat ->
      endpoint 3%nat = Results r3 -> length r3 = 150%nat ->
      (3 <= budget)%nat ->
      exists log,
        get_observations endpoint default_per_page budget = Some (r1 ++ r2 ++ r3, log) /\
        requested_pages log = [1; 2; 3]%nat /\
        length (r1 ++ r2 ++ r3) = 550%nat).
Proof.
  split; [|split].
  - intros Obs endpoint per_page n budget Hfull Hend Hb.
    exists (page_events 1 n). split.
    + unfold get_observations.
      rewrite (get_observations_loop_run endpoint per_page n); auto.
      by left.
    + apply requested_pages_events.
  - intros Obs endpoint per_page budget observations log Hrun.
    apply get_observations_loop_inv in Hrun as (k & _ & Hfull & Hstop & -> & ->).
    exists k. simpl app. rewrite requested_pages_events.
    repeat split; auto. apply NoDup_ListNoDup, seq_NoDup.
  - intros Obs endpoint r1 r2 r3 budget H1 L1 H2 L2 H3 L3 Hb.
    exists (page_events 1 2). split; [|split].
    + unfold get_observations.
      rewrite (get_observations_loop_run endpoint default_per_page 2).
      * unfold pages_results. simpl. rewrite H1, H2, H3. simpl.
        by rewrite app_nil_r.
      * intros i Hi. assert (i = 1 \/ i = 2)%nat as [-> | ->] by lia.
        -- exists r1. rewrite L1. split; [done|]. split; [|done].
           intros ->. discriminate.
        -- exists r2. rewrite L2. split; [done|]. split; [|done].
           intros ->. discriminate.
      * left. right. exists r3. split; [done|]. right. rewrite L3. done.
      * lia.
    + reflexivity.
    + rewrite !length_app. lia.
Qed.

Lemma pagination_stops_at_first_short_page_witness :
  (exists log,
      get_observations mock_endpoint 200 3 = Some (seq 0 550, log) /\
      requested_pages log = [1; 2; 3]%nat) /\
  (exists log,
      get_observations mock_endpoint default_per_page 5
        = Some (seq 0 200 ++ seq 200 200 ++ seq 400 150, log) /\
      requested_pages log = [1; 2; 3]%nat /\
      length (seq 0 200 ++ seq 200 200 ++ seq 400 150) = 550%nat).
Proof.
  split.
  - destruct (proj1 pagination_stops_at_first_short_page nat mock_endpoint 200 2%nat 3%nat)
      as (log & Hrun & Hlog).
    + intros i Hi. assert (i = 1 \/ i = 2)%nat as [-> | ->] by lia.
      * exists (seq 0 200). split; [reflexivity|]. split; [discriminate|].
        vm_compute. discriminate.
      * exists (seq 200 200). split; [reflexivity|]. split; [discriminate|].
        vm_compute. discriminate.
    + right. exists (seq 400 150). split; [reflexivity|]. right. reflexivity.
    + lia.
    + exists log. split; [exact Hrun | exact Hlog].
  - apply (proj2 (proj2 pagination_stops_at_first_short_page) nat mock_endpoint);
      try reflexivity. lia.
Defined.

(** C7. A network-level error on a page request is not retried: the walk
    ends at once, returning exactly the observations of the pages fetched
    before the failure; the failed page is requested once and nothing is
    requested after it. *)
Theorem page_error_keeps_partial_results :
  forall Obs (endpoint : nat -> page_response Obs) (per_page : Z) (n budget : nat),
    (forall i, (1 <= i < 1 + n)%nat -> full_page per_page (endpoint i)) ->
    endpoint (1 + n)%nat = RequestException ->
    (n < budget)%nat ->
    exists log,
      get_observations endpoint per_page budget
        = Some (pages_results endpoint 1 n, log) /\
      log = page_events 1 n /\
      requested_pages log = seq 1 n ++ [(1 + n)%nat].
Proof.
  intros Obs endpoint per_page n budget Hfull Herr Hb.
  exists (page_events 1 n). split; [|split; [reflexivity|]].
  - unfold get_observations.
    rewrite (get_observations_loop_run endpoint per_page n); auto.
    + rewrite pages_results_snoc, Herr. simpl. by rewrite app_nil_r.
    + by right.
  - rewrite requested_pages_events. by rewrite seq_S.
Qed.

Lemma page_error_keeps_partial_results_witness :
  exists log,
    get_observations flaky_endpoint 2 3 = Some ([10; 11; 20; 21]%nat, log) /\
    log = [PageRequest 1; PageSleep 500; PageRequest 2; PageSleep 500; PageRequest 3] /\
    requested_pages log = [1; 2; 3]%nat.
Proof.
  apply (page_error_keeps_partial_results nat flaky_endpoint 2 2%nat 3%nat).
  - intros i Hi. assert (i = 1 \/ i = 2)%nat as [-> | ->] by lia.
    + exists [10; 11]%nat. split; [reflexivity|]. split; [discriminate|]. simpl. lia.
    + exists [20; 21]%nat. split; [reflexivity|]. split; [discriminate|]. simpl. lia.
  - reflexivity.
  - lia.
Defined.

(** ** The public image fetcher *)

Section download_image_facts.
Variable h : host.
Variables image_url output_dir filename : string.

Local Abbreviation filepath := (path_join output_dir filename).

(** The destination exists: nothing is fetched. *)
Lemma download_image_present depth w f :
  disk w !! filepath = Some f ->
  Public.download_image h (S depth) image_url output_dir filename w
  = Some (Some filepath, w).
Proof.
  intros Hf. cbn [Public.download_image]. unfold mbind, io_bind, path_exists.
  rewrite Hf. rewrite bool_decide_eq_true_2 by eauto.
  reflexivity.
Qed.

(** The destination is missing: one request, then by the answer. *)
Lemma download_image_absent depth w :
  disk w !! filepath = None ->
  Public.download_image h (S depth) image_url output_dir filename w
  = match h (length (requested_urls (trace w))) image_url with
    | Body data => Some (Some filepath, stored filepath data (requested image_url w))
    | Broken written e =>
        Public.on_exception
          (Public.download_image h depth image_url output_dir filename) e
          (stored filepath written (requested image_url w))
    | Raised e =>
        Public.on_exception
          (Public.download_image h depth image_url output_dir filename) e
          (requested image_url w)
    end.
Proof.
  intros Hf. cbn [Public.download_image]. unfold mbind, io_bind, path_exists.
  rewrite Hf. rewrite bool_decide_eq_false_2 by (intros [? ?]; done).
  unfold session_get. fold (requested image_url w).
  destruct (h _ image_url); reflexivity.
Qed.

Lemma on_exception_retried again e w :
  retried e = true ->
  Public.on_exception again e w = again (paused (pause e) w).
Proof.
  destruct e as [code| | |]; simpl; try done.
  destruct (code =? 404); simpl; [done|].
  destruct (code =? 429); simpl; [done|].
  destruct (500 <=? code); simpl; done.
Qed.

Lemma on_exception_final again e w :
  retried e = false ->
  Public.on_exception again e w = Some (None, w).
Proof.
  destruct e as [code| | |]; simpl; try done.
  destruct (code =? 404); simpl; [done|].
  destruct (code =? 429); simpl; [done|].
  destruct (500 <=? code); simpl; done.
Qed.

(** What a call that returns has done: files are only added, at the
    destination and nowhere else; the only URL requested is [image_url],
    and none at all when the destination was there; a path that is
    returned is the destination, and it exists. *)
Lemma download_image_inv depth :
  forall w r w',
    Public.download_image h depth image_url output_dir filename w = Some (r, w') ->
    disk w ⊆ disk w' /\
    (forall p, p <> filepath -> disk w' !! p = disk w !! p) /\
    (exists extra,
        trace w' = trace w ++ extra /\
        (forall u, u ∈ requested_urls extra -> u = image_url) /\
        (is_Some (disk w !! filepath) -> extra = [])) /\
    clock w <= clock w' /\
    (r = None \/ r = Some filepath /\ is_Some (disk w' !! filepath)).
Proof.
  induction depth as [|depth IH]; intros w r w' Hrun; [discriminate|].
  destruct (disk w !! filepath) as [f|] eqn:Hf.
  { rewrite (download_image_present depth w f Hf) in Hrun.
    injection Hrun as <- <-.
    split; [done|]. split; [done|]. split; [|split; [lia|]].
    - exists []. rewrite app_nil_r. split; [done|]. split; [|done].
      intros u Hu. by apply elem_of_nil in Hu.
    - right. rewrite Hf. eauto. }
  rewrite (download_image_absent depth w Hf) in Hrun.
  assert (Hstep : forall e w1,
    disk w ⊆ disk w1 ->
    (forall p, p <> filepath -> disk w1 !! p = disk w !! p) ->
    clock w1 = clock w ->
    trace w1 = trace w ++ [Request image_url] ->
    Public.on_exception
      (Public.download_image h depth image_url output_dir filename) e w1
      = Some (r, w') ->
    disk w ⊆ disk w' /\
    (forall p, p <> filepath -> disk w' !! p = disk w !! p) /\
    (exists extra,
        trace w' = trace w ++ extra /\
        (forall u, u ∈ requested_urls extra -> u = image_url) /\
        (is_Some (None : option file) -> extra = [])) /\
    clock w <= clock w' /\
    (r = None \/ r = Some filepath /\ is_Some (disk w' !! filepath))).
  { intros e w1 Hsub Hoth Hclk Htr Hexc.
    destruct (retried e) eqn:Hre.
    - rewrite on_exception_retried in Hexc by done.
      apply IH in Hexc as (Hsub' & Hoth' & (extra & Htr' & Hreq & _) & Hclk' & Hr).
      simpl in *.
      split; [by etrans|]. split; [|split; [|split]].
      + intros p Hp. rewrite Hoth' by done. by apply Hoth.
      + exists ([Request image_url; Sleep (pause e)] ++ extra).
        split; [|split].
        * rewrite Htr', Htr. by rewrite <- !app_assoc.
        * intros u Hu. unfold requested_urls in Hu. simpl in Hu.
          apply elem_of_cons in Hu as [->|Hu]; [done|]. by apply Hreq.
        * rewrite ?Hf. intros [? ?]. done.
      + assert (0 <= pause e).
        { destruct e as [code| | |]; simpl; try lia. destruct (code =? 429); lia. }
        lia.
      + exact Hr.
    - rewrite on_exception_final in Hexc by done.
      injection Hexc as <- <-.
      split; [done|]. split; [done|]. split; [|split; [lia|by left]].
      exists [Request image_url]. split; [done|]. split.
      + intros u Hu. unfold requested_urls in Hu. simpl in Hu.
        by apply list_elem_of_singleton in Hu.
      + rewrite ?Hf. intros [? ?]. done. }
  destruct (h _ image_url) as [data|written e|e].
  - injection Hrun as <- <-. simpl.
    split; [by apply insert_subseteq|]. split; [|split; [|split; [lia|]]].
    + intros p Hp. by rewrite lookup_insert_ne.
    + exists [Request image_url]. split; [done|]. split.
      * intros u Hu. unfold requested_urls in Hu. simpl in Hu.
        by apply list_elem_of_singleton in Hu.
      * rewrite ?Hf. intros [? ?]. done.
    + right. split; [done|]. rewrite lookup_insert_eq. eauto.
  - apply (Hstep e (stored filepath written (requested image_url w)));
      [| |done|done|exact Hrun].
    + by apply insert_subseteq.
    + intros p Hp. simpl. by rewrite lookup_insert_ne.
  - by apply (Hstep e (requested image_url w)).
Qed.

(** With a host that calms down, a deep enough call returns. *)
Lemma download_image_returns bound depth :
  calms h bound ->
  forall w,
    (bound - length (requested_urls (trace w)) < depth)%nat ->
    exists r w',
      Public.download_image h depth image_url output_dir filename w = Some (r, w').
Proof.
  intros Hcalm. induction depth as [|depth IH]; intros w Hd; [lia|].
  destruct (disk w !! filepath) as [f|] eqn:Hf.
  { rewrite (download_image_present depth w f Hf). eauto. }
  rewrite (download_image_absent depth w Hf).
  set (n := length (requested_urls (trace w))) in *.
  assert (Hexc : forall e w1,
    length (requested_urls (trace w1)) = S n ->
    (retried e = true -> (n < bound)%nat) ->
    exists r w',
      Public.on_exception
        (Public.download_image h depth image_url output_dir filename) e w1
      = Some (r, w')).
  { intros e w1 Hn Hlt. destruct (retried e) eqn:Hre.
    - rewrite on_exception_retried by done. apply IH. simpl.
      unfold requested_urls in *. rewrite omap_app, length_app. simpl.
      rewrite Nat.add_0_r, Hn. specialize (Hlt eq_refl). lia.
    - rewrite on_exception_final by done. eauto. }
  assert (Hn1 : forall d, length (requested_urls (trace (stored filepath d (requested image_url w)))) = S n).
  { intros d. simpl. unfold requested_urls. rewrite omap_app, length_app. simpl.
    subst n. unfold requested_urls. lia. }
  assert (Hn2 : length (requested_urls (trace (requested image_url w))) = S n).
  { apply (Hn1 ""). }
  destruct (h n image_url) as [data|written e|e] eqn:Hans; [eauto|..].
  - apply Hexc; [apply Hn1|]. intros Hre.
    destruct (decide (n < bound)%nat) as [|Hge]; [done|].
    specialize (Hcalm n image_url ltac:(lia)). rewrite Hans in Hcalm. simpl in Hcalm.
    congruence.
  - apply Hexc; [apply Hn2|]. intros Hre.
    destruct (decide (n < bound)%nat) as [|Hge]; [done|].
    specialize (Hcalm n image_url ltac:(lia)). rewrite Hans in Hcalm. simpl in Hcalm.
    congruence.
Qed.

(** Each of [k] answers that are retried costs one more request: after
    them, a body is fetched with request number [k + 1]. *)
Lemma download_image_keeps_retrying (k : nat) :
  forall depth w (es : list failure) data,
    disk w !! filepath = None ->
    length es = k ->
    Forall (fun e => retried e = true) es ->
    (forall i e, es !! i = Some e ->
       h (length (requested_urls (trace w)) + i)%nat image_url = Raised e) ->
    h (length (requested_urls (trace w)) + k)%nat image_url = Body data ->
    (k < depth)%nat ->
    exists w',
      Public.download_image h depth image_url output_dir filename w
        = Some (Some filepath, w') /\
      requested_urls (trace w') = requested_urls (trace w) ++ replicate (S k) image_url /\
      slept (trace w') = slept (trace w) ++ (pause <$> es).
Proof.
  induction k as [|k IH]; intros depth w es data Hf Hlen Hall Hes Hbody Hd.
  - destruct depth as [|depth]; [lia|]. destruct es; [|done].
    rewrite (download_image_absent depth w Hf).
    rewrite Nat.add_0_r in Hbody. rewrite Hbody.
    eexists. split; [reflexivity|]. simpl.
    unfold requested_urls, slept. rewrite !omap_app. simpl.
    by rewrite !app_nil_r.
  - destruct depth as [|depth]; [lia|]. destruct es as [|e es]; [done|].
    rewrite (download_image_absent depth w Hf).
    pose proof (Hes O e eq_refl) as Hfirst.
    rewrite Nat.add_0_r in Hfirst. rewrite Hfirst.
    apply Forall_cons in Hall as [He Hall].
    rewrite on_exception_retried by done.
    destruct (IH depth (paused (pause e) (requested image_url w)) es data)
      as (w' & Hrun & Hreq & Hsl); simpl; try done.
    + by injection Hlen.
    + intros i e' Hi. unfold requested_urls. rewrite !omap_app, !length_app. simpl.
      rewrite <- (Hes (S i) e' Hi). f_equal. unfold requested_urls. lia.
    + unfold requested_urls. rewrite !omap_app, !length_app. simpl.
      rewrite <- Hbody. f_equal. unfold requested_urls. lia.
    + lia.
    + exists w'. split; [exact Hrun|]. rewrite Hreq, Hsl. simpl.
      unfold requested_urls, slept. rewrite !omap_app. simpl.
      rewrite !app_nil_r, <- !app_assoc. done.
Qed.
End download_image_facts.


(** ** Paths *)

Lemma append_assoc (a b c : string) : ((a ++ b) ++ c = a ++ (b ++ c))%string.
Proof.
  induction a as [|x a IH]; [reflexivity|].
  change (String x ((a ++ b) ++ c) = String x (a ++ (b ++ c)))%string.
  by rewrite IH.
Qed.

Lemma append_nonempty_r (a b : string) : b <> "" -> (a ++ b)%string <> "".
Proof. destruct a; [done|]. intros _. discriminate. Qed.

Lemma path_join_nonempty (a b : string) : b <> "" -> path_join a b <> "".
Proof.
  intros Hb. unfold path_join.
  destruct (String.prefix "/" b); [done|].
  destruct (bool_decide (a = "") || ends_with_slash a).
  - by apply append_nonempty_r.
  - apply append_nonempty_r. discriminate.
Qed.

Lemma photo_filename_nonempty (id : Z) (j : nat) : photo_filename id j <> "".
Proof. discriminate. Qed.

Lemma destination_truthy (args : arguments) (id : Z) (j : nat) :
  truthy (Some (destination args id j)) = true.
Proof.
  simpl. rewrite bool_decide_eq_false_2; [done|].
  apply path_join_nonempty, photo_filename_nonempty.
Qed.

Lemma fallback_qualities_nonempty (q : image_quality) : fallback_qualities q <> [].
Proof. by destruct q. Qed.

(** ** The fallback loop and the per-photo bookkeeping *)

Section for_quality_facts.
Variable h : host.
Variable depth : nat.
Variables base images_dir filename : string.
Hypothesis filename_nonempty : filename <> "".

Local Abbreviation filepath := (path_join images_dir filename).

Lemma filepath_truthy : truthy (Some filepath) = true.
Proof.
  simpl. rewrite bool_decide_eq_false_2; [done|].
  by apply path_join_nonempty.
Qed.

Lemma for_quality_inv (qualities : list string) :
  forall downloaded_path w r w',
    Public.for_quality h depth base images_dir filename qualities downloaded_path w
      = Some (r, w') ->
    disk w ⊆ disk w' /\
    (forall p, p <> filepath -> disk w' !! p = disk w !! p) /\
    (exists extra,
        trace w' = trace w ++ extra /\
        (forall u, u ∈ requested_urls extra -> u ∈ fallback_url base <$> qualities) /\
        (is_Some (disk w !! filepath) -> extra = [])) /\
    clock w <= clock w' /\
    (qualities <> [] ->
     r = None \/ r = Some filepath /\ is_Some (disk w' !! filepath)).
Proof.
  induction qualities as [|quality rest IH]; intros dp w r w' Hrun.
  - injection Hrun as <- <-.
    split; [done|]. split; [done|]. split; [|split; [lia|done]].
    exists []. rewrite app_nil_r. split; [done|]. split; [|done].
    intros u Hu. by apply elem_of_nil in Hu.
  - cbn [Public.for_quality] in Hrun. unfold mbind, io_bind in Hrun.
    destruct (Public.download_image h depth (fallback_url base quality)
                images_dir filename w) as [[dp1 w1]|] eqn:Hdl; [|done].
    apply download_image_inv in Hdl
      as (Hsub & Hoth & (extra & Htr & Hreq & Hnone) & Hclk & Hr).
    destruct (truthy dp1) eqn:Ht.
    + injection Hrun as <- <-.
      split; [done|]. split; [done|]. split; [|split; [done|]].
      * exists extra. split; [done|]. split; [|done].
        intros u Hu. apply Hreq in Hu as ->. rewrite fmap_cons. apply list_elem_of_here.
      * intros _. destruct Hr as [->|Hr]; [done|]. by right.
    + destruct (IH _ _ _ _ Hrun)
        as (Hsub' & Hoth' & (extra' & Htr' & Hreq' & Hnone') & Hclk' & Hr').
      destruct Hr as [->|[-> _]]; [|by rewrite filepath_truthy in Ht].
      split; [by etrans|]. split; [|split; [|split; [lia|]]].
      * intros p Hp. rewrite Hoth' by done. by apply Hoth.
      * exists (extra ++ extra'). split; [|split].
        -- by rewrite Htr', Htr, app_assoc.
        -- intros u Hu. unfold requested_urls in Hu. rewrite omap_app in Hu.
           apply elem_of_app in Hu as [Hu|Hu].
           ++ apply Hreq in Hu as ->. rewrite fmap_cons. apply list_elem_of_here.
           ++ rewrite fmap_cons. apply list_elem_of_further. by apply Hreq'.
        -- intros Hsome. rewrite (Hnone Hsome). simpl. apply Hnone'.
           destruct Hsome as [f Hf]. exists f.
           by eapply lookup_weaken.
      * intros _. destruct rest as [|q' rest'].
        -- injection Hrun as <- <-. by left.
        -- by apply Hr'.
Qed.

(** The destination exists: the first candidate returns it at once. *)
Lemma for_quality_present (qualities : list string) downloaded_path w f :
  qualities <> [] ->
  disk w !! filepath = Some f ->
  Public.for_quality h (S depth) base images_dir filename qualities downloaded_path w
  = Some (Some filepath, w).
Proof.
  intros Hne Hf. destruct qualities as [|quality rest]; [done|].
  cbn [Public.for_quality]. unfold mbind at 1, io_bind at 1.
  rewrite (download_image_present _ _ _ _ _ _ f Hf).
  by rewrite filepath_truthy.
Qed.

Lemma for_quality_returns bound (qualities : list string) :
  calms h bound ->
  (bound < depth)%nat ->
  forall downloaded_path w,
    exists r w',
      Public.for_quality h depth base images_dir filename qualities downloaded_path w
      = Some (r, w').
Proof.
  intros Hcalm Hd. induction qualities as [|quality rest IH]; intros dp w.
  - by eexists _, _.
  - cbn [Public.for_quality]. unfold mbind at 1, io_bind at 1.
    destruct (download_image_returns h (fallback_url base quality) images_dir
                filename bound depth Hcalm w ltac:(lia)) as (r & w1 & ->).
    destruct (truthy r); [by eexists _, _|]. apply IH.
Qed.
End for_quality_facts.

Lemma grows_intro (w w' : world) (extra : list event) :
  disk w ⊆ disk w' -> clock w <= clock w' -> trace w' = trace w ++ extra ->
  grows w w' /\ since w w' = extra.
Proof.
  intros Hd Hc Ht.
  assert (since w w' = extra) as Hs.
  { unfold since. rewrite Ht. by rewrite drop_app_length. }
  split; [|done]. unfold grows. by rewrite Hs.
Qed.

Lemma grows_refl (w : world) : grows w w /\ since w w = [].
Proof. apply grows_intro; [done|lia|by rewrite app_nil_r]. Qed.

Lemma grows_trans (w1 w2 w3 : world) :
  grows w1 w2 -> grows w2 w3 ->
  grows w1 w3 /\ since w1 w3 = since w1 w2 ++ since w2 w3.
Proof.
  intros (Hd & Hc & Ht) (Hd' & Hc' & Ht').
  apply grows_intro; [by etrans|lia|].
  by rewrite Ht', Ht, app_assoc.
Qed.

Lemma requested_urls_app (t1 t2 : list event) :
  requested_urls (t1 ++ t2) = requested_urls t1 ++ requested_urls t2.
Proof. apply omap_app. Qed.

Section process_photo_facts.
Variable h : host.
Variable depth : nat.
Variable args : arguments.

(** One photo: what happened to the world, and the one counter that
    went up. *)
Lemma process_photo_inv id j p st w st' local_path w' :
  Public.process_photo h depth args id j p st w = Some ((st', local_path), w') ->
  grows w w' /\
  (forall u, u ∈ requested_urls (since w w') -> u ∈ candidates args p) /\
  (is_Some (disk w !! destination args id j) -> since w w' = []) /\
  ((local_path = Some (destination args id j) /\
    exists f, disk w' !! destination args id j = Some f /\
      st' = if clock w' - st_mtime f <? 10000
            then one_more_downloaded st else one_more_skipped st)
   \/ (local_path = None /\ st' = one_more_failed st)).
Proof.
  unfold Public.process_photo. unfold mbind at 1, io_bind at 1.
  destruct (Public.for_quality _ _ _ _ _ _ _ w) as [[dp w1]|] eqn:Hq; [|done].
  apply for_quality_inv in Hq
    as (Hsub & _ & (extra & Htr & Hreq & Hnone) & Hclk & Hr);
    [|apply photo_filename_nonempty].
  specialize (Hr (fallback_qualities_nonempty _)).
  destruct (grows_intro w w1 extra Hsub Hclk Htr) as [Hg Hs].
  destruct (truthy dp) eqn:Ht.
  - destruct Hr as [->|[-> [f Hf]]]; [done|].
    change (path_join (images_dir args) (photo_filename id j))
      with (destination args id j) in *.
    unfold mbind, io_bind, os_stat, time_time.
    rewrite Hf. intros Hrun.
    assert (w' = w1 /\ local_path = Some (destination args id j) /\
            st' = if clock w1 - st_mtime f <? 10000
                  then one_more_downloaded st else one_more_skipped st)
      as (-> & -> & ->).
    { destruct (clock w1 - st_mtime f <? 10000); by injection Hrun as <- <- <-. }
    split; [done|]. rewrite Hs. split; [done|]. split; [done|].
    left. split; [done|]. by exists f.
  - intros Hrun. injection Hrun as <- <- <-.
    split; [done|]. rewrite Hs. split; [done|]. split; [done|]. by right.
Qed.

(** The destination exists: the photo is settled without the network. *)
Lemma process_photo_present id j p st w f :
  disk w !! destination args id j = Some f ->
  Public.process_photo h (S depth) args id j p st w
  = Some ((if clock w - st_mtime f <? 10000
           then one_more_downloaded st else one_more_skipped st,
           Some (destination args id j)), w).
Proof.
  intros Hf. unfold Public.process_photo. unfold mbind at 1, io_bind at 1.
  rewrite (for_quality_present h depth _ _ _ (photo_filename_nonempty id j) _ _ w f);
    [|apply fallback_qualities_nonempty|exact Hf].
  fold (destination args id j). rewrite destination_truthy.
  unfold mbind, io_bind, os_stat, time_time. rewrite Hf.
  by destruct (clock w - st_mtime f <? 10000).
Qed.

Lemma process_photo_returns bound id j p st w :
  calms h bound -> (bound < depth)%nat ->
  exists res w', Public.process_photo h depth args id j p st w = Some (res, w').
Proof.
  intros Hcalm Hd. unfold Public.process_photo. unfold mbind at 1, io_bind at 1.
  destruct (for_quality_returns h depth (base_url p) (images_dir args)
              (photo_filename id j) bound (fallback_qualities (quality args))
              Hcalm Hd None w) as (r & w1 & Hq).
  rewrite Hq.
  apply for_quality_inv in Hq as (_ & _ & _ & _ & Hr);
    [|apply photo_filename_nonempty].
  specialize (Hr (fallback_qualities_nonempty _)).
  destruct (truthy r) eqn:Ht; [|by eexists _, _].
  destruct Hr as [->|[-> [f Hf]]]; [done|].
  unfold mbind, io_bind, os_stat, time_time. rewrite Hf.
  destruct (clock w1 - st_mtime f <? 10000); by eexists _, _.
Qed.
End process_photo_facts.

(** ** The loops of [main] *)

Lemma counted_one_more (st st' : Public.stats) (b : bool) :
  st' = (if b then one_more_downloaded st else one_more_skipped st)
  \/ st' = one_more_failed st ->
  counted st' = S (counted st).
Proof.
  unfold counted. intros [->| ->]; [destruct b|]; simpl; lia.
Qed.

Section main_facts.
Variable h : host.
Variable depth : nat.
Variable args : arguments.

Lemma for_photo_inv id (ps : list photo) :
  forall j st w st' local_paths w',
    Public.for_photo h depth args id j ps st w = Some ((st', local_paths), w') ->
    grows w w' /\
    (forall u, u ∈ requested_urls (since w w') ->
       exists k p, ps !! k = Some p /\ u ∈ candidates args p /\
                   disk w !! destination args id (j + k) = None) /\
    counted st' = (counted st + length ps)%nat /\
    length local_paths = length ps /\
    (forall k path, local_paths !! k = Some (Some path) ->
       path = destination args id (j + k) /\ is_Some (disk w' !! path)).
Proof.
  induction ps as [|p ps IH]; intros j st w st' lps w' Hrun.
  - injection Hrun as <- <- <-.
    destruct (grows_refl w) as [Hg Hs]. rewrite Hs.
    split; [done|]. split; [|split; [simpl; lia|split; [done|]]].
    + intros u Hu. by apply elem_of_nil in Hu.
    + intros k path Hk. done.
  - cbn [Public.for_photo] in Hrun. unfold mbind, io_bind in Hrun.
    destruct (Public.process_photo h depth args id j p st w)
      as [[[st1 lp] w1]|] eqn:Hp; [|done].
    destruct (Public.for_photo h depth args id (S j) ps st1 w1)
      as [[[st2 lps2] w2]|] eqn:Hps; [|done].
    injection Hrun as <- <- <-.
    apply process_photo_inv in Hp as (Hg1 & Hreq1 & Hnone1 & Hout).
    apply IH in Hps as (Hg2 & Hreq2 & Hcnt & Hlen & Hpaths).
    destruct (grows_trans w w1 w2 Hg1 Hg2) as [Hg Hs]. rewrite Hs.
    split; [done|]. split; [|split; [|split]].
    + intros u Hu. rewrite requested_urls_app in Hu.
      apply elem_of_app in Hu as [Hu|Hu].
      * exists O, p. split; [done|]. split; [by apply Hreq1|].
        rewrite Nat.add_0_r.
        destruct (disk w !! destination args id j) eqn:Hd; [|done].
        rewrite Hnone1 in Hu by eauto. by apply elem_of_nil in Hu.
      * destruct (Hreq2 u Hu) as (k & p' & Hk & Hc & Hd).
        exists (S k), p'. split; [done|]. split; [done|].
        replace (j + S k)%nat with (S j + k)%nat by lia.
        destruct Hg1 as (Hsub & _). by eapply lookup_weaken_None.
    + rewrite Hcnt. simpl.
      assert (counted st1 = S (counted st)); [|lia].
      destruct Hout as [(_ & f & _ & ->)|[_ ->]].
      * apply (counted_one_more st _ (clock w1 - st_mtime f <? 10000)). by left.
      * apply (counted_one_more st _ true). by right.
    + simpl. by rewrite Hlen.
    + intros [|k] path Hk.
      * simpl in Hk. injection Hk as ->. rewrite Nat.add_0_r.
        destruct Hout as [(Hlp & f & Hf & _)|[Hlp _]]; [|done].
        injection Hlp as ->. split; [done|].
        destruct Hg2 as (Hsub & _). exists f. by eapply lookup_weaken.
      * simpl in Hk. apply Hpaths in Hk.
        by replace (j + S k)%nat with (S j + k)%nat by lia.
Qed.

Lemma for_photo_returns bound id (ps : list photo) :
  calms h bound -> (bound < depth)%nat ->
  forall j st w, exists res w',
    Public.for_photo h depth args id j ps st w = Some (res, w').
Proof.
  intros Hcalm Hd. induction ps as [|p ps IH]; intros j st w.
  - by eexists _, _.
  - cbn [Public.for_photo]. unfold mbind, io_bind.
    destruct (process_photo_returns h depth args bound id j p st w Hcalm Hd)
      as ([st1 lp] & w1 & ->).
    destruct (IH (S j) st1 w1) as ([st2 lps] & w2 & ->).
    by eexists _, _.
Qed.

Lemma process_observation_inv o st w st' local_paths w' :
  Public.process_observation h depth args o st w = Some ((st', local_paths), w') ->
  grows w w' /\
  (forall u, u ∈ requested_urls (since w w') ->
     exists k p, photos o !! k = Some p /\ u ∈ candidates args p /\
                 disk w !! destination args (observation_id o) k = None) /\
  counted st' = (counted st + attempts args [o])%nat /\
  length local_paths = length (photos o) /\
  (forall k path, local_paths !! k = Some (Some path) ->
     path = destination args (observation_id o) k /\ is_Some (disk w' !! path)).
Proof.
  unfold Public.process_observation, attempts.
  destruct (extract_species_metadata (raw o)) as [observation_metadata|e]; [|done].
  destruct (download_images args); simpl.
  - destruct (bool_decide (photos o = [])) eqn:Hemp; simpl.
    + apply bool_decide_eq_true in Hemp. rewrite Hemp. simpl.
      intros Hrun. injection Hrun as <- <- <-.
      destruct (grows_refl w) as [Hg Hs]. rewrite Hs.
      split; [done|]. split; [|split; [lia|split; [done|done]]].
      intros u Hu. by apply elem_of_nil in Hu.
    + intros Hrun. apply for_photo_inv in Hrun as (Hg & Hreq & Hcnt & Hlen & Hp).
      split; [done|]. split; [done|]. split; [lia|]. split; done.
  - intros Hrun. injection Hrun as <- <- <-.
    destruct (grows_refl w) as [Hg Hs]. rewrite Hs.
    split; [done|]. split; [|split; [lia|split]].
    + intros u Hu. by apply elem_of_nil in Hu.
    + by rewrite length_fmap.
    + intros k path Hk. rewrite list_lookup_fmap in Hk.
      destruct (photos o !! k); done.
Qed.

Lemma process_observation_returns bound o st w :
  calms h bound -> (bound < depth)%nat -> normalizes o ->
  exists res w', Public.process_observation h depth args o st w = Some (res, w').
Proof.
  intros Hcalm Hd [observation_metadata Hok]. unfold Public.process_observation.
  rewrite Hok.
  destruct (download_images args && negb (bool_decide (photos o = []))).
  - by apply (for_photo_returns bound).
  - by eexists _, _.
Qed.

(** A whole pass over the observations. *)
Lemma for_observation_inv (os : list observation) :
  forall st w st' paths w',
    Public.for_observation h depth args os st w = Some ((st', paths), w') ->
    grows w w' /\
    (forall u, u ∈ requested_urls (since w w') ->
       exists i o k p, os !! i = Some o /\ photos o !! k = Some p /\
         u ∈ candidates args p /\
         disk w !! destination args (observation_id o) k = None) /\
    counted st' = (counted st + attempts args os)%nat /\
    (forall i o, os !! i = Some o ->
       exists local_paths, paths !! i = Some local_paths /\
         length local_paths = length (photos o) /\
         forall k path, local_paths !! k = Some (Some path) ->
           path = destination args (observation_id o) k /\
           is_Some (disk w' !! path)).
Proof.
  induction os as [|o os IH]; intros st w st' paths w' Hrun.
  - injection Hrun as <- <- <-.
    destruct (grows_refl w) as [Hg Hs]. rewrite Hs.
    split; [done|]. split; [|split; [|done]].
    + intros u Hu. by apply elem_of_nil in Hu.
    + unfold attempts. destruct (download_images args); simpl; lia.
  - cbn [Public.for_observation] in Hrun. unfold mbind, io_bind in Hrun.
    destruct (Public.process_observation h depth args o st w)
      as [[[st1 lps] w1]|] eqn:Ho; [|done].
    destruct (Public.for_observation h depth args os st1 w1)
      as [[[st2 more] w2]|] eqn:Hos; [|done].
    injection Hrun as <- <- <-.
    apply process_observation_inv in Ho as (Hg1 & Hreq1 & Hcnt1 & Hlen1 & Hp1).
    apply IH in Hos as (Hg2 & Hreq2 & Hcnt2 & Hp2).
    destruct (grows_trans w w1 w2 Hg1 Hg2) as [Hg Hs]. rewrite Hs.
    split; [done|]. split; [|split].
    + intros u Hu. rewrite requested_urls_app in Hu.
      apply elem_of_app in Hu as [Hu|Hu].
      * destruct (Hreq1 u Hu) as (k & p & Hk & Hc & Hd).
        by exists O, o, k, p.
      * destruct (Hreq2 u Hu) as (i & o' & k & p & Hi & Hk & Hc & Hd).
        exists (S i), o', k, p. split; [done|]. split; [done|]. split; [done|].
        destruct Hg1 as (Hsub & _). by eapply lookup_weaken_None.
    + rewrite Hcnt2, Hcnt1. unfold attempts.
      destruct (download_images args); simpl; unfold fmap; lia.
    + intros [|i] o' Hi.
      * simpl in Hi. injection Hi as <-. exists lps. split; [done|].
        split; [done|]. intros k path Hk.
        destruct (Hp1 k path Hk) as [-> [f Hf]]. split; [done|].
        destruct Hg2 as (Hsub & _). exists f. by eapply lookup_weaken.
      * simpl in Hi. by apply Hp2.
Qed.

Lemma for_observation_returns bound (os : list observation) :
  calms h bound -> (bound < depth)%nat -> Forall normalizes os ->
  forall st w, exists res w',
    Public.for_observation h depth args os st w = Some (res, w').
Proof.
  intros Hcalm Hd Hos. induction Hos as [|o os Ho Hos IH]; intros st w.
  - by eexists _, _.
  - cbn [Public.for_observation]. unfold mbind, io_bind.
    destruct (process_observation_returns bound o st w Hcalm Hd Ho)
      as ([st1 lp] & w1 & ->).
    destruct (IH st1 w1) as ([st2 lps] & w2 & ->).
    by eexists _, _.
Qed.

(** An observation on whose dict the normalizer raises ends the pass. *)
Lemma for_observation_raises (os : list observation) :
  forall st w,
    Exists (fun o => ~ normalizes o) os ->
    Public.for_observation h depth args os st w = None.
Proof.
  induction os as [|o os IH]; intros st w Hex.
  - by apply Exists_nil in Hex.
  - cbn [Public.for_observation]. unfold mbind, io_bind.
    destruct (Public.process_observation h depth args o st w)
      as [[[st1 lps] w1]|] eqn:Ho; [|done].
    apply Exists_cons in Hex as [Hbad|Hex].
    + unfold Public.process_observation in Ho.
      destruct (extract_species_metadata (raw o)) as [m|e] eqn:Hm; [|done].
      destruct Hbad. by exists m.
    + by rewrite IH.
Qed.
End main_facts.

(** A run that comes back with counters is the pass over the
    observations, followed by the write of [args.output]. *)
Lemma main_inv h depth json_dump args observations w st paths w' :
  Public.main h depth json_dump args observations w = Some (Some (st, paths), w') ->
  exists w1,
    Public.for_observation h depth args (limited args observations) Public.no_stats w
    = Some ((st, paths), w1) /\
    w' = stored (output args)
           (json_dump (clock w1) st
              (Public.metadata_list (limited args observations)) paths) w1.
Proof.
  unfold Public.main. destruct observations as [|o os]; [done|].
  unfold mbind, io_bind.
  destruct (Public.for_observation _ _ _ _ _ w) as [[[st1 paths1] w1]|]; [|done].
  unfold time_time, write_file, mret, io_ret.
  intros Hrun. injection Hrun as <- <- <-. by exists w1.
Qed.

(** A run that comes back without counters had nothing to do. *)
Lemma main_early h depth json_dump args observations w w' :
  Public.main h depth json_dump args observations w = Some (None, w') ->
  observations = [] /\ w' = w.
Proof.
  unfold Public.main. destruct observations as [|o os].
  - intros Hrun. by injection Hrun as <-.
  - unfold mbind, io_bind.
    destruct (Public.for_observation _ _ _ _ _ w) as [[[st1 paths1] w1]|]; done.
Qed.

(** The write of [args.output] is the one place where a run replaces a
    file: every other file that was there stays as it was. *)
Lemma main_keeps_files h depth json_dump args observations w res w' path f :
  Public.main h depth json_dump args observations w = Some (res, w') ->
  path <> output args ->
  disk w !! path = Some f ->
  disk w' !! path = Some f.
Proof.
  intros Hrun Hpath Hf. destruct res as [[st paths]|].
  - apply main_inv in Hrun as (w1 & Hfor & ->).
    apply for_observation_inv in Hfor as ((Hsub & _) & _).
    cbn [stored disk]. rewrite lookup_insert_ne by done.
    by eapply lookup_weaken.
  - by apply main_early in Hrun as [_ ->].
Qed.

(** ** Retries, counters and existing files in the public downloader *)

(** C1. The retry of [download_image] is a call to itself, so each
    transient failure is retried again: with two 429 answers followed by
    the image, the call issues a third request after a second 60-second
    wait and returns the path, where the specification caps the retries at
    one and lets a second 429 fail. *)
Theorem third_request_after_two_rate_limits :
  exists w',
    Public.download_image twice_limited 3 demo_url "./images" "obs_11_photo_0.jpg"
      (new_world 0)
    = Some (Some "./images/obs_11_photo_0.jpg", w') /\
    trace w' = [Request demo_url; Sleep 60000; Request demo_url; Sleep 60000;
                Request demo_url].
Proof. eexists. split; vm_compute; reflexivity. Qed.

(** The part of C1 that the code has: one 429 answer and then the image
    give one retry, after one 60-second wait, and the path. *)
Lemma one_retry_after_one_rate_limit :
  exists w',
    Public.download_image once_limited 2 demo_url "./images" "obs_11_photo_0.jpg"
      (new_world 0)
    = Some (Some "./images/obs_11_photo_0.jpg", w') /\
    trace w' = [Request demo_url; Sleep 60000; Request demo_url].
Proof. eexists. split; vm_compute; reflexivity. Qed.

(** Nothing caps the retries: [k] rate limits in a row cost [k + 1] requests. *)
Lemma retries_are_not_capped (k : nat) :
  exists w',
    Public.download_image
      (scripted (replicate k (Raised (HTTPError 429))) (Body "jpeg"))
      (S k) demo_url "./images" "obs_11_photo_0.jpg" (new_world 0)
    = Some (Some "./images/obs_11_photo_0.jpg", w') /\
    requested_urls (trace w') = replicate (S k) demo_url /\
    slept (trace w') = replicate k 60000.
Proof.
  destruct (download_image_keeps_retrying
              (scripted (replicate k (Raised (HTTPError 429))) (Body "jpeg"))
              demo_url "./images" "obs_11_photo_0.jpg" k (S k) (new_world 0)
              (replicate k (HTTPError 429)) "jpeg") as (w' & Hrun & Hreq & Hsl).
  - done.
  - apply length_replicate.
  - apply Forall_replicate. reflexivity.
  - intros i e Hi. apply lookup_replicate in Hi as [-> Hi]. simpl.
    unfold scripted. by rewrite lookup_replicate_2.
  - simpl. unfold scripted.
    by rewrite (proj1 (lookup_replicate_None k (Raised (HTTPError 429)) k)).
  - lia.
  - exists w'. split; [exact Hrun|]. rewrite Hreq, Hsl. simpl. split; [done|].
    by rewrite fmap_replicate.
Qed.

(** C3. Each photo that is attempted moves exactly one of the three
    counters by one (first part); at the end of a run the three counters
    add up to the number of attempts (second part). A run does end when
    the host stops answering with errors that are retried and the
    normalizer returns on every observation that is processed (third
    part); the call of the normalizer is not guarded, so an observation
    on which it raises ends the run before anything is counted (fourth
    part). *)
Theorem every_attempt_is_counted_once :
  (forall h depth args id j p st w st' local_path w',
      Public.process_photo h depth args id j p st w = Some ((st', local_path), w') ->
      (st' = one_more_downloaded st /\ is_Some local_path) \/
      (st' = one_more_skipped st /\ is_Some local_path) \/
      (st' = one_more_failed st /\ local_path = None)) /\
  (forall h depth json_dump args observations w st paths w',
      Public.main h depth json_dump args observations w
        = Some (Some (st, paths), w') ->
      (Public.downloaded_count st + Public.skipped_count st + Public.failed_count st)%nat
      = attempts args (limited args observations)) /\
  (forall h bound depth json_dump args observations w,
      calms h bound -> (bound < depth)%nat ->
      Forall normalizes (limited args observations) ->
      exists res w',
        Public.main h depth json_dump args observations w = Some (res, w')) /\
  (forall h depth json_dump args observations w,
      Exists (fun o => ~ normalizes o) (limited args observations) ->
      Public.main h depth json_dump args observations w = None).
Proof.
  split; [|split; [|split]].
  - intros h depth args id j p st w st' lp w' Hrun.
    apply process_photo_inv in Hrun
      as (_ & _ & _ & [(-> & f & _ & ->)|[-> ->]]).
    + destruct (clock w' - st_mtime f <? 10000); [left|right; left]; eauto.
    + right. right. done.
  - intros h depth json_dump args observations w st paths w' Hrun.
    apply main_inv in Hrun as (w1 & Hfor & _).
    apply for_observation_inv in Hfor as (_ & _ & Hcnt & _).
    exact Hcnt.
  - intros h bound depth json_dump args observations w Hcalm Hd Hok.
    unfold Public.main. destruct observations as [|o os]; [by eexists _, _|].
    unfold mbind, io_bind.
    destruct (for_observation_returns h depth args bound
                (limited args (o :: os)) Hcalm Hd Hok Public.no_stats w)
      as ([st paths] & w1 & ->).
    by eexists _, _.
  - intros h depth json_dump args observations w Hbad.
    unfold Public.main. destruct observations as [|o os].
    + exfalso. destruct args as [? ? ? [n|] ?]; unfold limited in Hbad;
        cbn [max_observations] in Hbad.
      * destruct (n =? 0); [by apply Exists_nil in Hbad|].
        unfold slice_to in Hbad. destruct (0 <=? n);
          rewrite take_nil in Hbad; by apply Exists_nil in Hbad.
      * by apply Exists_nil in Hbad.
    + unfold mbind, io_bind.
      by rewrite (for_observation_raises h depth args _ _ _ Hbad).
Qed.

Lemma every_attempt_is_counted_once_witness :
  exists st paths w',
    Public.main demo_host 4 demo_dump demo_args demo_observations demo_world
      = Some (Some (st, paths), w') /\
    (Public.downloaded_count st + Public.skipped_count st + Public.failed_count st)%nat
      = 3%nat.
Proof.
  destruct (proj1 (proj2 (proj2 every_attempt_is_counted_once))
              demo_host 3%nat 4%nat demo_dump demo_args demo_observations demo_world)
    as ([[st paths]|] & w'' & Hrun).
  - intros i u Hi. unfold demo_host, scripted.
    do 3 (destruct i as [|i]; [lia|]). do 3 (destruct i as [|i]; [reflexivity|]).
    reflexivity.
  - lia.
  - repeat constructor; eexists; vm_compute; reflexivity.
  - exists st, paths, w''. split; [exact Hrun|].
    apply (proj1 (proj2 every_attempt_is_counted_once)) in Hrun.
    exact Hrun.
  - vm_compute in Hrun. discriminate Hrun.
Defined.

(** The record of C5 in a run: the normalizer raises on it, the exception
    is not caught, and the run ends with nothing counted or written. *)
Lemma null_user_ends_the_run :
  Public.main demo_host 4 demo_dump demo_args
    [Observation 1 [] null_user_observation] demo_world = None.
Proof. vm_compute. reflexivity. Qed.

(** C4. When the destination file exists, [download_image] returns its
    path without a request and without touching the world (first part). A
    run never changes a file that was there before it, the file
    [args.output] apart (second part), which a run that processed
    observations writes anew (third part). In a second run over the same
    observations with the images directory as the first run left it,
    every URL requested belongs to a photo that had not succeeded in the
    first run (fourth part). *)
Theorem existing_files_are_kept_and_not_fetched :
  (forall h depth image_url output_dir filename w f,
      disk w !! path_join output_dir filename = Some f ->
      Public.download_image h (S depth) image_url output_dir filename w
      = Some (Some (path_join output_dir filename), w)) /\
  (forall h depth json_dump args observations w res w' path f,
      Public.main h depth json_dump args observations w = Some (res, w') ->
      path <> output args ->
      disk w !! path = Some f ->
      disk w' !! path = Some f) /\
  (forall h depth json_dump args observations w st paths w',
      Public.main h depth json_dump args observations w
        = Some (Some (st, paths), w') ->
      disk w' !! output args
      = Some (File (json_dump (clock w') st
                      (Public.metadata_list (limited args observations)) paths)
                (clock w'))) /\
  (forall h1 depth1 dump1 h2 depth2 dump2 args observations
          w0 st1 paths1 w1 v1 res2 w2 u,
      Public.main h1 depth1 dump1 args observations w0
        = Some (Some (st1, paths1), w1) ->
      disk v1 = disk w1 ->
      Public.main h2 depth2 dump2 args observations v1 = Some (res2, w2) ->
      u ∈ requested_urls (since v1 w2) ->
      exists i o k p local_paths,
        limited args observations !! i = Some o /\
        photos o !! k = Some p /\
        u ∈ candidates args p /\
        paths1 !! i = Some local_paths /\
        local_paths !! k = Some None).
Proof.
  split; [|split; [|split]].
  - intros h depth image_url output_dir filename w f Hf.
    by apply (download_image_present h image_url output_dir filename depth w f).
  - intros h depth json_dump args observations w res w' path f Hrun Hpath Hf.
    by apply (main_keeps_files h depth json_dump args observations w res w').
  - intros h depth json_dump args observations w st paths w' Hrun.
    apply main_inv in Hrun as (w1 & _ & ->).
    cbn [stored disk clock]. by rewrite lookup_insert_eq.
  - intros h1 depth1 dump1 h2 depth2 dump2 args observations
      w0 st1 paths1 w1 v1 res2 w2 u Hrun1 Hdisk Hrun2 Hu.
    apply main_inv in Hrun1 as (w1' & Hfor1 & ->).
    apply for_observation_inv in Hfor1 as (_ & _ & _ & Hpaths).
    assert (exists st2 paths2 w2',
      Public.for_observation h2 depth2 args (limited args observations)
        Public.no_stats v1 = Some ((st2, paths2), w2') /\
      trace w2 = trace w2') as (st2 & paths2 & w2' & Hfor & Htrace).
    { destruct res2 as [[st2 paths2]|].
      - apply main_inv in Hrun2 as (w2' & Hfor2 & ->).
        by exists st2, paths2, w2'.
      - apply main_early in Hrun2 as [_ ->].
        destruct (grows_refl v1) as [_ Hs].
        rewrite Hs in Hu. by apply elem_of_nil in Hu. }
    unfold since in Hu. rewrite Htrace in Hu.
    apply for_observation_inv in Hfor as (_ & Hreq & _).
    destruct (Hreq u Hu) as (i & o & k & p & Hi & Hk & Hc & Hd).
    destruct (Hpaths i o Hi) as (lps & Hlps & Hlen & Hfile).
    exists i, o, k, p, lps. repeat (split; [done|]).
    destruct (lps !! k) as [[path|]|] eqn:Hlk.
    + destruct (Hfile k path Hlk) as [-> Hsome].
      rewrite Hdisk in Hd. cbn [stored disk] in Hd.
      apply lookup_insert_None in Hd as [Hd _].
      rewrite Hd in Hsome. by destruct Hsome.
    + done.
    + apply lookup_ge_None in Hlk. apply lookup_lt_Some in Hk. lia.
Qed.

Lemma existing_files_are_kept_and_not_fetched_witness :
  Public.download_image demo_host 1 demo_url "./images" "obs_11_photo_0.jpg" demo_world
    = Some (Some "./images/obs_11_photo_0.jpg", demo_world) /\
  (exists res w',
      Public.main demo_host 4 demo_dump demo_args demo_observations demo_world
        = Some (res, w') /\
      disk w' !! "./images/obs_11_photo_0.jpg" = Some (File "old" 1000)) /\
  (exists i o k p local_paths,
      limited demo_args demo_observations !! i = Some o /\
      photos o !! k = Some p /\
      "https://inaturalist-open-data.s3.amazonaws.com/photos/503/large.jpg"
        ∈ candidates demo_args p /\
      [[Some "./images/obs_11_photo_0.jpg"; Some "./images/obs_11_photo_1.jpg"];
       [None]] !! i = Some local_paths /\
      local_paths !! k = Some None).
Proof.
  split; [|split].
  - apply (proj1 existing_files_are_kept_and_not_fetched
             demo_host 0%nat demo_url "./images" "obs_11_photo_0.jpg" demo_world
             (File "old" 1000)).
    reflexivity.
  - eexists _, _. split; [vm_compute; reflexivity|].
    eapply (proj1 (proj2 existing_files_are_kept_and_not_fetched)
              demo_host 4%nat demo_dump demo_args demo_observations demo_world).
    + vm_compute. reflexivity.
    + discriminate.
    + reflexivity.
  - eapply (proj2 (proj2 (proj2 existing_files_are_kept_and_not_fetched))
              demo_host 4%nat demo_dump demo_host 4%nat demo_dump
              demo_args demo_observations demo_world).
    + vm_compute. reflexivity.
    + reflexivity.
    + vm_compute. reflexivity.
    + vm_compute. right. left.
Defined.

(** A metadata file that was there before a run is replaced by it. *)
Lemma output_file_is_replaced :
  exists res w',
    Public.main demo_host 4 demo_dump demo_args demo_observations
      (stored "inaturalist_metadata.json" "old metadata" demo_world)
    = Some (res, w') /\
    disk w' !! "inaturalist_metadata.json" = Some (File "{}" 900000).
Proof. eexists _, _. split; vm_compute; reflexivity. Qed.

(** C9. A photo that resolved to a path is counted as downloaded exactly
    when the file's modification time is less than ten seconds before the
    clock at the check, and as skipped otherwise (first part); so a file
    that was on disk before, modified less than ten seconds ago, is counted
    as downloaded although nothing was requested and nothing written
    (second part). *)
Theorem freshness_decides_downloaded_or_skipped :
  (forall h depth args id j p st w st' path w',
      Public.process_photo h depth args id j p st w = Some ((st', Some path), w') ->
      exists f, disk w' !! path = Some f /\
        (clock w' - st_mtime f < 10000 -> st' = one_more_downloaded st) /\
        (10000 <= clock w' - st_mtime f -> st' = one_more_skipped st)) /\
  (forall h depth args id j p st w f,
      disk w !! destination args id j = Some f ->
      clock w - st_mtime f < 10000 ->
      Public.process_photo h (S depth) args id j p st w
      = Some ((one_more_downloaded st, Some (destination args id j)), w)).
Proof.
  split.
  - intros h depth args id j p st w st' path w' Hrun.
    apply process_photo_inv in Hrun
      as (_ & _ & _ & [(Hp & f & Hf & ->)|[? _]]); [|done].
    injection Hp as ->. exists f. split; [done|].
    destruct (Z.ltb_spec (clock w' - st_mtime f) 10000); split; (done || lia).
  - intros h depth args id j p st w f Hf Hfresh.
    rewrite (process_photo_present h depth args id j p st w f Hf).
    apply Z.ltb_lt in Hfresh. by rewrite Hfresh.
Qed.

Lemma freshness_decides_downloaded_or_skipped_witness :
  Public.process_photo demo_host 1 demo_args 11 0
    (Photo 501 None None None None None) Public.no_stats fresh_world
  = Some ((Public.Stats 1 0 0 0, Some "./images/obs_11_photo_0.jpg"), fresh_world).
Proof.
  apply (proj2 freshness_decides_downloaded_or_skipped demo_host 0%nat demo_args 11 0%nat
           (Photo 501 None None None None None) Public.no_stats fresh_world
           (File "old" 1000)).
  - reflexivity.
  - vm_compute. reflexivity.
Defined.

(** ** The image locator *)

Lemma py_or_truthy_l (a b : option string) : truthy a = true -> py_or a b = a.
Proof. unfold py_or. by intros ->. Qed.

Lemma py_or_falsy_l (a b : option string) : truthy a = false -> py_or a b = b.
Proof. unfold py_or. by intros ->. Qed.

Lemma py_or_assoc (a b c : option string) :
  py_or (py_or a b) c = py_or a (py_or b c).
Proof.
  unfold py_or. destruct (truthy a) eqn:Ha; [by rewrite Ha|done].
Qed.

Lemma first_present_here (a : option string) (rest : list (option string)) :
  truthy a = true ->
  head (omap (fun o => if truthy o then o else None) (a :: rest)) = a.
Proof. intros Ha. cbn [omap list_omap]. rewrite Ha. by destruct a. Qed.

Lemma first_present_next (a : option string) (rest : list (option string)) :
  truthy a = false ->
  head (omap (fun o => if truthy o then o else None) (a :: rest))
  = head (omap (fun o => if truthy o then o else None) rest).
Proof. intros Ha. cbn [omap list_omap]. by rewrite Ha. Qed.

(** With nothing found under any candidate, the public fallback loop asks
    for every candidate once, in the order of the list. *)
Lemma public_for_quality_not_found depth base images_dir filename qualities :
  forall downloaded_path w,
    disk w !! path_join images_dir filename = None ->
    Public.for_quality not_found (S depth) base images_dir filename qualities
      downloaded_path w
    = Some (match qualities with [] => downloaded_path | _ => None end,
            World (disk w) (clock w)
              (trace w ++ (Request <$> (fallback_url base <$> qualities)))).
Proof.
  induction qualities as [|quality rest IH]; intros dp w Hf.
  - simpl. rewrite app_nil_r. by destruct w.
  - cbn [Public.for_quality]. unfold mbind at 1, io_bind at 1.
    rewrite download_image_absent by done. simpl.
    rewrite IH by done. simpl. rewrite <- app_assoc. simpl.
    by destruct rest.
Qed.

(** The same for the fallback loop of the authenticated downloader. *)
Lemma auth_for_quality_not_found base images_dir filename qualities :
  forall downloaded_path w,
    Auth.for_quality not_found base images_dir filename qualities downloaded_path w
    = Some (match qualities with [] => downloaded_path | _ => None end,
            World (disk w) (clock w)
              (trace w ++ (Request <$> (fallback_url base <$> qualities)))).
Proof.
  induction qualities as [|quality rest IH]; intros dp w.
  - simpl. rewrite app_nil_r. by destruct w.
  - cbn [Auth.for_quality]. unfold mbind at 1, io_bind at 1.
    unfold Auth.download_image, mbind, io_bind, session_get. simpl.
    rewrite IH. simpl. rewrite <- app_assoc. simpl.
    by destruct rest.
Qed.

(** The candidates of the fallback loop for [small], written out. *)
Lemma small_candidates_written_out (args : arguments) (p : photo) :
  quality args = Small ->
  candidates args p = small_template_candidates p.
Proof.
  intros Hq. unfold candidates, small_template_candidates, fallback_url, base_url.
  rewrite Hq. cbn [fallback_qualities fmap list_fmap].
  by rewrite !append_assoc.
Qed.

(** C8. For the preference [small]: in direct-URL mode the URL taken is,
    for every photo, the first of small, medium, large, original and the
    bare [url] that is present, and the value of [url] as it is when none
    of the five is (first part); with all four tiers present this makes
    the order small, medium, large, original and then [url] (second
    part); in template mode the candidates are the templated URLs for
    small, medium, large, original, square (third part), asked for in
    that order by the fallback loop of either downloader (fourth and
    fifth part). *)
Theorem small_preference_order :
  (forall p,
      Auth.direct_image_url Small p
      = match head (small_direct_candidates p) with
        | Some image_url => Some image_url
        | None => url p
        end) /\
  (forall p s m l o,
      small_url p = Some s -> medium_url p = Some m ->
      large_url p = Some l -> original_url p = Some o ->
      s <> "" -> m <> "" -> l <> "" -> o <> "" ->
      small_direct_candidates p
      = [s; m; l; o] ++ (if truthy (url p) then [default "" (url p)] else [])) /\
  (forall args p,
      quality args = Small ->
      candidates args p = small_template_candidates p) /\
  (forall depth args id j p w,
      quality args = Small ->
      disk w !! destination args id j = None ->
      exists r w',
        Public.for_quality not_found (S depth) (base_url p) (images_dir args)
          (photo_filename id j) (fallback_qualities (quality args)) None w
        = Some (r, w') /\
        trace w' = trace w ++ (Request <$> small_template_candidates p)) /\
  (forall args id j p w,
      quality args = Small ->
      exists r w',
        Auth.for_quality not_found (base_url p) (images_dir args)
          (photo_filename id j) (fallback_qualities (quality args)) None w
        = Some (r, w') /\
        trace w' = trace w ++ (Request <$> small_template_candidates p)).
Proof.
  split; [|split; [|split; [|split]]].
  - intros p. unfold Auth.direct_image_url, small_direct_candidates.
    rewrite !py_or_assoc.
    repeat match goal with
    | |- py_or ?a _ = _ =>
        destruct (truthy a) eqn:Ha;
        [rewrite py_or_truthy_l, first_present_here by done;
         destruct a; [reflexivity|discriminate Ha]
        |rewrite py_or_falsy_l, first_present_next by done; clear Ha]
    end.
    destruct (truthy (url p)) eqn:Hu.
    + rewrite first_present_here by done.
      destruct (url p); [reflexivity|discriminate Hu].
    + by rewrite first_present_next.
  - intros p s m l o Es Em El Eo Hs Hm Hl Ho.
    unfold small_direct_candidates. rewrite Es, Em, El, Eo.
    cbn [omap list_omap truthy].
    rewrite !bool_decide_eq_false_2 by done. cbn [negb].
    destruct (url p) as [u|]; cbn [truthy]; [|done].
    destruct (bool_decide (u = "")); done.
  - intros args p Hq. by apply small_candidates_written_out.
  - intros depth args id j p w Hq Hf.
    rewrite public_for_quality_not_found by done.
    eexists _, _. split; [reflexivity|]. cbn [trace].
    by rewrite <- (small_candidates_written_out args p Hq).
  - intros args id j p w Hq.
    rewrite auth_for_quality_not_found.
    eexists _, _. split; [reflexivity|]. cbn [trace].
    by rewrite <- (small_candidates_written_out args p Hq).
Qed.

Lemma small_preference_order_witness :
  Auth.direct_image_url Small full_photo = Some "https://static/501/small.jpg" /\
  Auth.direct_image_url Small bare_photo = Some "https://static/502/square.jpg" /\
  small_direct_candidates full_photo
    = ["https://static/501/small.jpg"; "https://static/501/medium.jpg";
       "https://static/501/large.jpg"; "https://static/501/original.jpg";
       "https://static/501/square.jpg"] /\
  candidates small_args full_photo
    = ["https://inaturalist-open-data.s3.amazonaws.com/photos/501/small.jpg";
       "https://inaturalist-open-data.s3.amazonaws.com/photos/501/medium.jpg";
       "https://inaturalist-open-data.s3.amazonaws.com/photos/501/large.jpg";
       "https://inaturalist-open-data.s3.amazonaws.com/photos/501/original.jpg";
       "https://inaturalist-open-data.s3.amazonaws.com/photos/501/square.jpg"] /\
  (exists r w',
      Public.for_quality not_found 1 (base_url full_photo) "./images"
        (photo_filename 11 0) (fallback_qualities Small) None (new_world 0)
      = Some (r, w') /\
      trace w' = Request <$> small_template_candidates full_photo) /\
  (exists r w',
      Auth.for_quality not_found (base_url full_photo) "./images"
        (photo_filename 11 0) (fallback_qualities Small) None (new_world 0)
      = Some (r, w') /\
      trace w' = Request <$> small_template_candidates full_photo).
Proof.
  split; [|split; [|split; [|split; [|split]]]].
  - by rewrite (proj1 small_preference_order full_photo).
  - by rewrite (proj1 small_preference_order bare_photo).
  - apply (proj1 (proj2 small_preference_order) full_photo); (reflexivity || discriminate).
  - apply (proj1 (proj2 (proj2 small_preference_order)) small_args full_photo).
    reflexivity.
  - apply (proj1 (proj2 (proj2 (proj2 small_preference_order))) 0%nat small_args
             11 0%nat full_photo (new_world 0)); reflexivity.
  - apply (proj2 (proj2 (proj2 (proj2 small_preference_order))) small_args
             11 0%nat full_photo (new_world 0)); reflexivity.
Defined.

(** ** The authenticated image fetcher *)

(** C10. The authenticated [download_image] never looks at the disk
    before fetching and never tries again: every call issues exactly one
    request and no pause; any exception gives [None]; a body that arrives
    is written over whatever was at the destination. *)
Theorem authenticated_download_is_one_unguarded_request :
  forall h image_url output_dir filename w,
    exists r w',
      Auth.download_image h image_url output_dir filename w = Some (r, w') /\
      trace w' = trace w ++ [Request image_url] /\
      clock w' = clock w /\
      match h (length (requested_urls (trace w))) image_url with
      | Body data =>
          r = Some (path_join output_dir filename) /\
          disk w' = <[path_join output_dir filename := File data (clock w)]> (disk w)
      | Broken written _ =>
          r = None /\
          disk w' = <[path_join output_dir filename := File written (clock w)]> (disk w)
      | Raised _ => r = None /\ disk w' = disk w
      end.
Proof.
  intros h image_url output_dir filename w.
  unfold Auth.download_image, mbind, io_bind, session_get.
  destruct (h (length (requested_urls (trace w))) image_url) as [data|written e|e];
    simpl; eexists _, _; (split; [reflexivity|]); simpl; done.
Qed.

(** A file that is there is fetched again and replaced. *)
Lemma authenticated_download_overwrites :
  exists w',
    Auth.download_image (scripted [Body "new"] (Raised (HTTPError 404)))
      demo_url "./images" "obs_11_photo_0.jpg" demo_world
    = Some (Some "./images/obs_11_photo_0.jpg", w') /\
    disk demo_world !! "./images/obs_11_photo_0.jpg" = Some (File "old" 1000) /\
    disk w' !! "./images/obs_11_photo_0.jpg" = Some (File "new" 900000) /\
    trace w' = [Request demo_url].
Proof. eexists. repeat split; vm_compute; reflexivity. Qed.

(** A rate limit is not waited for and not retried. *)
Lemma authenticated_download_gives_up_on_429 :
  Auth.download_image once_limited demo_url "./images" "obs_11_photo_0.jpg"
    (new_world 0)
  = Some (None, World ∅ 0 [Request demo_url]).
Proof. reflexivity. Qed.

(** ** The metadata normalizer *)

Lemma project_dict items keys : exists fs, project (JDict items) keys = Ok fs.
Proof.
  induction keys as [|k ks [fs IH]]; [by eexists|].
  cbn [project get get_or]. unfold mbind, result_bind. rewrite IH. by eexists.
Qed.

Lemma project_user_ok v keys :
  user_ok v = true -> exists fs, project_user v keys = Ok fs.
Proof.
  intros Hv. destruct v as [| | | | | |items]; try done.
  induction keys as [|k ks [fs IH]]; [by eexists|].
  cbn [project_user get_or]. unfold mbind, result_bind. rewrite IH.
  simpl in Hv. destruct (assoc "user" items) as [u|]; simpl.
  - destruct u; try done. by eexists.
  - by eexists.
Qed.

Lemma for_each_ok (f : json -> result json) (ok : json -> bool) (xs : list json) :
  (forall x, ok x = true -> exists y, f x = Ok y) ->
  forallb ok xs = true ->
  exists ys, for_each f xs = Ok ys.
Proof.
  intros Hf. induction xs as [|x xs IH]; intros Hall; [by eexists|].
  simpl in Hall. apply andb_true_iff in Hall as [Hx Hall].
  destruct (Hf x Hx) as [y Hy]. destruct (IH Hall) as [ys Hys].
  cbn [for_each]. unfold mbind, result_bind. rewrite Hy, Hys. by eexists.
Qed.

Lemma photo_info_ok v : is_dict v = true -> exists y, photo_info v = Ok y.
Proof. destruct v; try done. intros _. by eexists. Qed.

Lemma species_info_ok v : is_dict v = true -> exists y, species_info v = Ok y.
Proof. destruct v; try done. intros _. by eexists. Qed.

Lemma ident_info_ok v : user_ok v = true -> exists y, ident_info v = Ok y.
Proof.
  intros Hv. unfold ident_info.
  destruct (project_user_ok v ["id"; "login"; "name"] Hv) as [us Hus].
  destruct v as [| | | | | |items]; try done.
  unfold mbind, result_bind. rewrite Hus. by eexists.
Qed.

(** The guarded loops over ['photos'] and ['identifications']. *)
Lemma guarded_loop_ok (f : json -> result json) (ok : json -> bool) items key :
  (forall x, ok x = true -> exists y, f x = Ok y) ->
  dicts_or_false ok (assoc key items) = true ->
  exists ys,
    (has ← get (JDict items) key;
     if truth has
     then xs ← item (JDict items) key; xs ← iterate xs; for_each f xs
     else Ok []) = Ok ys.
Proof.
  intros Hf Hok. cbn [get get_or item]. unfold mbind, result_bind.
  destruct (assoc key items) as [v|]; [|simpl; eexists; reflexivity].
  cbn [default from_option id].
  destruct (truth v) eqn:Hv; [|eexists; reflexivity].
  destruct v as [| | | | |xs|]; simpl in Hok, Hv; rewrite ?Hv in Hok; try done.
  cbn [iterate]. by apply (for_each_ok f ok).
Qed.

(** A field that is missing comes out as null. *)
Lemma missing_field_is_null items key :
  assoc key items = None -> get (JDict items) key = Ok JNull.
Proof. intros Hk. unfold get, get_or. by rewrite Hk. Qed.

(** On records of the expected shape the normalizer does not raise. *)
Lemma normalizer_total_on_well_shaped observation :
  well_shaped observation = true ->
  exists metadata, extract_species_metadata observation = Ok metadata.
Proof.
  intros Hws. destruct observation as [| | | | | |items]; try done.
  unfold well_shaped in Hws.
  apply andb_true_iff in Hws as [Hws Hid].
  apply andb_true_iff in Hws as [Hws Hph].
  apply andb_true_iff in Hws as [Hus Htx].
  unfold extract_species_metadata.
  destruct (project_user_ok _
              ["id"; "login"; "name"; "observations_count"; "species_count"] Hus)
    as [us Hus'].
  destruct (project_dict items
              ["observed_on"; "time_observed_at"; "created_at"; "updated_at";
               "latitude"; "longitude"; "positional_accuracy";
               "public_positional_accuracy"; "quality_grade";
               "num_identification_agreements"; "num_identification_disagreements";
               "captive_cultivated"; "description"; "place_guess"; "geoprivacy";
               "obscured"; "mappable"; "license_code"; "uri"]) as [fs Hfs].
  destruct (guarded_loop_ok photo_info is_dict items "photos" photo_info_ok Hph)
    as [ps Hps].
  destruct (guarded_loop_ok ident_info user_ok items "identifications"
              ident_info_ok Hid) as [ids Hids].
  unfold mbind, result_bind in *.
  rewrite Hfs, Hus'. cbn [get get_or item] in *.
  destruct (assoc "taxon" items) as [t|]; cbn [default from_option id truth].
  - destruct (truth t) eqn:Ht.
    + simpl in Htx. destruct (species_info_ok t Htx) as [sp Hsp].
      rewrite Hsp, Hps, Hids. eexists; reflexivity.
    + rewrite Hps, Hids. eexists; reflexivity.
  - rewrite Hps, Hids. eexists; reflexivity.
Qed.

Lemma plain_observation_is_normalized :
  exists metadata, extract_species_metadata plain_observation = Ok metadata.
Proof. apply normalizer_total_on_well_shaped. reflexivity. Qed.

(** C5. The normalizer is not total: [observation.get('user', {})]
    yields [None] for a record whose ['user'] is present and null, and the
    [.get] on it raises [AttributeError], where the specification calls
    the normalizer total on every record, null fields included. *)
Theorem normalizer_raises_on_null_user :
  extract_species_metadata null_user_observation = Raise AttributeError.
Proof. reflexivity. Qed.

(** ** The run summary *)

Lemma rate_depends_on_totals (d s f m : nat) :
  success_rate_percent (Public.Stats d s f m)
  = success_rate_percent (Public.Stats (d + s) 0 (d + s + f - (d + s)) 0).
Proof.
  unfold success_rate_percent. cbn [Public.downloaded_count Public.skipped_count
    Public.failed_count].
  replace (d + s + 0 + (d + s + f - (d + s)))%nat with (d + s + f)%nat by lia.
  replace (d + s + 0)%nat with (d + s)%nat by lia.
  reflexivity.
Qed.

(** ** Binary64 rounding *)

Lemma digits2_pos_bounds (p : positive) :
  2 ^ (Zpos (digits2_pos p) - 1) <= Zpos p < 2 ^ Zpos (digits2_pos p).
Proof.
  induction p as [p IH|p IH|]; cbn [digits2_pos].
  - rewrite Pos2Z.inj_succ.
    replace (Z.succ (Zpos (digits2_pos p)) - 1)
      with (Z.succ (Zpos (digits2_pos p) - 1)) by lia.
    rewrite !Z.pow_succ_r by lia. lia.
  - rewrite Pos2Z.inj_succ.
    replace (Z.succ (Zpos (digits2_pos p)) - 1)
      with (Z.succ (Zpos (digits2_pos p) - 1)) by lia.
    rewrite !Z.pow_succ_r by lia. lia.
  - simpl. lia.
Qed.

Lemma Zdigits2_bounds (m : Z) :
  0 < m -> 2 ^ (Zdigits2 m - 1) <= m < 2 ^ Zdigits2 m.
Proof. destruct m as [|p|p]; try lia. intros _. apply digits2_pos_bounds. Qed.

(** The number of digits is told by the powers of two around [m]. *)
Lemma Zdigits2_unique (m d : Z) :
  2 ^ (d - 1) <= m < 2 ^ d -> 0 < d -> Zdigits2 m = d.
Proof.
  intros Hm Hd.
  assert (0 < m) as Hpos by (pose proof (Z.pow_pos_nonneg 2 (d - 1)); lia).
  pose proof (Zdigits2_bounds m Hpos) as Hb.
  assert (0 < Zdigits2 m) by (destruct m; simpl; lia).
  destruct (Z.lt_trichotomy (Zdigits2 m) d) as [Hlt|[Heq|Hgt]]; [|done|].
  - assert (2 ^ Zdigits2 m <= 2 ^ (d - 1)) by (apply Z.pow_le_mono_r; lia). lia.
  - assert (2 ^ d <= 2 ^ (Zdigits2 m - 1)) by (apply Z.pow_le_mono_r; lia). lia.
Qed.

Lemma iter_pos_nat {A} (f : A -> A) (p : positive) :
  forall x, SpecFloat.iter_pos f p x = Nat.iter (Pos.to_nat p) f x.
Proof.
  induction p as [p IH|p IH|]; intros x; cbn [SpecFloat.iter_pos].
  - rewrite !IH, Pos2Nat.inj_xI.
    replace (2 * Pos.to_nat p)%nat with (Pos.to_nat p + Pos.to_nat p)%nat by lia.
    by rewrite Nat.iter_succ_r, Nat.iter_add.
  - rewrite !IH, Pos2Nat.inj_xO.
    replace (2 * Pos.to_nat p)%nat with (Pos.to_nat p + Pos.to_nat p)%nat by lia.
    by rewrite Nat.iter_add.
  - reflexivity.
Qed.

Lemma shr_1_located (mrs : shr_record) (N D : Z) :
  located mrs N D -> located (shr_1 mrs) N (2 * D).
Proof.
  destruct mrs as [m r s]. unfold located. cbn [shr_m shr_r shr_s].
  intros (HD & Hm & HN & Hr & Hs).
  assert (r || s = negb (N - m * D =? 0)) as Hrs.
  { subst r s.
    destruct (Z.leb_spec D (2 * (N - m * D)));
    destruct (Z.eqb_spec (N - m * D) 0);
    destruct (Z.eqb_spec (2 * (N - m * D)) D); simpl; try reflexivity; lia. }
  clear Hr Hs.
  destruct m as [|[p|p|]|p]; [| | | |lia]; cbn [shr_1 shr_m shr_r shr_s];
    rewrite Hrs; clear Hrs;
    (split; [lia|]); (split; [lia|]); (split; [lia|]); split.
  all: repeat match goal with
  | |- context [Z.leb ?x ?y] => destruct (Z.leb_spec x y)
  | |- context [Z.eqb ?x ?y] => destruct (Z.eqb_spec x y)
  end; cbn [negb andb]; try reflexivity; try lia.
Qed.

Lemma shr_iter_located (n : nat) (mrs : shr_record) (N D : Z) :
  located mrs N D -> located (Nat.iter n shr_1 mrs) N (2 ^ Z.of_nat n * D).
Proof.
  intros Hl. induction n as [|n IH].
  - change (2 ^ Z.of_nat 0) with 1. by rewrite Z.mul_1_l.
  - rewrite Nat2Z.inj_succ, Z.pow_succ_r by lia. cbn [Nat.iter].
    replace (2 * 2 ^ Z.of_nat n * D) with (2 * (2 ^ Z.of_nat n * D)) by lia.
    by apply shr_1_located.
Qed.

(** [shr] by [n >= 0] places. *)
Lemma shr_located (mrs : shr_record) (e n N D : Z) :
  0 <= n -> located mrs N D ->
  exists mrs', shr mrs e n = (mrs', e + n) /\ located mrs' N (2 ^ n * D).
Proof.
  intros Hn Hl. destruct n as [|p|p]; [| |lia].
  - exists mrs. split; [simpl; f_equal; lia|].
    change (2 ^ 0) with 1. by rewrite Z.mul_1_l.
  - exists (SpecFloat.iter_pos shr_1 p mrs). split; [reflexivity|].
    rewrite iter_pos_nat. rewrite <- (positive_nat_Z p). by apply shr_iter_located.
Qed.

(** Rounding to nearest, ties to even, from a record. *)
Lemma round_nearest_even_located (mrs : shr_record) (N D : Z) :
  located mrs N D ->
  let m := round_nearest_even (shr_m mrs) (loc_of_shr_record mrs) in
  shr_m mrs <= m <= shr_m mrs + 1 /\ 2 * Z.abs (m * D - N) <= D.
Proof.
  destruct mrs as [m r s]. unfold located. cbn [shr_m shr_r shr_s].
  intros (HD & Hm & HN & Hr & Hs).
  destruct (Z.leb_spec D (2 * (N - m * D))) as [H1|H1];
  destruct (Z.eqb_spec (N - m * D) 0) as [H2|H2];
  destruct (Z.eqb_spec (2 * (N - m * D)) D) as [H3|H3];
  subst r s; cbn [negb andb loc_of_shr_record round_nearest_even]; try lia.
  destruct (Z.even m); lia.
Qed.

Lemma shr_fexp_normal (M E N D : Z) (loc : location) :
  53 <= Zdigits2 M -> -1074 <= E + Zdigits2 M - 53 ->
  located (shr_record_of_loc M loc) N D ->
  exists mrs,
    shr_fexp prec emax M E loc = (mrs, E + (Zdigits2 M - 53)) /\
    located mrs N (2 ^ (Zdigits2 M - 53) * D).
Proof.
  intros Hd He Hl. unfold shr_fexp, fexp, emin, prec, emax.
  replace (Z.max (Zdigits2 M + E - 53) (3 - 1024 - 53) - E)
    with (Zdigits2 M - 53) by lia.
  apply shr_located; [lia|done].
Qed.

(** The second shift of [binary_round_aux]: nothing to do, unless
    rounding has carried into a 54th digit. *)
Lemma shr_fexp_rounded (m e : Z) :
  2 ^ 52 <= m <= 2 ^ 53 -> -1074 <= e ->
  exists m' e',
    shr_fexp prec emax m e loc_Exact
    = ({| shr_m := m'; shr_r := false; shr_s := false |}, e') /\
    2 ^ 52 <= m' < 2 ^ 53 /\
    (m' = m /\ e' = e \/ m = 2 ^ 53 /\ m' = 2 ^ 52 /\ e' = e + 1).
Proof.
  intros Hm He. destruct (Z.eq_dec m (2 ^ 53)) as [->|Hne].
  - exists (2 ^ 52), (e + 1). split; [|lia].
    unfold shr_fexp, fexp, emin, prec, emax.
    change (Zdigits2 (2 ^ 53)) with 54.
    replace (Z.max (54 + e - 53) (3 - 1024 - 53) - e) with 1 by lia.
    reflexivity.
  - exists m, e. split; [|lia].
    unfold shr_fexp, fexp, emin, prec, emax.
    rewrite (Zdigits2_unique m 53) by lia.
    replace (Z.max (53 + e - 53) (3 - 1024 - 53) - e) with 0 by lia.
    reflexivity.
Qed.

(** [binary_round_aux] on a mantissa of 53 digits or more, away from
    the subnormal numbers and from overflow: the result has a mantissa of
    exactly 53 digits and lies within half a unit of its last place of
    the value [N / D * 2 ^ E] that the mantissa and its location stand
    for. *)
Lemma binary_round_aux_normal (M E N D : Z) (loc : location) :
  53 <= Zdigits2 M -> -1074 <= E + Zdigits2 M - 53 -> E + Zdigits2 M - 52 <= 971 ->
  located (shr_record_of_loc M loc) N D ->
  exists m e,
    binary_round_aux prec emax false M E loc = S754_finite false m e /\
    2 ^ 52 <= Zpos m < 2 ^ 53 /\
    (e = E + Zdigits2 M - 53 \/ e = E + Zdigits2 M - 52) /\
    2 * Z.abs (Zpos m * (2 ^ (e - E) * D) - N) <= 2 ^ (e - E) * D.
Proof.
  intros Hd Hlow Hhigh Hl.
  assert (0 < M) as HM.
  { destruct Hl as (_ & Hm & _). destruct loc as [|[]]; simpl in Hm;
      destruct M; simpl in Hd; lia. }
  pose proof (Zdigits2_bounds M HM) as HMb.
  set (d := Zdigits2 M) in *. set (n := d - 53).
  assert (0 < 2 ^ n) as HW by (apply Z.pow_pos_nonneg; lia).
  assert (2 ^ d = 2 ^ 53 * 2 ^ n) as Hd1.
  { rewrite <- Z.pow_add_r by lia. f_equal. lia. }
  assert (2 ^ (d - 1) = 2 ^ 52 * 2 ^ n) as Hd2.
  { rewrite <- Z.pow_add_r by lia. f_equal. lia. }
  assert (M * D <= N < (M + 1) * D /\ 0 < D) as [HN HD].
  { destruct Hl as (? & _ & ? & _). by destruct loc as [|[]]. }
  destruct (shr_fexp_normal M E N D loc Hd Hlow Hl) as (mrs & Hshr & Hloc).
  fold d in Hshr, Hloc. fold n in Hshr, Hloc.
  pose proof (round_nearest_even_located mrs N (2 ^ n * D) Hloc) as [Hr Hnear].
  set (m1 := shr_m mrs) in *.
  set (mr := round_nearest_even m1 (loc_of_shr_record mrs)) in *.
  assert (2 ^ 52 <= m1 < 2 ^ 53) as Hm1.
  { destruct Hloc as (_ & _ & Hb & _). fold m1 in Hb.
    set (W := 2 ^ n) in *. split.
    - assert (2 ^ 52 * W * D < (m1 + 1) * (W * D)) by nia.
      assert (2 ^ 52 < m1 + 1); [|lia].
      apply (Z.mul_lt_mono_pos_r (W * D)); nia.
    - assert (m1 * (W * D) < 2 ^ 53 * W * D) by nia.
      apply (Z.mul_lt_mono_pos_r (W * D)); nia. }
  destruct (shr_fexp_rounded mr (E + n)) as (m' & e' & Hshr2 & Hm' & Hcase);
    [lia|lia|].
  destruct m' as [|m'|m']; [lia| |lia].
  exists m', e'.
  split.
  - unfold binary_round_aux. rewrite Hshr. fold m1. fold mr.
    rewrite Hshr2. cbn [shr_m].
    unfold emax, prec.
    destruct (Z.leb_spec e' (1024 - 53)); [reflexivity|lia].
  - split; [done|]. destruct Hcase as [[-> ->]|(Hmr & -> & ->)].
    + split; [lia|]. by replace (E + n - E) with n by lia.
    + split; [lia|]. replace (E + n + 1 - E) with (Z.succ n) by lia.
      rewrite Z.pow_succ_r by lia. rewrite Hmr in Hnear.
      change (2 ^ 53) with (2 * 2 ^ 52) in Hnear. lia.
Qed.

(** The location that the division computes from the remainder. *)
Lemma new_location_located (b q r : Z) :
  0 < b -> 0 <= q -> 0 <= r < b ->
  located (shr_record_of_loc q (new_location b r)) (q * b + r) b.
Proof.
  intros Hb Hq Hr. unfold new_location.
  assert (forall c : comparison,
            c = (2 * r ?= b) -> r <> 0 ->
            located (shr_record_of_loc q (loc_Inexact c)) (q * b + r) b) as Hc.
  { intros c -> Hr0. unfold located.
    destruct (Z.compare_spec (2 * r) b); cbn [shr_record_of_loc shr_m shr_r shr_s];
      replace (q * b + r - q * b) with r by lia;
      (split; [lia|]); (split; [lia|]); (split; [lia|]);
      destruct (Z.leb_spec b (2 * r)); destruct (Z.eqb_spec r 0);
      destruct (Z.eqb_spec (2 * r) b); cbn [negb andb]; (done || lia). }
  assert (r = 0 -> located (shr_record_of_loc q loc_Exact) (q * b + r) b) as H0.
  { intros ->. unfold located. cbn [shr_record_of_loc shr_m shr_r shr_s].
    replace (q * b + 0 - q * b) with 0 by lia.
    (split; [lia|]); (split; [lia|]); (split; [lia|]).
    destruct (Z.leb_spec b (2 * 0)); destruct (Z.eqb_spec (2 * 0) b);
      cbn [negb andb]; (done || lia). }
  destruct (Z.even b) eqn:Hev.
  - unfold new_location_even. destruct (Z.eqb_spec r 0); [by apply H0|].
    by apply Hc.
  - unfold new_location_odd. destruct (Z.eqb_spec r 0); [by apply H0|].
    assert (Z.odd b = true) as Hodd by (by rewrite <- Z.negb_even, Hev).
    apply Z.odd_spec in Hodd as [k Hk].
    apply Hc; [|done].
    destruct (Z.compare_spec (2 * r + 1) b); destruct (Z.compare_spec (2 * r) b);
      (done || lia).
Qed.

(** The quotient of two integers below [2 ^ 41], correctly rounded: a
    mantissa of 53 digits within half a unit of the last place. *)
Lemma nearest_ratio_spec (a b : positive) :
  Zpos a < 2 ^ 41 -> Zpos b < 2 ^ 41 ->
  exists m e,
    SFdiv prec emax (S754_finite false a 0) (S754_finite false b 0)
    = S754_finite false m e /\
    2 ^ 52 <= Zpos m < 2 ^ 53 /\
    -93 <= e <= -11 /\
    2 * Z.abs (Zpos m * Zpos b - Zpos a * 2 ^ (- e)) <= Zpos b.
Proof.
  intros Ha Hb.
  pose proof (digits2_pos_bounds a) as Hda.
  pose proof (digits2_pos_bounds b) as Hdb.
  set (d1 := Zpos (digits2_pos a)) in *. set (d2 := Zpos (digits2_pos b)) in *.
  assert (1 <= d1 <= 41) as Hd1.
  { split; [unfold d1; lia|].
    destruct (Z.le_gt_cases d1 41); [done|].
    assert (2 ^ 41 <= 2 ^ (d1 - 1)) by (apply Z.pow_le_mono_r; lia). lia. }
  assert (1 <= d2 <= 41) as Hd2.
  { split; [unfold d2; lia|].
    destruct (Z.le_gt_cases d2 41); [done|].
    assert (2 ^ 41 <= 2 ^ (d2 - 1)) by (apply Z.pow_le_mono_r; lia). lia. }
  set (s := 53 + d2 - d1).
  assert (2 ^ s * 2 ^ (d1 - 1) = 2 ^ 53 * 2 ^ (d2 - 1)) as Hpow.
  { rewrite <- !Z.pow_add_r by lia. f_equal. lia. }
  assert (2 ^ d1 = 2 * 2 ^ (d1 - 1)) as Hp1.
  { rewrite <- Z.pow_succ_r by lia. f_equal. lia. }
  assert (2 ^ d2 = 2 * 2 ^ (d2 - 1)) as Hp2.
  { rewrite <- Z.pow_succ_r by lia. f_equal. lia. }
  assert (0 < 2 ^ s) as Hs by (apply Z.pow_pos_nonneg; lia).
  assert (0 < 2 ^ (d1 - 1)) as HA by (apply Z.pow_pos_nonneg; lia).
  assert (0 < 2 ^ (d2 - 1)) as HB by (apply Z.pow_pos_nonneg; lia).
  unfold SFdiv, SFdiv_core_binary. cbn [xorb Zdigits2]. fold d1 d2.
  assert (Z.min (fexp prec emax (d1 + 0 - (d2 + 0))) (0 - 0) = - s) as ->.
  { unfold fexp, emin, prec, emax. lia. }
  replace (0 - 0 - - s) with s by lia.
  destruct s as [|p|p] eqn:Hsp; [lia| |lia]. rewrite <- Hsp in *.
  replace (Zpos p) with s by done.
  rewrite Z.shiftl_mul_pow2 by lia.
  pose proof (Z_div_mod (Zpos a * 2 ^ s) (Zpos b) ltac:(lia)) as Hdiv.
  destruct (Z.div_eucl (Zpos a * 2 ^ s) (Zpos b)) as [q r]. destruct Hdiv as [Hq Hr].
  set (A := 2 ^ (d1 - 1)) in *. set (B := 2 ^ (d2 - 1)) in *. set (S := 2 ^ s) in *.
  assert (2 ^ 52 <= q < 2 ^ 54) as Hqb.
  { split.
    - assert (2 ^ 52 * Zpos b < (q + 1) * Zpos b); [nia|].
      assert (2 ^ 52 < q + 1); [|lia].
      apply (Z.mul_lt_mono_pos_r (Zpos b)); lia.
    - assert (q * Zpos b < 2 ^ 54 * Zpos b); [nia|].
      apply (Z.mul_lt_mono_pos_r (Zpos b)); lia. }
  assert (Zdigits2 q = 53 \/ Zdigits2 q = 54) as Hdq.
  { destruct (Z.lt_ge_cases q (2 ^ 53)).
    - left. apply Zdigits2_unique; lia.
    - right. apply Zdigits2_unique; lia. }
  destruct (binary_round_aux_normal q (- s) (Zpos a * S) (Zpos b) (new_location (Zpos b) r))
    as (m & e & Hrun & Hm & He & Hnear); [lia|lia|lia| |].
  { rewrite Hq. replace (Zpos b * q + r) with (q * Zpos b + r) by lia.
    apply new_location_located; lia. }
  exists m, e. split; [exact Hrun|]. split; [done|]. split; [lia|].
  set (n := e - - s) in *.
  assert (0 <= n <= 2) as Hn by (unfold n; lia).
  assert (S = 2 ^ (- e) * 2 ^ n) as HS.
  { unfold S. rewrite <- Z.pow_add_r by lia. f_equal. unfold n. lia. }
  assert (0 < 2 ^ n) as HW by (apply Z.pow_pos_nonneg; lia).
  rewrite HS in Hnear. set (W := 2 ^ n) in *. set (P := 2 ^ (- e)) in *.
  replace (Zpos m * (W * Zpos b) - Zpos a * (P * W))
    with ((Zpos m * Zpos b - Zpos a * P) * W) in Hnear by lia.
  rewrite Z.abs_mul, (Z.abs_eq W) in Hnear by lia.
  apply (Z.mul_le_mono_pos_r _ _ W); lia.
Qed.

Lemma round_half_even_near (n d : Z) :
  0 < d -> 2 * Z.abs (round_half_even n d * d - n) <= d.
Proof.
  intros Hd. unfold round_half_even.
  pose proof (Z.div_mod n d ltac:(lia)) as Hn.
  pose proof (Z.mod_pos_bound n d Hd) as Hr.
  set (q := n / d) in *. set (r := n mod d) in *.
  destruct (Z.ltb_spec (2 * r) d); [lia|].
  destruct (Z.ltb_spec d (2 * r)); [lia|].
  destruct (Z.even q); lia.
Qed.

(** The product of a correctly rounded quotient with [100.0]. *)
Lemma times_100_spec (m : positive) (e : Z) :
  2 ^ 52 <= Zpos m < 2 ^ 53 -> -93 <= e <= -11 ->
  exists mx n,
    Prim2SF (SF2Prim (S754_finite false m e) * 100)
    = S754_finite false mx (e - 46 + n) /\
    2 ^ 52 <= Zpos mx < 2 ^ 53 /\
    52 <= n <= 54 /\
    2 * Z.abs (Zpos mx * 2 ^ n - Zpos m * (100 * 2 ^ 46)) <= 2 ^ n.
Proof.
  intros Hm He.
  rewrite mul_spec, Prim2SF_SF2Prim.
  2:{ cbn [valid_binary]. unfold bounded, canonical_mantissa.
      change (Zpos (digits2_pos m)) with (Zdigits2 (Zpos m)).
      rewrite (Zdigits2_unique (Zpos m) 53) by lia.
      unfold fexp, emin, prec, emax.
      apply andb_true_iff. split; [apply Z.eqb_eq|apply Z.leb_le]; lia. }
  change (Prim2SF 100) with (S754_finite false 7036874417766400 (-46)).
  unfold SF64mul, SFmul. cbn [xorb].
  rewrite Pos2Z.inj_mul. set (M := Zpos m * 7036874417766400).
  assert (2 ^ 104 <= M < 2 ^ 106) as HM by (unfold M; lia).
  assert (Zdigits2 M = 105 \/ Zdigits2 M = 106) as Hd.
  { destruct (Z.lt_ge_cases M (2 ^ 105)).
    - left. apply Zdigits2_unique; lia.
    - right. apply Zdigits2_unique; lia. }
  destruct (binary_round_aux_normal M (e + -46) M 1 loc_Exact)
    as (mx & ex & Hrun & Hmx & Hex & Hnear); [lia|lia|lia| |].
  { unfold located. cbn [shr_record_of_loc shr_m shr_r shr_s].
    replace (M - M * 1) with 0 by lia.
    repeat (split; [lia|]). done. }
  exists mx, (ex - (e + -46)). split; [|split; [done|split; [lia|]]].
  - rewrite Hrun. f_equal. lia.
  - rewrite Z.mul_1_r in Hnear.
    change (100 * 2 ^ 46) with 7036874417766400. exact Hnear.
Qed.

(** The rate of [a] successes out of [b] attempts, for any number of
    attempts below [2 ^ 39]: a nearest one-decimal value. *)
Lemma rate_is_nearest (a b : nat) :
  (0 < b)%nat -> (a <= b)%nat -> Z.of_nat b < 2 ^ 39 ->
  exists t,
    success_rate_percent (Public.Stats a 0 (b - a) 0) = Some (PyFloat (of_tenths t)) /\
    nearest_tenths a b t.
Proof.
  intros Hb Hab Hlim. unfold success_rate_percent, nearest_tenths.
  cbn [Public.downloaded_count Public.skipped_count Public.failed_count].
  replace (a + 0 + (b - a))%nat with b by lia.
  replace (a + 0)%nat with a by lia.
  destruct (Nat.ltb_spec 0 b); [|lia].
  unfold true_div.
  destruct (Z.of_nat b) as [|b'|b'] eqn:Eb; [lia| |lia].
  destruct (Z.of_nat a) as [|a'|a'] eqn:Ea; [| |lia].
  { exists 0. split; [reflexivity|lia]. }
  assert (Zpos a' <= Zpos b') as Hab' by lia. clear Hab Hb H Ea Eb.
  cbn [mbind option_bind]. unfold nearest_ratio.
  destruct (nearest_ratio_spec a' b') as (mq & eq & -> & Hmq & Heq & HD); [lia|lia|].
  destruct (times_100_spec mq eq Hmq Heq) as (mx & n & Hx & Hmx & Hn & HM).
  set (x := (SF2Prim (S754_finite false mq eq) * 100)%float) in *.
  set (ex := eq - 46 + n) in *.
  set (t := round_half_even (10 * Zpos mx) (2 ^ (- ex))).
  exists t. split.
  - cbn [py_round1]. unfold round1. rewrite Hx.
    destruct (Z.leb_spec 0 ex); [unfold ex in *; lia|].
    fold t. by destruct t.
  - assert (0 < 2 ^ (- ex)) as HPx by (apply Z.pow_pos_nonneg; unfold ex; lia).
    pose proof (round_half_even_near (10 * Zpos mx) (2 ^ (- ex)) HPx) as HR.
    fold t in HR.
    assert (0 < 2 ^ (- eq)) as HPq by (apply Z.pow_pos_nonneg; lia).
    assert (0 < 2 ^ n) as HW by (apply Z.pow_pos_nonneg; lia).
    assert (2 ^ n <= 2 ^ 54) as HW54 by (apply Z.pow_le_mono_r; lia).
    assert (2 ^ (- ex) * 2 ^ n = 2 ^ (- eq) * 2 ^ 46) as HK.
    { rewrite <- !Z.pow_add_r by (unfold ex; lia). f_equal. unfold ex. lia. }
    set (Px := 2 ^ (- ex)) in *. set (Pq := 2 ^ (- eq)) in *. set (W := 2 ^ n) in *.
    set (A := Zpos a') in *. set (B := Zpos b') in *.
    set (Mq := Zpos mq) in *. set (Mx := Zpos mx) in *.
    assert (0 < B) as HB by (unfold B; lia).
    assert (Mq <= Pq) as HPq52.
    { assert (2 * Mq * B <= (2 * Pq + 1) * B) by nia.
      assert (2 * Mq <= 2 * Pq + 1); [|lia].
      apply (Z.mul_le_mono_pos_r _ _ B); lia. }
    set (K := Px * W) in *.
    set (U := t * B - 1000 * A).
    assert (2 * U * K
            = 2 * (t * Px - 10 * Mx) * (B * W)
              + 10 * B * (2 * (Mx * W - Mq * (100 * 2 ^ 46)))
              + 10 * (100 * 2 ^ 46) * (2 * (Mq * B - A * Pq))) as Hid.
    { unfold U. replace (2 * (t * B - 1000 * A) * K)
        with (2 * t * B * K - 2000 * A * K) by ring.
      rewrite HK at 2. unfold K. ring. }
    assert (Z.abs (2 * U) * K
            <= Px * (B * W) + 10 * B * W + 10 * (100 * 2 ^ 46) * B) as Hbound.
    { rewrite <- (Z.abs_eq K) at 1 by (unfold K; lia).
      rewrite <- Z.abs_mul, Hid.
      eapply Z.le_trans; [apply Z.abs_triangle|].
      apply Z.add_le_mono; [eapply Z.le_trans; [apply Z.abs_triangle|];
                            apply Z.add_le_mono|].
      - rewrite Z.abs_mul, (Z.abs_eq (B * W)) by lia.
        apply Z.mul_le_mono_nonneg_r; lia.
      - rewrite Z.abs_mul, (Z.abs_eq (10 * B)) by lia.
        apply Z.mul_le_mono_nonneg_l; lia.
      - rewrite Z.abs_mul, (Z.abs_eq (10 * (100 * 2 ^ 46))) by lia.
        apply Z.mul_le_mono_nonneg_l; lia. }
    replace (2 * Z.abs (t * B - 1000 * A)) with (Z.abs (2 * U))
      by (unfold U; lia).
    destruct (Z.le_gt_cases (Z.abs (2 * U)) B) as [Hle|Hgt]; [lia|exfalso].
    assert ((B + 1) * K <= Z.abs (2 * U) * K) as Hlow
      by (apply Z.mul_le_mono_nonneg_r; unfold K; lia).
    assert (B * W <= 2 ^ 39 * 2 ^ 54) as HBW
      by (apply Z.mul_le_mono_nonneg; lia).
    assert (2 ^ 52 * 2 ^ 46 <= K) as HK98.
    { fold K in HK. rewrite HK. apply Z.mul_le_mono_nonneg_r; lia. }
    replace (Px * (B * W)) with (B * K) in Hbound by (unfold K; ring).
    lia.
Qed.

(** A nearest one-decimal value is the only one, unless the ratio lies
    midway between two of them. *)
Lemma nearest_tenths_unique (a b : nat) (t : Z) :
  (0 < b)%nat -> nearest_tenths a b t -> ~ midway a b ->
  t = round_half_even (1000 * Z.of_nat a) (Z.of_nat b).
Proof.
  unfold nearest_tenths, midway, round_half_even. intros Hb Hnear Hmid.
  set (n := 1000 * Z.of_nat a) in *. set (d := Z.of_nat b) in *.
  assert (0 < d) as Hd by (unfold d; lia).
  pose proof (Z.div_mod n d ltac:(lia)) as Hn.
  pose proof (Z.mod_pos_bound n d Hd) as Hr.
  set (q := n / d) in *. set (r := n mod d) in *.
  assert (2 * r <> d) as Hne.
  { intros Heq. apply Hmid. exists q. unfold n in Hn. nia. }
  destruct (Z.ltb_spec (2 * r) d); [nia|].
  destruct (Z.ltb_spec d (2 * r)); [nia|lia].
Qed.

(** C6. With no attempt the success rate is the integer 0 and nothing is
    divided (first part). Otherwise, for every run of fewer than [2 ^ 39]
    attempts, it is a one-decimal value within a twentieth of the exact
    ratio (second part), hence the exact ratio rounded to one decimal
    unless the ratio lies midway between two one-decimal values (third
    part). The counts (7, 2, 1) give 90.0 and (0, 0, 0) give 0. *)
Theorem success_rate_is_a_nearest_tenth :
  (forall st, counted st = 0%nat -> success_rate_percent st = Some (PyInt 0)) /\
  (forall st, (0 < counted st)%nat -> Z.of_nat (counted st) < 2 ^ 39 ->
     exists t,
       success_rate_percent st = Some (PyFloat (of_tenths t)) /\
       nearest_tenths (Public.downloaded_count st + Public.skipped_count st)
         (counted st) t) /\
  (forall st, (0 < counted st)%nat -> Z.of_nat (counted st) < 2 ^ 39 ->
     ~ midway (Public.downloaded_count st + Public.skipped_count st) (counted st) ->
     success_rate_percent st = Some (specified_rate round_half_even st)) /\
  success_rate_percent (Public.Stats 7 2 1 1) = Some (PyFloat 90) /\
  success_rate_percent (Public.Stats 0 0 0 0) = Some (PyInt 0).
Proof.
  assert (forall st, (0 < counted st)%nat -> Z.of_nat (counted st) < 2 ^ 39 ->
     exists t,
       success_rate_percent st = Some (PyFloat (of_tenths t)) /\
       nearest_tenths (Public.downloaded_count st + Public.skipped_count st)
         (counted st) t) as Hnear.
  { intros [d s f m]. unfold counted.
    cbn [Public.downloaded_count Public.skipped_count Public.failed_count].
    intros Hb Hlim. rewrite rate_depends_on_totals.
    apply rate_is_nearest; lia. }
  split; [|split; [|split; [|split]]].
  - intros [d s f m]. unfold counted, success_rate_percent. simpl. intros H0.
    rewrite H0. reflexivity.
  - exact Hnear.
  - intros st Hb Hlim Hmid. destruct (Hnear st Hb Hlim) as (t & -> & Ht).
    apply nearest_tenths_unique in Ht; [|lia|done].
    unfold specified_rate.
    destruct (Nat.ltb_spec 0 (counted st)); [|lia]. by rewrite Ht.
  - vm_compute. reflexivity.
  - reflexivity.
Qed.

Lemma success_rate_is_a_nearest_tenth_witness :
  success_rate_percent (Public.Stats 0 0 0 0) = Some (PyInt 0) /\
  (exists t,
      success_rate_percent (Public.Stats 7 2 1 1) = Some (PyFloat (of_tenths t)) /\
      nearest_tenths 9 10 t) /\
  success_rate_percent (Public.Stats 1 1 1 1)
    = Some (specified_rate round_half_even (Public.Stats 1 1 1 1)).
Proof.
  split; [|split].
  - apply (proj1 success_rate_is_a_nearest_tenth (Public.Stats 0 0 0 0)).
    reflexivity.
  - apply (proj1 (proj2 success_rate_is_a_nearest_tenth) (Public.Stats 7 2 1 1)).
    + vm_compute. lia.
    + reflexivity.
  - apply (proj1 (proj2 (proj2 success_rate_is_a_nearest_tenth))
             (Public.Stats 1 1 1 1)).
    + vm_compute. lia.
    + reflexivity.
    + intros [k Hk]. cbn in Hk. lia.
Defined.

(** Where the rate is not the exact ratio rounded: 23 successes out of 80
    attempts are 28.75 percent, which rounds to 28.8 with ties to even as
    with ties upwards, and the rate stored is 28.7, because the binary64
    product falls just below 28.75. Out of 80 attempts 49 successes, 61.25
    percent, are stored as 61.3, so that the value midway is not always
    rounded down either. *)
Lemma success_rate_is_not_the_ratio_rounded :
  success_rate_percent (Public.Stats 23 0 57 57) = Some (PyFloat (of_tenths 287)) /\
  success_rate_percent (Public.Stats 23 0 57 57)
    <> Some (specified_rate round_half_even (Public.Stats 23 0 57 57)) /\
  success_rate_percent (Public.Stats 23 0 57 57)
    <> Some (specified_rate round_half_up (Public.Stats 23 0 57 57)) /\
  success_rate_percent (Public.Stats 49 0 31 31) = Some (PyFloat (of_tenths 613)) /\
  success_rate_percent (Public.Stats 49 0 31 31)
    <> Some (specified_rate round_half_even (Public.Stats 49 0 31 31)).
Proof.
  split; [|split; [|split; [|split]]].
  - vm_compute. reflexivity.
  - intros H. apply (f_equal as_spec_float) in H.
    vm_compute in H. discriminate H.
  - intros H. apply (f_equal as_spec_float) in H.
    vm_compute in H. discriminate H.
  - vm_compute. reflexivity.
  - intros H. apply (f_equal as_spec_float) in H.
    vm_compute in H. discriminate H.
Qed.

(** * Part III. Further properties of the code *)

(** ** Further properties of the paginator *)

Lemma page_sleeps_events (page k : nat) :
  page_sleeps (page_events page k) = replicate k 500.
Proof.
  unfold page_events, page_sleeps. revert page.
  induction k as [|k IH]; intros page; [reflexivity|].
  simpl. f_equal. replace (page + S k)%nat with (S page + k)%nat by lia. apply IH.
Qed.

Lemma full_page_not_stop {Obs} (per_page : Z) (r : page_response Obs) :
  full_page per_page r -> stop_page per_page r -> False.
Proof.
  intros (rs & -> & Hne & Hlen) [[?|(rs' & Heq & [->|Hlt])]|?]; try done.
  - by injection Heq as ->.
  - injection Heq as ->. lia.
Qed.

(** X1. Whenever the walk returns, it has paused 0.5 s exactly once
    between two consecutive page requests and not after the last one. *)
Theorem page_requests_are_paced :
  forall Obs (endpoint : nat -> page_response Obs) (per_page : Z) (budget : nat)
         observations log,
    get_observations endpoint per_page budget = Some (observations, log) ->
    exists n,
      log = flat_map (fun p => [PageRequest p; PageSleep 500]) (seq 1 n)
              ++ [PageRequest (S n)] /\
      page_sleeps log = replicate n 500 /\
      length (requested_pages log) = S (length (page_sleeps log)).
Proof.
  intros Obs endpoint per_page budget observations log Hrun.
  apply get_observations_loop_inv in Hrun as (k & _ & _ & _ & _ & ->).
  exists k. simpl app. split; [reflexivity|].
  rewrite page_sleeps_events, requested_pages_events.
  split; [done|]. by rewrite length_seq, length_replicate.
Qed.

Lemma page_requests_are_paced_witness :
  exists n log,
    get_observations mock_endpoint 200 3 = Some (seq 0 550, log) /\
    page_sleeps log = replicate n 500 /\
    length (requested_pages log) = S (length (page_sleeps log)).
Proof.
  destruct (page_requests_are_paced nat mock_endpoint 200 3%nat (seq 0 550)
              (page_events 1 2)) as (n & Hlog & Hsl & Hlen).
  - vm_compute. reflexivity.
  - exists n, (page_events 1 2). split; [vm_compute; reflexivity|]. by split.
Defined.

(** X2. Nothing but an empty page, a short page or an error ends the
    walk: against an endpoint whose pages are all full, no budget of
    iterations is enough. *)
Theorem endless_full_pages_never_return :
  forall Obs (endpoint : nat -> page_response Obs) (per_page : Z),
    (forall i, (1 <= i)%nat -> full_page per_page (endpoint i)) ->
    forall budget, get_observations endpoint per_page budget = None.
Proof.
  intros Obs endpoint per_page Hfull budget.
  destruct (get_observations endpoint per_page budget) as [[obs log]|] eqn:Hrun;
    [|done].
  apply get_observations_loop_inv in Hrun as (k & _ & _ & Hstop & _).
  destruct (full_page_not_stop per_page (endpoint (1 + k)%nat)); auto.
  apply Hfull. lia.
Qed.

Lemma endless_full_pages_never_return_witness :
  get_observations endless_endpoint 2 50 = None.
Proof.
  apply (endless_full_pages_never_return nat endless_endpoint 2).
  intros i _. exists [i; i]. split; [reflexivity|]. split; [discriminate|].
  simpl. lia.
Defined.

(** ** Further properties of the public image fetcher *)

(** X3. A call that returns has changed no file but its destination,
    has requested no URL but its own, and returns either nothing or the
    destination path, which then exists. *)
Theorem download_touches_only_its_destination :
  forall h depth image_url output_dir filename w r w',
    Public.download_image h depth image_url output_dir filename w = Some (r, w') ->
    (forall p, p <> path_join output_dir filename -> disk w' !! p = disk w !! p) /\
    (forall u, u ∈ requested_urls (since w w') -> u = image_url) /\
    (r = None \/
     r = Some (path_join output_dir filename) /\
     is_Some (disk w' !! path_join output_dir filename)).
Proof.
  intros h depth image_url output_dir filename w r w' Hrun.
  apply download_image_inv in Hrun as (Hsub & Hoth & (extra & Htr & Hreq & _) & Hclk & Hr).
  destruct (grows_intro w w' extra Hsub Hclk Htr) as [_ ->]. done.
Qed.

Lemma download_touches_only_its_destination_witness :
  exists r w',
    Public.download_image demo_host 2 demo_url "./images" "obs_11_photo_1.jpg"
      demo_world = Some (r, w') /\
    disk w' !! "./images/obs_11_photo_0.jpg" = Some (File "old" 1000).
Proof.
  eexists _, _. split; [vm_compute; reflexivity|].
  destruct (download_touches_only_its_destination demo_host 2 demo_url "./images"
              "obs_11_photo_1.jpg" demo_world None
              (World {[ "./images/obs_11_photo_0.jpg" := File "old" 1000 ]} 900000
                 [Request demo_url])) as (Hoth & _).
  - vm_compute. reflexivity.
  - rewrite Hoth; [reflexivity|discriminate].
Defined.

(** X4. Every failure that is retried is followed by the pause of its
    class (60 s after a 429, 10 s after another status from 500 on or a
    connection error, 5 s after a timeout) and by one more request: [k]
    such failures and then the image make [k + 1] requests of the same
    URL, with exactly those pauses between them. *)
Theorem each_retried_failure_pauses_and_asks_again :
  forall h image_url output_dir filename depth w (es : list failure) data,
    disk w !! path_join output_dir filename = None ->
    Forall (fun e => retried e = true) es ->
    (forall i e, es !! i = Some e ->
       h (length (requested_urls (trace w)) + i)%nat image_url = Raised e) ->
    h (length (requested_urls (trace w)) + length es)%nat image_url = Body data ->
    (length es < depth)%nat ->
    exists w',
      Public.download_image h depth image_url output_dir filename w
        = Some (Some (path_join output_dir filename), w') /\
      requested_urls (trace w')
        = requested_urls (trace w) ++ replicate (S (length es)) image_url /\
      slept (trace w') = slept (trace w) ++ (pause <$> es) /\
      disk w' !! path_join output_dir filename = Some (File data (clock w')).
Proof.
  intros h image_url output_dir filename depth w es. revert depth w.
  induction es as [|e es IH]; intros depth w data Hf Hall Hes Hbody Hd.
  - destruct depth as [|depth]; [simpl in Hd; lia|].
    rewrite (download_image_absent h image_url output_dir filename depth w Hf).
    simpl in Hbody. rewrite Nat.add_0_r in Hbody. rewrite Hbody.
    eexists. split; [reflexivity|]. simpl.
    rewrite requested_urls_app. unfold slept. rewrite omap_app. simpl.
    rewrite !app_nil_r. rewrite lookup_insert_eq. done.
  - destruct depth as [|depth]; [simpl in Hd; lia|].
    rewrite (download_image_absent h image_url output_dir filename depth w Hf).
    pose proof (Hes O e eq_refl) as Hfirst.
    rewrite Nat.add_0_r in Hfirst. rewrite Hfirst.
    apply Forall_cons in Hall as [He Hall].
    rewrite on_exception_retried by done.
    destruct (IH depth (paused (pause e) (requested image_url w)) data)
      as (w' & Hrun & Hreq & Hsl & Hfile); simpl; try done.
    + intros i e' Hi. rewrite <- (Hes (S i) e' Hi). f_equal.
      rewrite !requested_urls_app, !length_app. simpl. lia.
    + rewrite <- Hbody. f_equal.
      rewrite !requested_urls_app, !length_app. simpl. lia.
    + simpl in Hd. lia.
    + exists w'. split; [exact Hrun|]. rewrite Hreq, Hsl. simpl.
      rewrite !requested_urls_app. unfold slept. rewrite !omap_app. simpl.
      rewrite !app_nil_r, <- !app_assoc. done.
Qed.

Lemma each_retried_failure_pauses_and_asks_again_witness :
  exists w',
    Public.download_image rough_start 4 demo_url "./images" "obs_11_photo_0.jpg"
      (new_world 0) = Some (Some "./images/obs_11_photo_0.jpg", w') /\
    requested_urls (trace w') = replicate 4 demo_url /\
    slept (trace w') = [10000; 5000; 60000] /\
    disk w' !! "./images/obs_11_photo_0.jpg" = Some (File "jpeg" (clock w')).
Proof.
  apply (each_retried_failure_pauses_and_asks_again rough_start demo_url "./images"
           "obs_11_photo_0.jpg" 4%nat (new_world 0)
           [HTTPError 503; Timeout; HTTPError 429] "jpeg").
  - reflexivity.
  - repeat constructor.
  - intros [|[|[|i]]] e Hi; simpl in Hi; try done; by injection Hi as <-.
  - reflexivity.
  - simpl. lia.
Defined.

(** X5. The file is opened before the body is copied and is never
    removed: when the stream breaks after the file was opened, what was
    written stays. If the error is one that is not retried the call
    returns nothing, and any later call for the same destination returns
    the path of the truncated file without a request; if the error is
    retried, the retry itself finds the truncated file and returns its
    path after the one request that failed. *)
Theorem truncated_file_is_taken_for_the_image :
  forall h h' depth depth' image_url output_dir filename w written e,
    disk w !! path_join output_dir filename = None ->
    h (length (requested_urls (trace w))) image_url = Broken written e ->
    let path := path_join output_dir filename in
    let w1 := stored path written (requested image_url w) in
    disk w1 !! path = Some (File written (clock w)) /\
    (retried e = false ->
       Public.download_image h (S depth) image_url output_dir filename w
         = Some (None, w1) /\
       Public.download_image h' (S depth') image_url output_dir filename w1
         = Some (Some path, w1)) /\
    (retried e = true ->
       Public.download_image h (S (S depth)) image_url output_dir filename w
         = Some (Some path, paused (pause e) w1)).
Proof.
  intros h h' depth depth' image_url output_dir filename w written e Hf Hans.
  cbv zeta.
  set (w1 := stored (path_join output_dir filename) written (requested image_url w)).
  assert (Hfile : disk w1 !! path_join output_dir filename
                  = Some (File written (clock w))).
  { subst w1. simpl. by rewrite lookup_insert_eq. }
  split; [exact Hfile|]. split.
  - intros Hre. split.
    + rewrite (download_image_absent h image_url output_dir filename depth w Hf), Hans.
      fold w1. by rewrite on_exception_final.
    + by rewrite (download_image_present h' image_url output_dir filename depth' w1 _ Hfile).
  - intros Hre.
    rewrite (download_image_absent h image_url output_dir filename (S depth) w Hf), Hans.
    fold w1. rewrite on_exception_retried by done.
    by rewrite (download_image_present h image_url output_dir filename depth
                  (paused (pause e) w1) (File written (clock w))).
Qed.

Lemma truncated_file_is_taken_for_the_image_witness :
  (exists w1,
      Public.download_image cut_off 1 demo_url "./images" "obs_11_photo_0.jpg"
        (new_world 0) = Some (None, w1) /\
      Public.download_image not_found 1 demo_url "./images" "obs_11_photo_0.jpg" w1
        = Some (Some "./images/obs_11_photo_0.jpg", w1) /\
      disk w1 !! "./images/obs_11_photo_0.jpg" = Some (File "jp" 0)) /\
  (exists w2,
      Public.download_image cut_off_retried 2 demo_url "./images"
        "obs_11_photo_0.jpg" (new_world 0)
      = Some (Some "./images/obs_11_photo_0.jpg", w2) /\
      requested_urls (trace w2) = [demo_url]).
Proof.
  split.
  - destruct (truncated_file_is_taken_for_the_image cut_off not_found 0%nat 0%nat
                demo_url "./images" "obs_11_photo_0.jpg" (new_world 0) "jp"
                OtherException eq_refl eq_refl) as (Hfile & Hfinal & _).
    destruct (Hfinal eq_refl) as [H1 H2].
    eexists. split; [exact H1|]. split; [exact H2|exact Hfile].
  - destruct (truncated_file_is_taken_for_the_image cut_off_retried not_found 0%nat
                0%nat demo_url "./images" "obs_11_photo_0.jpg" (new_world 0) "jp"
                ConnectionError eq_refl eq_refl) as (_ & _ & Hretry).
    eexists. split; [exact (Hretry eq_refl)|]. reflexivity.
Defined.

(** ** The authenticated per-photo step *)

Lemma truthy_py_or (a b : option string) :
  truthy (py_or a b) = truthy a || truthy b.
Proof. unfold py_or. by destruct (truthy a) eqn:Ha; [rewrite Ha|]. Qed.

Lemma direct_image_url_truthy (q : image_quality) (p : photo) :
  truthy (original_url p) = true -> truthy (Auth.direct_image_url q p) = true.
Proof.
  intros Ho. destruct q; simpl; rewrite !truthy_py_or, Ho;
    by rewrite ?orb_true_r, ?orb_true_l.
Qed.

(** X6. With a token and an [original_url], one URL is chosen and asked
    for exactly once: the photo counts when the body arrives whole, and
    when that one request fails no other tier is tried. *)
Theorem direct_mode_asks_once_and_never_falls_back :
  forall h access_token args id j p downloaded_count w,
    Auth.direct access_token p = true ->
    exists u w',
      Auth.direct_image_url (quality args) p = Some u /\
      u <> "" /\
      Auth.process_photo h access_token args id j p downloaded_count w
      = Some (match h (length (requested_urls (trace w))) u with
              | Body _ => (S downloaded_count, Some (destination args id j))
              | _ => (downloaded_count, None)
              end, w') /\
      trace w' = trace w ++ [Request u].
Proof.
  intros h token args oid j p count w Hd.
  pose proof Hd as Hd'. unfold Auth.direct in Hd'.
  apply andb_true_iff in Hd' as [_ Ho].
  pose proof (direct_image_url_truthy (quality args) p Ho) as Hu.
  destruct (Auth.direct_image_url (quality args) p) as [u|] eqn:Eu; [|done].
  assert (u <> "") as Hne.
  { simpl in Hu. intros ->. by rewrite bool_decide_eq_true_2 in Hu. }
  exists u. unfold Auth.process_photo. rewrite Hd, Eu, Hu. cbn [default from_option id].
  change (path_join (images_dir args) (photo_filename oid j))
    with (destination args oid j).
  unfold Auth.download_image, mbind, io_bind, session_get, write_file, mret, io_ret.
  change (path_join (images_dir args) (photo_filename oid j))
    with (destination args oid j).
  destruct (h (length (requested_urls (trace w))) u) as [data|written e|e].
  - rewrite destination_truthy. eexists. split; [done|]. split; [done|].
    split; reflexivity.
  - eexists. split; [done|]. split; [done|]. split; reflexivity.
  - eexists. split; [done|]. split; [done|]. split; reflexivity.
Qed.

Lemma direct_mode_asks_once_and_never_falls_back_witness :
  exists w',
    Auth.process_photo not_found (Some "token") small_args 11 0 full_photo 0 (new_world 0)
    = Some ((0%nat, None), w') /\
    trace w' = [Request "https://static/501/small.jpg"].
Proof.
  destruct (direct_mode_asks_once_and_never_falls_back not_found (Some "token")
              small_args 11 0%nat full_photo 0%nat (new_world 0) eq_refl)
    as (u & w' & Hu & _ & Hrun & Htr).
  injection Hu as <-. exists w'. split; [exact Hrun|exact Htr].
Defined.

(** ** Further properties of the loops of [main] *)

Lemma for_observation_length h depth args (os : list observation) :
  forall st w st' paths w',
    Public.for_observation h depth args os st w = Some ((st', paths), w') ->
    length paths = length os.
Proof.
  induction os as [|o os IH]; intros st w st' paths w' Hrun.
  - by injection Hrun as <- <- <-.
  - cbn [Public.for_observation] in Hrun. unfold mbind, io_bind in Hrun.
    destruct (Public.process_observation h depth args o st w)
      as [[[st1 lps] w1]|]; [|done].
    destruct (Public.for_observation h depth args os st1 w1)
      as [[[st2 more] w2]|] eqn:Hos; [|done].
    injection Hrun as <- <- <-. simpl. f_equal. by eapply IH.
Qed.

Lemma slice_to_length {A} (n : Z) (l : list A) :
  Z.of_nat (length (slice_to n l))
  = if 0 <=? n then Z.min n (Z.of_nat (length l))
    else Z.max 0 (Z.of_nat (length l) + n).
Proof.
  unfold slice_to. destruct (Z.leb_spec 0 n); rewrite length_take; lia.
Qed.

Lemma take_length_take {A} (k : nat) (l : list A) :
  take (length (take k l)) l = take k l.
Proof.
  rewrite length_take. destruct (Nat.le_gt_cases k (length l)).
  - by rewrite Nat.min_l.
  - rewrite Nat.min_r by lia. rewrite !take_ge; [done|lia|lia].
Qed.

(** X7. [--max-observations n] with [n > 0] limits the run to the first
    [n] observations; [0] or no value limits nothing; a negative [n]
    leaves out the last [-n] observations. One record is produced per
    observation that is kept. *)
Theorem max_observations_bounds_the_run :
  forall h depth json_dump args observations w st paths w',
    Public.main h depth json_dump args observations w
      = Some (Some (st, paths), w') ->
    limited args observations
      = take (length paths) observations /\
    Z.of_nat (length paths)
      = match max_observations args with
        | None => Z.of_nat (length observations)
        | Some n =>
            if n =? 0 then Z.of_nat (length observations)
            else if 0 <? n then Z.min n (Z.of_nat (length observations))
            else Z.max 0 (Z.of_nat (length observations) + n)
        end.
Proof.
  intros h depth json_dump args observations w st paths w' Hrun.
  apply main_inv in Hrun as (w1 & Hrun & _).
  apply for_observation_length in Hrun. rewrite Hrun.
  split.
  - unfold limited.
    destruct (max_observations args) as [n|]; [|by rewrite firstn_all].
    destruct (n =? 0); [by rewrite firstn_all|].
    unfold slice_to. destruct (0 <=? n); by rewrite take_length_take.
  - unfold limited.
    destruct (max_observations args) as [n|]; [|done].
    destruct (Z.eqb_spec n 0) as [->|Hn]; [done|].
    rewrite slice_to_length.
    destruct (Z.leb_spec 0 n), (Z.ltb_spec 0 n); lia.
Qed.

Lemma max_observations_bounds_the_run_witness :
  exists st paths w',
    Public.main demo_host 4 demo_dump
      (Arguments_ "./images" true Best (Some 1) "inaturalist_metadata.json")
      demo_observations demo_world = Some (Some (st, paths), w') /\
    length paths = 1%nat.
Proof.
  destruct (Public.main demo_host 4 demo_dump
              (Arguments_ "./images" true Best (Some 1) "inaturalist_metadata.json")
              demo_observations demo_world) as [[[[st paths]|] w']|] eqn:Hrun.
  - exists st, paths, w'. split; [done|].
    apply max_observations_bounds_the_run in Hrun as [_ Hlen].
    simpl in Hlen. lia.
  - vm_compute in Hrun. discriminate Hrun.
  - vm_compute in Hrun. discriminate Hrun.
Defined.

(** X8. Every [local_path] that a run records is the path
    [images_dir/obs_<id>_photo_<j>.jpg] of its own photo, and the file is
    on disk when the run ends; the records are lined up with the
    observations that were processed and with their photos. *)
Theorem recorded_local_paths_exist :
  forall h depth json_dump args observations w st paths w',
    Public.main h depth json_dump args observations w
      = Some (Some (st, paths), w') ->
    length paths = length (limited args observations) /\
    forall i o, limited args observations !! i = Some o ->
      exists local_paths,
        paths !! i = Some local_paths /\
        length local_paths = length (photos o) /\
        forall j path, local_paths !! j = Some (Some path) ->
          path = destination args (observation_id o) j /\
          is_Some (disk w' !! path).
Proof.
  intros h depth json_dump args observations w st paths w' Hrun.
  apply main_inv in Hrun as (w1 & Hrun & ->). split.
  - by eapply for_observation_length.
  - apply for_observation_inv in Hrun as (_ & _ & _ & Hpaths).
    intros i o Hi. destruct (Hpaths i o Hi) as (lps & Hlps & Hlen & Hfile).
    exists lps. split; [done|]. split; [done|].
    intros j path Hj. destruct (Hfile j path Hj) as [-> Hsome].
    split; [done|]. cbn [stored disk].
    by apply lookup_insert_is_Some'; right.
Qed.

Lemma recorded_local_paths_exist_witness :
  exists st paths w',
    Public.main demo_host 4 demo_dump demo_args demo_observations demo_world
      = Some (Some (st, paths), w') /\
    paths = [[Some "./images/obs_11_photo_0.jpg"; Some "./images/obs_11_photo_1.jpg"];
             [None]] /\
    is_Some (disk w' !! "./images/obs_11_photo_1.jpg").
Proof.
  destruct (Public.main demo_host 4 demo_dump demo_args demo_observations demo_world)
    as [[[[st paths]|] w']|] eqn:Hrun.
  - exists st, paths, w'. split; [done|].
    pose proof Hrun as Hrun'.
    apply recorded_local_paths_exist in Hrun' as [_ Hpaths].
    destruct (Hpaths 0%nat _ eq_refl) as (lps & Hlps & _ & Hfile).
    vm_compute in Hrun. injection Hrun as <- <- <-.
    split; [reflexivity|].
    injection Hlps as <-.
    by destruct (Hfile 1%nat _ eq_refl) as [_ Hex].
  - vm_compute in Hrun. discriminate Hrun.
  - vm_compute in Hrun. discriminate Hrun.
Defined.

Lemma for_photo_failed h depth args id (ps : list photo) :
  forall j st w st' local_paths w',
    Public.for_photo h depth args id j ps st w = Some ((st', local_paths), w') ->
    Public.failed_count st'
      = (Public.failed_count st + length (filter (fun lp => lp = None) local_paths))%nat /\
    Public.missing_photos_count st'
      = (Public.missing_photos_count st
         + length (filter (fun lp => lp = None) local_paths))%nat.
Proof.
  induction ps as [|p ps IH]; intros j st w st' lps w' Hrun.
  - injection Hrun as <- <- <-. simpl. lia.
  - cbn [Public.for_photo] in Hrun. unfold mbind, io_bind in Hrun.
    destruct (Public.process_photo h depth args id j p st w)
      as [[[st1 lp] w1]|] eqn:Hp; [|done].
    destruct (Public.for_photo h depth args id (S j) ps st1 w1)
      as [[[st2 lps2] w2]|] eqn:Hps; [|done].
    injection Hrun as <- <- <-.
    apply process_photo_inv in Hp as (_ & _ & _ & Hout).
    apply IH in Hps as [Hf Hm]. rewrite Hf, Hm.
    destruct Hout as [(-> & f & _ & ->)|[-> ->]].
    + rewrite filter_cons_False by done.
      destruct (clock w1 - st_mtime f <? 10000); simpl; lia.
    + rewrite filter_cons_True by done. simpl. lia.
Qed.

Lemma for_observation_failed h depth args (os : list observation) :
  download_images args = true ->
  forall st w st' paths w',
    Public.for_observation h depth args os st w = Some ((st', paths), w') ->
    Public.failed_count st' = (Public.failed_count st + unresolved paths)%nat /\
    Public.missing_photos_count st'
      = (Public.missing_photos_count st + unresolved paths)%nat.
Proof.
  intros Hdl. unfold unresolved.
  induction os as [|o os IH]; intros st w st' paths w' Hrun.
  - injection Hrun as <- <- <-. simpl. lia.
  - cbn [Public.for_observation] in Hrun. unfold mbind, io_bind in Hrun.
    destruct (Public.process_observation h depth args o st w)
      as [[[st1 lps] w1]|] eqn:Ho; [|done].
    destruct (Public.for_observation h depth args os st1 w1)
      as [[[st2 more] w2]|] eqn:Hos; [|done].
    injection Hrun as <- <- <-.
    apply IH in Hos as [Hf Hm]. rewrite Hf, Hm.
    simpl concat. rewrite filter_app, length_app.
    unfold Public.process_observation in Ho.
    destruct (extract_species_metadata (raw o)) as [observation_metadata|e];
      [|done].
    rewrite Hdl in Ho. simpl in Ho.
    destruct (bool_decide (photos o = [])) eqn:Hemp; simpl in Ho.
    + apply bool_decide_eq_true in Hemp. rewrite Hemp in Ho.
      injection Ho as <- <- <-. simpl. lia.
    + apply for_photo_failed in Ho as [Hf1 Hm1]. lia.
Qed.

(** X9. With downloads switched on, [images_failed] is exactly the
    number of photos that were left without a [local_path], and the
    second counter [missing_photos_count] never differs from it. *)
Theorem failed_count_is_the_photos_without_local_path :
  forall h depth json_dump args observations w st paths w',
    download_images args = true ->
    Public.main h depth json_dump args observations w
      = Some (Some (st, paths), w') ->
    Public.failed_count st = unresolved paths /\
    Public.missing_photos_count st = Public.failed_count st.
Proof.
  intros h depth json_dump args observations w st paths w' Hdl Hrun.
  apply main_inv in Hrun as (w1 & Hrun & _).
  apply for_observation_failed in Hrun as [Hf Hm]; [|done].
  simpl in Hf, Hm. lia.
Qed.

Lemma failed_count_is_the_photos_without_local_path_witness :
  exists st paths w',
    Public.main demo_host 4 demo_dump demo_args demo_observations demo_world
      = Some (Some (st, paths), w') /\
    Public.failed_count st = unresolved paths /\
    Public.missing_photos_count st = Public.failed_count st.
Proof.
  destruct (Public.main demo_host 4 demo_dump demo_args demo_observations demo_world)
    as [[[[st paths]|] w']|] eqn:Hrun.
  - exists st, paths, w'. split; [done|].
    by apply (failed_count_is_the_photos_without_local_path demo_host 4%nat
                demo_dump demo_args demo_observations demo_world st paths w').
  - vm_compute in Hrun. discriminate Hrun.
  - vm_compute in Hrun. discriminate Hrun.
Defined.

(** ** The filters and the request parameters *)

Lemma dict_get_app {V} (key : string) (l1 l2 : list (string * V)) :
  dict_get key (l1 ++ l2)
  = match dict_get key l1 with
    | Some v => Some v
    | None => dict_get key l2
    end.
Proof.
  induction l1 as [|[k v] l1 IH]; [done|]. simpl.
  by destruct (bool_decide (k = key)).
Qed.

Lemma dict_get_add_if (present : bool) (k key : string) (v : param)
    (params : list (string * param)) :
  dict_get key (add_if present k v params)
  = match dict_get key params with
    | Some x => Some x
    | None => if present && bool_decide (k = key) then Some v else None
    end.
Proof.
  unfold add_if. destruct present; simpl.
  - rewrite dict_get_app. simpl. by destruct (bool_decide (k = key)).
  - by destruct (dict_get key params).
Qed.

(** X10. What the filter switches put into every page request:
    [has_photos] and [identified] are always sent as true;
    [--wild-only] is sent as [captive = False] (the false value is not
    dropped) unless [--captive-only] is given too, which wins; of
    [introduced]/[native] and of [threatened]/[endemic] at most one is
    sent, the first of each pair winning. *)
Theorem switches_reach_the_request :
  forall lat lon radius_km per_page page quality_grade iconic_taxon_id
         observed_since observed_before s,
    let params := request_params lat lon radius_km per_page page quality_grade
                    iconic_taxon_id observed_since observed_before
                    (prepare_filters s) in
    dict_get "has_photos" params = Some (PBool true) /\
    dict_get "identified" params = Some (PBool true) /\
    dict_get "page" params = Some (PInt page) /\
    dict_get "per_page" params = Some (PInt per_page) /\
    dict_get "captive" params
      = (if captive_only s then Some (PBool true)
         else if wild_only s then Some (PBool false) else None) /\
    dict_get "introduced" params
      = (if introduced_only s then Some (PBool true) else None) /\
    dict_get "native" params
      = (if introduced_only s then None
         else if native_only s then Some (PBool true) else None) /\
    dict_get "threatened" params
      = (if threatened_only s then Some (PBool true) else None) /\
    dict_get "endemic" params
      = (if threatened_only s then None
         else if endemic_only s then Some (PBool true) else None).
Proof.
  intros lat lon radius_km per_page page quality_grade iconic_taxon_id
    observed_since observed_before [c wi i n t e].
  cbv zeta. unfold request_params, prepare_filters. cbv zeta.
  cbn [captive introduced native threatened endemic
       captive_only wild_only introduced_only native_only threatened_only
       endemic_only].
  repeat split; rewrite !dict_get_add_if; cbn [dict_get];
    repeat (rewrite ?bool_decide_eq_true_2 by done;
            rewrite ?bool_decide_eq_false_2 by done);
    rewrite ?andb_false_r, ?andb_true_r; try done;
    destruct c, wi, i, n, t, e; reflexivity.
Qed.

(** X11. Every name that [--iconic-taxon] accepts is in the table with an
    id that is not zero, so the id is sent with the request and the
    warning for an unknown taxon cannot be reached; two names never share
    an id. *)
Theorem every_iconic_taxon_choice_is_sent :
  forall name lat lon radius_km per_page page quality_grade
         observed_since observed_before f,
    name ∈ iconic_taxon_choices ->
    exists n,
      prepare_iconic_taxon (Some name) = Some n /\
      n <> 0 /\
      dict_get "iconic_taxon_id"
        (request_params lat lon radius_km per_page page quality_grade (Some n)
           observed_since observed_before f) = Some (PInt n) /\
      forall name', prepare_iconic_taxon (Some name') = Some n -> name' = name.
Proof.
  intros name lat lon radius_km per_page page quality_grade
    observed_since observed_before f Hname.
  assert (Hinj : forall n name',
    dict_get name iconic_taxon_map = Some n ->
    prepare_iconic_taxon (Some name') = Some n -> name' = name).
  { intros n name' Hn Hn'. unfold prepare_iconic_taxon in Hn'.
    destruct (truthy (Some name')); [|done]. cbn [default from_option id] in Hn'.
    unfold iconic_taxon_map in *. cbn [dict_get] in Hn, Hn'.
    repeat (case_bool_decide; [subst name'|]); try done;
      repeat (case_bool_decide; [subst name|]); try done;
      vm_compute in Hn; congruence. }
  unfold iconic_taxon_choices in Hname.
  repeat (apply elem_of_cons in Hname as [->|Hname]);
    [..|by apply elem_of_nil in Hname];
    (eexists; split; [reflexivity|]; split; [done|]; split;
     [unfold request_params; cbv zeta; rewrite !dict_get_add_if; cbn [dict_get];
      repeat (rewrite ?bool_decide_eq_true_2 by done;
              rewrite ?bool_decide_eq_false_2 by done);
      rewrite ?andb_false_r, ?andb_true_r; reflexivity
     |intros name'; by apply Hinj]).
Qed.

Lemma every_iconic_taxon_choice_is_sent_witness :
  exists n,
    prepare_iconic_taxon (Some "Fungi") = Some n /\ n = 47170.
Proof.
  destruct (every_iconic_taxon_choice_is_sent "Fungi" 0%float 0%float 1%float 200 1
              None None None (prepare_filters wild_switches))
    as (n & Hn & _).
  - unfold iconic_taxon_choices. repeat (first [apply list_elem_of_here | apply list_elem_of_further]).
  - exists n. split; [exact Hn|]. vm_compute in Hn. by injection Hn as <-.
Defined.

(** ** The shape of the normalized record *)

Lemma project_keys (receiver : json) (keys : list string) :
  forall fs, project receiver keys = Ok fs -> fst <$> fs = keys.
Proof.
  induction keys as [|k ks IH]; intros fs Hp.
  - by injection Hp as <-.
  - cbn [project] in Hp. unfold mbind, result_bind in Hp.
    destruct (get receiver k); [|done].
    destruct (project receiver ks) as [more|]; [|done].
    injection Hp as <-. simpl. f_equal. by apply IH.
Qed.

Lemma for_each_length (f : json -> result json) (xs : list json) :
  forall ys, for_each f xs = Ok ys -> length ys = length xs.
Proof.
  induction xs as [|x xs IH]; intros ys Hf.
  - by injection Hf as <-.
  - cbn [for_each] in Hf. unfold mbind, result_bind in Hf.
    destruct (f x); [|done]. destruct (for_each f xs) as [more|]; [|done].
    injection Hf as <-. simpl. f_equal. by apply IH.
Qed.

(** The guarded loops keep one record per element of a list. *)
Lemma guarded_loop_length (f : json -> result json) items key ys :
  (has ← get (JDict items) key;
   if truth has
   then xs ← item (JDict items) key; xs ← iterate xs; for_each f xs
   else Ok []) = Ok ys ->
  match assoc key items with
  | Some (JList xs) => length ys = length xs
  | Some (JString _) | Some (JDict _) => True
  | _ => ys = []
  end.
Proof.
  cbn [get get_or item]. unfold mbind, result_bind.
  destruct (assoc key items) as [v|]; cbn [default from_option id truth].
  - destruct (truth v) eqn:Hv.
    + destruct v as [| | | | |xs|]; cbn [iterate]; try done.
      apply for_each_length.
    + intros Hy. injection Hy as <-. destruct v as [| | | | |xs|]; try done.
      simpl in Hv. apply negb_false_iff, bool_decide_eq_true in Hv. by subst xs.
  - intros Hy. by injection Hy as <-.
Qed.

Lemma assoc_app (key : string) (l1 l2 : list (string * json)) :
  assoc key (l1 ++ l2)
  = match assoc key l1 with
    | Some v => Some v
    | None => assoc key l2
    end.
Proof.
  induction l1 as [|[k v] l1 IH]; [done|]. simpl.
  by destruct (bool_decide (k = key)).
Qed.

Lemma assoc_not_in (key : string) (items : list (string * json)) :
  key ∉ fst <$> items -> assoc key items = None.
Proof.
  induction items as [|[k v] items IH]; [done|]. simpl. intros Hk.
  apply not_elem_of_cons in Hk as [Hne Hk].
  rewrite bool_decide_eq_false_2 by done. by apply IH.
Qed.

Lemma not_a_head_key (key : string) (keys : list string) :
  bool_decide (key ∈ keys) = false -> key ∉ keys.
Proof. apply bool_decide_eq_false_1. Qed.

(** X12. Whatever the record looks like, a normalization that returns
    yields a dict with the same 27 keys in the same order; its photo list
    has one entry per photo of the input list, and likewise for the
    identifications. *)
Theorem normalized_record_has_a_fixed_shape :
  forall items metadata,
    extract_species_metadata (JDict items) = Ok metadata ->
    exists fields photos idents,
      metadata = JDict fields /\
      fst <$> fields = metadata_keys /\
      assoc "photos" fields = Some (JList photos) /\
      assoc "identifications" fields = Some (JList idents) /\
      (forall xs, assoc "photos" items = Some (JList xs) -> length photos = length xs) /\
      (forall xs, assoc "identifications" items = Some (JList xs) ->
                  length idents = length xs).
Proof.
  intros items metadata. unfold extract_species_metadata.
  unfold mbind at 1 2 3 4 5 6 7 8, result_bind at 1 2 3 4 5 6 7 8.
  cbn [get get_or].
  destruct (project (JDict items) _) as [fs|] eqn:Hfs; [|done].
  destruct (project_user (JDict items) _) as [us|] eqn:Hus; [|done].
  match goal with
  | |- context [match ?sp with Ok _ => _ | Raise _ => _ end] =>
      lazymatch sp with
      | (if truth _ then _ else Ok JNull) => destruct sp as [species|] eqn:Hsp; [|done]
      end
  end.
  destruct (has ← get (JDict items) "photos";
            if truth has
            then xs ← item (JDict items) "photos"; xs ← iterate xs;
                 for_each photo_info xs
            else Ok []) as [photos|] eqn:Hph.
  2:{ unfold mbind, result_bind in *. cbn [get get_or] in Hph.
      intros H. rewrite Hph in H. done. }
  destruct (has ← get (JDict items) "identifications";
            if truth has
            then xs ← item (JDict items) "identifications"; xs ← iterate xs;
                 for_each ident_info xs
            else Ok []) as [idents|] eqn:Hid.
  2:{ unfold mbind, result_bind in *. cbn [get get_or] in Hph, Hid.
      intros H. rewrite Hph, Hid in H. done. }
  pose proof (guarded_loop_length _ _ _ _ Hph) as Lph.
  pose proof (guarded_loop_length _ _ _ _ Hid) as Lid.
  unfold mbind, result_bind in *. cbn [get get_or] in Hph, Hid.
  rewrite Hph, Hid. intros H. injection H as <-.
  apply project_keys in Hfs.
  eexists _, photos, idents. split; [reflexivity|]. split; [|split; [|split; [|split]]].
  - rewrite fmap_cons, fmap_app, Hfs. reflexivity.
  - cbn [assoc app]. rewrite bool_decide_eq_false_2 by done.
    rewrite assoc_app, assoc_not_in; [|rewrite Hfs; apply not_a_head_key; reflexivity].
    reflexivity.
  - cbn [assoc app]. rewrite bool_decide_eq_false_2 by done.
    rewrite assoc_app, assoc_not_in; [|rewrite Hfs; apply not_a_head_key; reflexivity].
    reflexivity.
  - intros xs Hx. by rewrite Hx in Lph.
  - intros xs Hx. by rewrite Hx in Lid.
Qed.

Lemma normalized_record_has_a_fixed_shape_witness :
  exists fields photos,
    extract_species_metadata plain_observation = Ok (JDict fields) /\
    fst <$> fields = metadata_keys /\
    assoc "photos" fields = Some (JList photos) /\
    length photos = 1%nat.
Proof.
  destruct (extract_species_metadata plain_observation) as [metadata|e] eqn:Hrun;
    [|vm_compute in Hrun; discriminate Hrun].
  destruct (normalized_record_has_a_fixed_shape _ metadata Hrun)
    as (fields & photos & idents & -> & Hkeys & Hph & _ & Hlen & _).
  exists fields, photos. split; [reflexivity|]. split; [exact Hkeys|].
  split; [exact Hph|]. by apply (Hlen [JDict [("id", JInt 501)]]).
Defined.

(** ** File names *)

Lemma pretty_N_char_not (c : ascii) :
  free_of c "0123456789" = true -> forall d, pretty_N_char d <> c.
Proof.
  intros Hc d Hd. subst c. unfold pretty_N_char in Hc.
  repeat case_match; vm_compute in Hc; discriminate Hc.
Qed.

Lemma pretty_N_go_free (c : ascii) (x : N) :
  free_of c "0123456789" = true ->
  forall s, free_of c s = true -> free_of c (pretty_N_go x s) = true.
Proof.
  intros Hc. induction (N.lt_wf_0 x) as [x _ IH]; intros s Hs.
  assert (x = 0 \/ 0 < x)%N as [->|Hx] by lia.
  - by rewrite pretty_N_go_0.
  - rewrite pretty_N_go_step by done. apply IH.
    + by apply N.div_lt.
    + simpl. rewrite Hs, andb_true_r.
      apply negb_true_iff, bool_decide_eq_false. by apply pretty_N_char_not.
Qed.

Lemma pretty_N_free (c : ascii) (x : N) :
  free_of c "0123456789" = true -> free_of c (pretty x) = true.
Proof.
  intros Hc. unfold pretty, pretty_N. case_decide.
  - simpl in *. by destruct (bool_decide ("0"%char = c)).
  - by apply pretty_N_go_free.
Qed.

Lemma pretty_Z_free (c : ascii) (x : Z) :
  free_of c "-0123456789" = true -> free_of c (pretty x) = true.
Proof.
  intros Hc. simpl in Hc. apply andb_true_iff in Hc as [Hdash Hc].
  unfold pretty, pretty_Z. destruct x as [|p|p].
  - simpl in *. by destruct (bool_decide ("0"%char = c)).
  - by apply pretty_N_free.
  - change (free_of c (String "-" (pretty (Npos p))) = true). simpl.
    rewrite Hdash. by apply pretty_N_free.
Qed.

(** A string is cut in one way only at the first occurrence of a character. *)
Lemma cut_at_first (c : ascii) (a a' r r' : string) :
  free_of c a = true -> free_of c a' = true ->
  (a ++ String c r)%string = (a' ++ String c r')%string ->
  a = a' /\ r = r'.
Proof.
  revert a'. induction a as [|x a IH]; intros [|x' a'] Ha Ha' Heq; simpl in *.
  - by injection Heq as <-.
  - injection Heq as <- _. rewrite bool_decide_eq_true_2 in Ha' by done. done.
  - injection Heq as -> _. rewrite bool_decide_eq_true_2 in Ha by done. done.
  - injection Heq as <- Heq.
    apply andb_true_iff in Ha as [_ Ha]. apply andb_true_iff in Ha' as [_ Ha'].
    destruct (IH a' Ha Ha' Heq) as [-> ->]. done.
Qed.

Lemma photo_filename_inj (id id' : Z) (j j' : nat) :
  photo_filename id j = photo_filename id' j' -> id = id' /\ j = j'.
Proof.
  unfold photo_filename. intros Heq.
  apply (inj (String.app "obs_")) in Heq.
  change ("_photo_" ++ ?s)%string with (String "_" ("photo_" ++ s)%string) in Heq.
  apply (cut_at_first "_") in Heq as [Hid Heq];
    [|by apply pretty_Z_free|by apply pretty_Z_free].
  apply (inj pretty) in Hid. split; [done|].
  apply (inj (String.app "photo_")) in Heq.
  change ".jpg" with (String "." "jpg") in Heq.
  apply (cut_at_first ".") in Heq as [Hj _];
    [|by apply pretty_N_free|by apply pretty_N_free].
  by apply (inj pretty) in Hj.
Qed.

Lemma photo_filename_relative (id : Z) (j : nat) :
  String.prefix "/" (photo_filename id j) = false.
Proof. reflexivity. Qed.

(** X13. Two photos that differ in their observation id or in their
    index are saved under different paths: within one images directory
    the file of a photo is never the file of another. *)
Theorem different_photos_have_different_files :
  forall args id j id' j',
    (id, j) <> (id', j') ->
    destination args id j <> destination args id' j'.
Proof.
  intros args id j id' j' Hne Heq. apply Hne. revert Heq.
  unfold destination, path_join.
  rewrite !photo_filename_relative.
  destruct (bool_decide (images_dir args = "") || ends_with_slash (images_dir args));
    intros Heq.
  - apply (inj (String.app _)) in Heq. by apply photo_filename_inj in Heq as [-> ->].
  - apply (inj (String.app _)), (inj (String.app "/")) in Heq.
    by apply photo_filename_inj in Heq as [-> ->].
Qed.

Lemma different_photos_have_different_files_witness :
  destination demo_args 11 1 <> destination demo_args 111 0.
Proof.
  apply (different_photos_have_different_files demo_args 11 1%nat 111 0%nat).
  discriminate.
Defined.

(** ** The [.env] file *)

Lemma universal_newlines_one_line (a rest : string) :
  free_of "013" a = true ->
  universal_newlines (a ++ String "010" rest)
  = (a ++ String "010" (universal_newlines rest))%string.
Proof.
  induction a as [|c a IH]; intros Ha; simpl in *.
  - reflexivity.
  - apply andb_true_iff in Ha as [Hc Ha].
    apply negb_true_iff in Hc. rewrite Hc. by rewrite IH.
Qed.

Lemma lines_one_line (a rest : string) :
  free_of "010" a = true ->
  lines (a ++ String "010" rest) = (a ++ String "010" "")%string :: lines rest.
Proof.
  induction a as [|c a IH]; intros Ha; simpl in *.
  - reflexivity.
  - apply andb_true_iff in Ha as [Hc Ha].
    apply negb_true_iff in Hc. rewrite Hc. by rewrite IH.
Qed.

Lemma rstrip_app (a b : string) :
  rstrip (a ++ b)
  = match rstrip b with
    | EmptyString => rstrip a
    | kept => (a ++ kept)%string
    end.
Proof.
  induction a as [|c a IH].
  - change ("" ++ b)%string with b. destruct (rstrip b); reflexivity.
  - change (String c a ++ b)%string with (String c (a ++ b)).
    cbn [rstrip]. rewrite IH. destruct (rstrip b) as [|c' kept] eqn:Hb; [done|].
    destruct a; reflexivity.
Qed.

Lemma rstrip_idem (s : string) : rstrip (rstrip s) = rstrip s.
Proof.
  induction s as [|c s IH]; [done|]. simpl.
  destruct (rstrip s) as [|c' kept] eqn:Hs.
  - destruct (is_space c) eqn:Hc; [done|]. simpl. by rewrite Hc.
  - simpl in *. by rewrite IH.
Qed.

Lemma split_once_app (key value : string) :
  free_of "=" key = true ->
  split_once (key ++ String "=" value) = (key, value).
Proof.
  induction key as [|c key IH]; intros Hk; simpl in *.
  - reflexivity.
  - apply andb_true_iff in Hk as [Hc Hk].
    apply negb_true_iff in Hc. rewrite Hc. by rewrite IH.
Qed.

Lemma free_of_app (c : ascii) (a b : string) :
  free_of c (a ++ b) = free_of c a && free_of c b.
Proof.
  induction a as [|x a IH]; [done|]. simpl. by rewrite IH, andb_assoc.
Qed.

Lemma free_of_here (c : ascii) (s : string) : free_of c (String c s) = false.
Proof. cbn [free_of]. by rewrite bool_decide_eq_true_2. Qed.

Lemma prefix_hash (c : ascii) (s : string) :
  bool_decide (c = "#"%char) = false -> String.prefix "#" (String c s) = false.
Proof.
  intros Hc. cbn [String.prefix]. destruct (ascii_dec "#" c) as [<-|Hne].
  - by rewrite bool_decide_eq_true_2 in Hc.
  - reflexivity.
Qed.

(** A line [KEY=value] of the file sets [KEY] to the value without the
    white space at its end. *)
Lemma load_line_assignment (env_vars : gmap string string) (key value : string) :
  key_like key = true ->
  load_line env_vars (key ++ String "=" value ++ String "010" "")
  = <[key := rstrip value]> env_vars.
Proof.
  intros Hkey. unfold load_line, strip.
  assert (Hv : rstrip (String "=" value ++ String "010" "")
               = String "=" (rstrip value)).
  { change (String "=" value ++ String "010" "")%string
      with (String "=" (value ++ String "010" ""))%string.
    cbn [rstrip]. rewrite (rstrip_app value (String "010" "")).
    change (rstrip (String "010" "")) with "". cbn iota.
    by destruct (rstrip value). }
  assert (Hr : rstrip (key ++ String "=" value ++ String "010" "")
               = (key ++ String "=" (rstrip value))%string).
  { by rewrite rstrip_app, Hv. }
  rewrite Hr.
  destruct key as [|c key]; [discriminate Hkey|]. simpl in Hkey.
  apply andb_true_iff in Hkey as [Hkey Hline].
  apply andb_true_iff in Hkey as [Hkey Heq].
  apply andb_true_iff in Hkey as [Hsp Hhash].
  apply negb_true_iff in Hsp. apply negb_true_iff in Hhash.
  change (String c key ++ String "=" (rstrip value))%string
    with (String c (key ++ String "=" (rstrip value))).
  cbn [lstrip]. rewrite Hsp.
  rewrite bool_decide_eq_false_2 by done.
  rewrite (prefix_hash c) by done.
  assert (free_of "=" (String c (key ++ String "=" (rstrip value))) = false) as ->.
  { change (String c (key ++ String "=" (rstrip value)))
      with (String c key ++ String "=" (rstrip value))%string.
    rewrite free_of_app, free_of_here. apply andb_false_r. }
  cbn [negb andb].
  change (String c (key ++ String "=" (rstrip value)))
    with (String c key ++ String "=" (rstrip value))%string.
  by rewrite split_once_app.
Qed.

(** The loop of [load_env_vars] takes a first line that has no line end
    inside it as it stands. *)
Lemma load_first_line (env_vars : gmap string string) (a rest : string) :
  one_line a = true ->
  foldl load_line env_vars (lines (universal_newlines (a ++ String "010" rest)))
  = foldl load_line (load_line env_vars (a ++ String "010" ""))
      (lines (universal_newlines rest)).
Proof.
  unfold one_line. intros Ha. apply andb_true_iff in Ha as [Hn Hr].
  by rewrite universal_newlines_one_line, lines_one_line.
Qed.

(** X14. A token saved with [--save-token] is the token that
    [load_env_vars] finds under [INATURALIST_ACCESS_TOKEN], up to white
    space at its end, provided none of the five values written holds a
    line end. *)
Theorem saved_token_is_loaded :
  forall client_id client_secret access_token refresh_token expires_in,
    one_line client_id = true ->
    one_line client_secret = true ->
    one_line access_token = true ->
    one_line refresh_token = true ->
    one_line expires_in = true ->
    load_env_vars
      (Some (env_content client_id client_secret access_token refresh_token
               expires_in)) !! "INATURALIST_ACCESS_TOKEN"
    = Some (rstrip access_token).
Proof.
  intros id secret token refresh expires Hid Hsecret Htoken Hrefresh Hexpires.
  unfold one_line in *.
  apply andb_true_iff in Hid as [Hid1 Hid2].
  apply andb_true_iff in Hsecret as [Hs1 Hs2].
  apply andb_true_iff in Htoken as [Ht1 Ht2].
  apply andb_true_iff in Hrefresh as [Hr1 Hr2].
  apply andb_true_iff in Hexpires as [He1 He2].
  unfold load_env_vars, env_content.
  rewrite load_first_line by reflexivity.
  rewrite <- (append_assoc "INATURALIST_CLIENT_ID=" id).
  rewrite load_first_line
    by (unfold one_line; rewrite !free_of_app, Hid1, Hid2; reflexivity).
  rewrite <- (append_assoc "INATURALIST_CLIENT_SECRET=" secret).
  rewrite load_first_line
    by (unfold one_line; rewrite !free_of_app, Hs1, Hs2; reflexivity).
  rewrite <- (append_assoc "INATURALIST_ACCESS_TOKEN=" token).
  rewrite load_first_line
    by (unfold one_line; rewrite !free_of_app, Ht1, Ht2; reflexivity).
  rewrite <- (append_assoc "INATURALIST_REFRESH_TOKEN=" refresh).
  rewrite load_first_line
    by (unfold one_line; rewrite !free_of_app, Hr1, Hr2; reflexivity).
  rewrite <- (append_assoc "INATURALIST_TOKEN_EXPIRES_IN=" expires).
  rewrite load_first_line
    by (unfold one_line; rewrite !free_of_app, He1, He2; reflexivity).
  cbn [universal_newlines lines foldl].
  rewrite !append_assoc.
  change ("INATURALIST_CLIENT_ID=" ++ ?v ++ String "010" "")%string
    with ("INATURALIST_CLIENT_ID" ++ String "=" v ++ String "010" "")%string.
  change ("INATURALIST_CLIENT_SECRET=" ++ ?v ++ String "010" "")%string
    with ("INATURALIST_CLIENT_SECRET" ++ String "=" v ++ String "010" "")%string.
  change ("INATURALIST_ACCESS_TOKEN=" ++ ?v ++ String "010" "")%string
    with ("INATURALIST_ACCESS_TOKEN" ++ String "=" v ++ String "010" "")%string.
  change ("INATURALIST_REFRESH_TOKEN=" ++ ?v ++ String "010" "")%string
    with ("INATURALIST_REFRESH_TOKEN" ++ String "=" v ++ String "010" "")%string.
  change ("INATURALIST_TOKEN_EXPIRES_IN=" ++ ?v ++ String "010" "")%string
    with ("INATURALIST_TOKEN_EXPIRES_IN" ++ String "=" v ++ String "010" "")%string.
  rewrite !load_line_assignment by reflexivity.
  assert (load_line ∅ ("# iNaturalist API Authentication" ++ String "010" "") = ∅)
    as -> by reflexivity.
  rewrite lookup_insert_ne by done. rewrite lookup_insert_ne by done.
  by rewrite lookup_insert_eq.
Qed.

Lemma saved_token_is_loaded_witness :
  load_env_vars (Some (env_content "id" "secret" "abc123 " "r" "3600"))
    !! "INATURALIST_ACCESS_TOKEN" = Some "abc123".
Proof.
  apply (saved_token_is_loaded "id" "secret" "abc123 " "r" "3600"); reflexivity.
Defined.

(** ** The table of species *)

Lemma count_one_get (name key : string) (counts : list (string * nat)) :
  dict_get key (count_one name counts)
  = if bool_decide (name = key)
    then Some (S (default 0%nat (dict_get key counts)))
    else dict_get key counts.
Proof.
  induction counts as [|[k n] counts IH]; simpl.
  - destruct (decide (name = key)) as [->|Hne].
    + by rewrite !bool_decide_eq_true_2.
    + by rewrite !bool_decide_eq_false_2.
  - destruct (decide (k = name)) as [->|Hkn].
    + rewrite (bool_decide_eq_true_2 (name = name)) by done. simpl.
      destruct (decide (name = key)) as [->|Hne].
      * by rewrite !bool_decide_eq_true_2.
      * by rewrite !bool_decide_eq_false_2.
    + rewrite (bool_decide_eq_false_2 (k = name)) by done. simpl.
      destruct (decide (k = key)) as [->|Hkk].
      * rewrite (bool_decide_eq_true_2 (key = key)) by done.
        by rewrite (bool_decide_eq_false_2 (name = key)).
      * rewrite (bool_decide_eq_false_2 (k = key)) by done. apply IH.
Qed.

Lemma count_one_keys (name : string) (counts : list (string * nat)) :
  NoDup (fst <$> counts) -> NoDup (fst <$> count_one name counts) /\
  forall k, k ∈ fst <$> count_one name counts <-> k = name \/ k ∈ fst <$> counts.
Proof.
  induction counts as [|[k n] counts IH]; simpl; intros Hnd.
  - split; [apply NoDup_singleton|]. intros k'. rewrite list_elem_of_singleton.
    split; [by left|]. intros [?|Hin]; [done|]. by apply elem_of_nil in Hin.
  - apply NoDup_cons in Hnd as [Hk Hnd]. destruct (IH Hnd) as [IH1 IH2].
    destruct (decide (k = name)) as [->|Hkn].
    + rewrite bool_decide_eq_true_2 by done. simpl.
      split; [by apply NoDup_cons|]. intros k'. rewrite elem_of_cons. tauto.
    + rewrite bool_decide_eq_false_2 by done. simpl. split.
      * apply NoDup_cons. split; [|done]. rewrite IH2. intros [?|?]; done.
      * intros k'. rewrite !elem_of_cons, IH2. tauto.
Qed.

Lemma dict_get_elem {V} (key : string) (v : V) (items : list (string * V)) :
  NoDup (fst <$> items) -> (key, v) ∈ items <-> dict_get key items = Some v.
Proof.
  induction items as [|[k x] items IH]; simpl; intros Hnd.
  - split; [intros Hin; by apply elem_of_nil in Hin|done].
  - apply NoDup_cons in Hnd as [Hk Hnd]. rewrite elem_of_cons.
    destruct (decide (k = key)) as [->|Hne].
    + rewrite bool_decide_eq_true_2 by done. split.
      * intros [Heq|Hin]; [by injection Heq as ->|].
        destruct Hk. apply list_elem_of_fmap. by exists (key, v).
      * intros Heq. injection Heq as ->. by left.
    + rewrite bool_decide_eq_false_2 by done. rewrite <- IH by done.
      split; [|by right]. intros [Heq|Hin]; [|done]. by injection Heq as <-.
Qed.

(** The table holds each species once, with the number of its observations. *)
Lemma count_species_spec (names : list (option string)) :
  NoDup (fst <$> count_species names) /\
  forall key, default 0%nat (dict_get key (count_species names))
              = if bool_decide (key = "") then 0%nat else observed key names.
Proof.
  unfold count_species, observed.
  induction names as [|o names IH] using rev_ind.
  - split; [apply NoDup_nil_2|]. intros key. by destruct (bool_decide (key = "")).
  - rewrite foldl_app. cbn [foldl]. destruct IH as [IH1 IH2].
    destruct (truthy o) eqn:Ho.
    + destruct o as [name|]; [|done]. cbn [default from_option id].
      simpl in Ho. apply negb_true_iff, bool_decide_eq_false in Ho.
      split; [by apply count_one_keys|]. intros key.
      rewrite filter_app, length_app.
      rewrite count_one_get. specialize (IH2 key).
      destruct (decide (name = key)) as [->|Hne].
      * rewrite bool_decide_eq_true_2 by done.
        rewrite bool_decide_eq_false_2 in IH2 |- * by done.
        rewrite filter_cons_True by done. cbn [default from_option id]. simpl.
        rewrite IH2. lia.
      * rewrite bool_decide_eq_false_2 by done. rewrite IH2.
        rewrite filter_cons_False by congruence. simpl.
        destruct (bool_decide (key = "")); lia.
    + split; [done|]. intros key. rewrite IH2. destruct (decide (key = "")) as [->|Hk].
      * by rewrite bool_decide_eq_true_2.
      * rewrite bool_decide_eq_false_2 by done.
        rewrite filter_app, length_app.
        rewrite filter_cons_False; [simpl; lia|].
        intros ->. simpl in Ho. apply negb_false_iff, bool_decide_eq_true in Ho.
        congruence.
Qed.

Lemma insert_by_count_perm (x : string * nat) (l : list (string * nat)) :
  insert_by_count x l ≡ₚ x :: l.
Proof.
  induction l as [|y l IH]; simpl; [done|].
  destruct (snd y <? snd x)%nat; [done|]. rewrite IH. apply Permutation_swap.
Qed.

Lemma sorted_by_count_perm (items : list (string * nat)) :
  sorted_by_count items ≡ₚ items.
Proof.
  unfold sorted_by_count. induction items as [|x items IH] using rev_ind; [done|].
  rewrite foldl_app. simpl. rewrite insert_by_count_perm, IH.
  by rewrite Permutation_cons_append.
Qed.

Lemma insert_by_count_falling (x : string * nat) (l : list (string * nat)) :
  falling l -> falling (insert_by_count x l).
Proof.
  induction l as [|y l IH]; simpl; [done|]. intros [Hy Hl].
  destruct (Nat.ltb_spec (snd y) (snd x)).
  - simpl. split; [|done]. apply Forall_cons. split; [lia|].
    eapply Forall_impl; [exact Hy|]. simpl. intros; lia.
  - simpl. split; [|by apply IH].
    rewrite insert_by_count_perm. by apply Forall_cons.
Qed.

Lemma sorted_by_count_falling (items : list (string * nat)) :
  falling (sorted_by_count items).
Proof.
  unfold sorted_by_count. induction items as [|x items IH] using rev_ind; [done|].
  rewrite foldl_app. simpl. by apply insert_by_count_falling.
Qed.

Lemma falling_take_drop (n : nat) (l : list (string * nat)) :
  falling l ->
  forall x y, x ∈ take n l -> y ∈ drop n l -> (snd y <= snd x)%nat.
Proof.
  revert n. induction l as [|z l IH]; intros [|n] Hl x y Hx Hy; simpl in *;
    try by apply elem_of_nil in Hx.
  destruct Hl as [Hz Hl]. apply elem_of_cons in Hx as [->|Hx].
  - apply (Forall_drop _ n) in Hz. rewrite Forall_forall in Hz. by apply Hz.
  - by eapply IH.
Qed.

Lemma falling_take (n : nat) (l : list (string * nat)) :
  falling l -> falling (take n l).
Proof.
  revert n. induction l as [|z l IH]; intros [|n] Hl; simpl in *; try done.
  destruct Hl as [Hz Hl]. split; [|by apply IH].
  by apply Forall_take.
Qed.

Lemma count_one_positive (name : string) (counts : list (string * nat)) :
  Forall (fun x => (1 <= snd x)%nat) counts ->
  Forall (fun x => (1 <= snd x)%nat) (count_one name counts).
Proof.
  induction counts as [|[k n] counts IH]; simpl; intros Hc.
  - apply Forall_cons. split; [simpl; lia|done].
  - apply Forall_cons in Hc as [Hn Hc]. destruct (bool_decide (k = name)).
    + apply Forall_cons. split; [simpl; lia|done].
    + apply Forall_cons. split; [done|by apply IH].
Qed.

Lemma count_species_positive (names : list (option string)) :
  Forall (fun x => (1 <= snd x)%nat) (count_species names).
Proof.
  unfold count_species. induction names as [|o names IH] using rev_ind; [done|].
  rewrite foldl_app. cbn [foldl].
  destruct (truthy o); [by apply count_one_positive|done].
Qed.

(** X15. The table "Top species found" has at most ten rows, each
    species at most once, in the order of falling counts; a row never
    has an empty name, and its count is the number of observations of
    that species; and a named species that was observed but is not in the
    table was observed no more often than any species in it. *)
Theorem top_species_are_the_most_observed :
  forall names,
    (length (top_species names) <= 10)%nat /\
    NoDup (fst <$> top_species names) /\
    falling (top_species names) /\
    (forall name n, (name, n) ∈ top_species names ->
       name <> "" /\ n = observed name names /\ (1 <= n)%nat) /\
    (forall name row,
       name <> "" ->
       (1 <= observed name names)%nat ->
       name ∉ fst <$> top_species names ->
       row ∈ top_species names ->
       (observed name names <= snd row)%nat).
Proof.
  intros names. unfold top_species.
  set (counts := count_species names).
  set (sorted := sorted_by_count counts).
  destruct (count_species_spec names) as [Hnd Hget]. fold counts in Hnd, Hget.
  pose proof (sorted_by_count_perm counts) as Hperm. fold sorted in Hperm.
  pose proof (sorted_by_count_falling counts) as Hfall. fold sorted in Hfall.
  assert (Hnds : NoDup (fst <$> sorted)) by by rewrite Hperm.
  assert (Hrow : forall name n, (name, n) ∈ sorted ->
                   name <> "" /\ n = observed name names /\ (1 <= n)%nat).
  { intros name n Hin. rewrite Hperm in Hin.
    assert (1 <= n)%nat as Hn.
    { pose proof (count_species_positive names) as Hpos. fold counts in Hpos.
      rewrite Forall_forall in Hpos. by apply (Hpos (name, n)). }
    apply dict_get_elem in Hin; [|done]. specialize (Hget name).
    rewrite Hin in Hget. cbn [default from_option id] in Hget.
    destruct (decide (name = "")) as [->|Hne].
    - rewrite bool_decide_eq_true_2 in Hget by done. lia.
    - rewrite bool_decide_eq_false_2 in Hget by done. done. }
  split; [rewrite length_take; lia|]. split; [|split; [|split]].
  - rewrite <- (take_drop 10 sorted), fmap_app in Hnds.
    by apply NoDup_app in Hnds as [? _].
  - by apply falling_take.
  - intros name n Hin. apply Hrow.
    rewrite <- (take_drop 10 sorted). apply elem_of_app. by left.
  - intros name row Hne Hobs Hout Hin.
    assert ((name, observed name names) ∈ sorted) as Hname.
    { rewrite Hperm. apply dict_get_elem; [done|].
      specialize (Hget name). rewrite bool_decide_eq_false_2 in Hget by done.
      destruct (dict_get name counts) as [m|]; simpl in Hget; [by subst m|lia]. }
    rewrite <- (take_drop 10 sorted) in Hname.
    apply elem_of_app in Hname as [Hname|Hname].
    + destruct Hout. apply list_elem_of_fmap. by exists (name, observed name names).
    + by apply (falling_take_drop 10 sorted Hfall row (name, observed name names)).
Qed.

Lemma top_species_are_the_most_observed_witness :
  top_species demo_names
  = [("Apis mellifera", 3%nat); ("Danaus plexippus", 2%nat); ("Bufo bufo", 1%nat)] /\
  ("Apis mellifera" <> "" /\
   3%nat = observed "Apis mellifera" demo_names /\ (1 <= 3)%nat).
Proof.
  split; [reflexivity|].
  apply (proj1 (proj2 (proj2 (proj2 (top_species_are_the_most_observed demo_names))))
           "Apis mellifera" 3%nat).
  apply list_elem_of_here.
Defined.

(** ** The authenticated run *)

Lemma disk_blind_ret {A} (a : A) : disk_blind (mret a : io A).
Proof.
  intros w r w' Hrun d. injection Hrun as <- <-. by exists d.
Qed.

Lemma disk_blind_bind {A B} (m : io A) (f : A -> io B) :
  disk_blind m -> (forall a, disk_blind (f a)) -> disk_blind (m ≫= f).
Proof.
  intros Hm Hf w r w' Hrun d. unfold mbind, io_bind in *.
  destruct (m w) as [[a w1]|] eqn:Hmw; [|done].
  destruct (Hm w a w1 Hmw d) as [d1 ->].
  destruct (Hf a w1 r w' Hrun d1) as [d' Hd']. by exists d'.
Qed.

Lemma auth_download_image_blind h image_url output_dir filename :
  disk_blind (Auth.download_image h image_url output_dir filename).
Proof.
  intros w r w' Hrun d. revert Hrun.
  unfold Auth.download_image, mbind, io_bind, session_get, write_file, mret, io_ret.
  cbn [with_disk disk clock trace].
  destruct (h (length (requested_urls (trace w))) image_url);
    intros Hrun; injection Hrun as <- <-; by eexists.
Qed.

Lemma auth_for_quality_blind h base images_dir filename qualities :
  forall downloaded_path,
    disk_blind (Auth.for_quality h base images_dir filename qualities downloaded_path).
Proof.
  induction qualities as [|quality rest IH]; intros dp; cbn [Auth.for_quality].
  - apply disk_blind_ret.
  - apply disk_blind_bind; [apply auth_download_image_blind|].
    intros r. destruct (truthy r); [apply disk_blind_ret|apply IH].
Qed.

Lemma auth_process_photo_blind h access_token args id j p downloaded_count :
  disk_blind (Auth.process_photo h access_token args id j p downloaded_count).
Proof.
  unfold Auth.process_photo.
  destruct (truthy _); [|apply disk_blind_ret].
  apply disk_blind_bind.
  - destruct (Auth.direct access_token p);
      [apply auth_download_image_blind|apply auth_for_quality_blind].
  - intros r. destruct (truthy r); apply disk_blind_ret.
Qed.

Lemma auth_for_photo_blind h access_token args id (ps : list photo) :
  forall j downloaded_count,
    disk_blind (AuthMain.for_photo h access_token args id j ps downloaded_count).
Proof.
  induction ps as [|p ps IH]; intros j count; cbn [AuthMain.for_photo].
  - apply disk_blind_ret.
  - apply disk_blind_bind; [apply auth_process_photo_blind|]. intros [c lp].
    apply disk_blind_bind; [apply IH|]. intros [c' lps]. apply disk_blind_ret.
Qed.

Lemma auth_for_observation_blind h access_token args details (os : list observation) :
  forall downloaded_count,
    disk_blind (AuthMain.for_observation h access_token args details os
                  downloaded_count).
Proof.
  induction os as [|o os IH]; intros count; cbn [AuthMain.for_observation].
  - apply disk_blind_ret.
  - apply disk_blind_bind.
    + unfold AuthMain.process_observation.
      destruct (_ && _); [apply auth_for_photo_blind|apply disk_blind_ret].
    + intros [c lps]. apply disk_blind_bind; [apply IH|].
      intros [c' more]. apply disk_blind_ret.
Qed.

(** X16. The authenticated run never looks at the images directory:
    whatever files are there, it makes the same requests and ends with
    the same [downloaded_count] and the same local paths. *)
Theorem authenticated_run_ignores_the_disk :
  forall h access_token args details observations w r w' d,
    AuthMain.main h access_token args details observations w = Some (r, w') ->
    exists d',
      AuthMain.main h access_token args details observations (with_disk d w)
      = Some (r, with_disk d' w').
Proof.
  intros h token args details observations w r w' d Hrun.
  assert (Hb : disk_blind (AuthMain.main h token args details observations)).
  { unfold AuthMain.main. destruct observations; [apply disk_blind_ret|].
    apply disk_blind_bind; [apply auth_for_observation_blind|].
    intros r0. apply disk_blind_ret. }
  by apply Hb.
Qed.

Lemma authenticated_run_ignores_the_disk_witness :
  exists r t,
    (exists d, AuthMain.main not_found None demo_args no_details demo_observations
                 (new_world 900000) = Some (r, World d 900000 t)) /\
    (exists d', AuthMain.main not_found None demo_args no_details demo_observations
                  demo_world = Some (r, World d' 900000 t)).
Proof.
  destruct (AuthMain.main not_found None demo_args no_details demo_observations
              (new_world 900000)) as [[r [d c t]]|] eqn:Hrun;
    [|vm_compute in Hrun; discriminate Hrun].
  assert (c = 900000) as ->.
  { vm_compute in Hrun. by injection Hrun as _ _ <- _. }
  exists r, t. split; [by exists d|].
  apply (authenticated_run_ignores_the_disk not_found None demo_args no_details
           demo_observations (new_world 900000) r (World d 900000 t) (disk demo_world)).
  exact Hrun.
Defined.

Lemma fallback_url_truthy (base quality : string) :
  truthy (Some (fallback_url base quality)) = true.
Proof.
  simpl. rewrite bool_decide_eq_false_2; [done|].
  unfold fallback_url. apply append_nonempty_r. discriminate.
Qed.

Lemma auth_download_image_requests h image_url output_dir filename w r w' :
  Auth.download_image h image_url output_dir filename w = Some (r, w') ->
  length (requested_urls (trace w')) = S (length (requested_urls (trace w))) /\
  (r = None \/ r = Some (path_join output_dir filename)).
Proof.
  unfold Auth.download_image, mbind, io_bind, session_get, write_file, mret, io_ret.
  destruct (h (length (requested_urls (trace w))) image_url);
    intros Hrun; injection Hrun as <- <-; cbn [trace];
    rewrite requested_urls_app, length_app; simpl; (split; [lia|]); auto.
Qed.

Lemma auth_for_quality_requests h base images_dir filename qualities :
  forall downloaded_path w r w',
    Auth.for_quality h base images_dir filename qualities downloaded_path w
      = Some (r, w') ->
    (length (requested_urls (trace w)) + (if qualities is [] then 0 else 1)
     <= length (requested_urls (trace w')))%nat.
Proof.
  induction qualities as [|quality rest IH]; intros dp w r w' Hrun.
  - injection Hrun as <- <-. lia.
  - cbn [Auth.for_quality] in Hrun. unfold mbind, io_bind in Hrun.
    destruct (Auth.download_image h (fallback_url base quality) images_dir
                filename w) as [[dp1 w1]|] eqn:Hdl; [|done].
    apply auth_download_image_requests in Hdl as [Hreq _].
    destruct (truthy dp1).
    + injection Hrun as <- <-. lia.
    + apply IH in Hrun. destruct rest; lia.
Qed.

(** One photo of the authenticated run: one more request at least, and
    the count goes up exactly when a local path is recorded. *)
Lemma auth_process_photo_counts h access_token args id j p downloaded_count w
    count' local_path w' :
  Auth.process_photo h access_token args id j p downloaded_count w
    = Some ((count', local_path), w') ->
  (length (requested_urls (trace w)) < length (requested_urls (trace w')))%nat /\
  (count' = S downloaded_count /\ local_path <> None
   \/ count' = downloaded_count /\ local_path = None).
Proof.
  unfold Auth.process_photo.
  assert (truthy (if Auth.direct access_token p
                  then Auth.direct_image_url (quality args) p
                  else Auth.template_image_url (quality args) p) = true) as ->.
  { destruct (Auth.direct access_token p) eqn:Hd.
    - apply direct_image_url_truthy. unfold Auth.direct in Hd.
      by apply andb_true_iff in Hd as [_ ?].
    - apply fallback_url_truthy. }
  unfold mbind at 1, io_bind at 1.
  destruct (Auth.direct access_token p).
  - destruct (Auth.download_image _ _ _ _ w) as [[dp w1]|] eqn:Hdl; [|done].
    apply auth_download_image_requests in Hdl as [Hreq Hr].
    destruct (truthy dp) eqn:Ht; intros Hrun; injection Hrun as <- <- <-.
    + split; [lia|]. left. split; [done|]. by destruct dp.
    + split; [lia|]. by right.
  - destruct (Auth.for_quality _ _ _ _ _ _ w) as [[dp w1]|] eqn:Hq; [|done].
    apply auth_for_quality_requests in Hq.
    assert (length (requested_urls (trace w)) < length (requested_urls (trace w1)))%nat.
    { destruct (fallback_qualities (quality args)) eqn:Hfq; [|lia].
      by destruct (fallback_qualities_nonempty (quality args)). }
    destruct (truthy dp) eqn:Ht; intros Hrun; injection Hrun as <- <- <-.
    + split; [done|]. left. split; [done|]. by destruct dp.
    + split; [done|]. by right.
Qed.

Lemma auth_for_photo_counts h access_token args id (ps : list photo) :
  forall j downloaded_count w count' local_paths w',
    AuthMain.for_photo h access_token args id j ps downloaded_count w
      = Some ((count', local_paths), w') ->
    (length (requested_urls (trace w)) + length ps
     <= length (requested_urls (trace w')))%nat /\
    count' = (downloaded_count
              + length (filter (fun lp => lp <> None) local_paths))%nat.
Proof.
  induction ps as [|p ps IH]; intros j count w count' lps w' Hrun.
  - injection Hrun as <- <- <-. simpl. lia.
  - cbn [AuthMain.for_photo] in Hrun. unfold mbind, io_bind in Hrun.
    destruct (Auth.process_photo h access_token args id j p count w)
      as [[[c1 lp] w1]|] eqn:Hp; [|done].
    destruct (AuthMain.for_photo h access_token args id (S j) ps c1 w1)
      as [[[c2 lps2] w2]|] eqn:Hps; [|done].
    injection Hrun as <- <- <-.
    apply auth_process_photo_counts in Hp as [Hreq Hc].
    apply IH in Hps as [Hreq' ->]. split; [simpl; lia|].
    destruct Hc as [[-> Hlp]|[-> ->]].
    + rewrite filter_cons_True by done. simpl. lia.
    + rewrite filter_cons_False by (intros H; by apply H). lia.
Qed.

Lemma auth_for_observation_counts h access_token args details
    (os : list observation) :
  download_images args = true ->
  forall downloaded_count w count' paths w',
    AuthMain.for_observation h access_token args details os downloaded_count w
      = Some ((count', paths), w') ->
    (length (requested_urls (trace w))
     + photo_total (detailed access_token details <$> os)
     <= length (requested_urls (trace w')))%nat /\
    count' = (downloaded_count + resolved paths)%nat.
Proof.
  intros Hdl. unfold resolved, photo_total.
  induction os as [|o os IH]; intros count w count' paths w' Hrun.
  - injection Hrun as <- <- <-. simpl. lia.
  - cbn [AuthMain.for_observation] in Hrun. unfold mbind, io_bind in Hrun.
    destruct (AuthMain.process_observation h access_token args details o count w)
      as [[[c1 lps] w1]|] eqn:Ho; [|done].
    destruct (AuthMain.for_observation h access_token args details os c1 w1)
      as [[[c2 more] w2]|] eqn:Hos; [|done].
    injection Hrun as <- <- <-.
    apply IH in Hos as [Hreq' ->].
    rewrite fmap_cons. simpl concat. simpl sum_list.
    rewrite filter_app, length_app.
    unfold AuthMain.process_observation in Ho.
    fold (detailed access_token details o) in Ho. rewrite Hdl in Ho. simpl in Ho.
    destruct (bool_decide (photos (detailed access_token details o) = [])) eqn:Hemp;
      simpl in Ho.
    + apply bool_decide_eq_true in Hemp. rewrite Hemp in *.
      injection Ho as <- <- <-. simpl. unfold fmap in *. lia.
    + apply auth_for_photo_counts in Ho as [Hreq ->]. unfold fmap in *. lia.
Qed.

(** X17. In the authenticated run [images_downloaded] is exactly the
    number of photos that received a [local_path], and every photo costs
    at least one request in every run, whether or not its file is already
    there. *)
Theorem authenticated_run_asks_for_every_photo :
  forall h access_token args details observations w count paths w',
    download_images args = true ->
    AuthMain.main h access_token args details observations w
      = Some (Some (count, paths), w') ->
    count = resolved paths /\
    (length (requested_urls (trace w))
     + photo_total (detailed access_token details <$> limited args observations)
     <= length (requested_urls (trace w')))%nat.
Proof.
  intros h token args details observations w count paths w' Hdl Hrun.
  unfold AuthMain.main in Hrun. destruct observations as [|o os]; [done|].
  unfold mbind, io_bind in Hrun.
  destruct (AuthMain.for_observation _ _ _ _ _ _ w) as [[[c ps] w1]|] eqn:Hfor;
    [|done].
  injection Hrun as <- <- <-.
  apply auth_for_observation_counts in Hfor as [Hreq ->]; [|done]. done.
Qed.

Lemma authenticated_run_asks_for_every_photo_witness :
  exists count paths w',
    AuthMain.main demo_host None demo_args no_details demo_observations demo_world
      = Some (Some (count, paths), w') /\
    count = resolved paths /\
    (3 <= length (requested_urls (trace w')))%nat.
Proof.
  destruct (AuthMain.main demo_host None demo_args no_details demo_observations
              demo_world) as [[[[count paths]|] w']|] eqn:Hrun.
  - exists count, paths, w'. split; [done|].
    by apply (authenticated_run_asks_for_every_photo demo_host None demo_args
                no_details demo_observations demo_world count paths w').
  - vm_compute in Hrun. discriminate Hrun.
  - vm_compute in Hrun. discriminate Hrun.
Defined.
